(** * Bulk event loader (scripts/bulk_load_events.py) and sample event
    generator (scripts/generate_sample_events.py): a shallow embedding

    The loader reads event records from a file, normalises them in place
    ([validate_events]), provisions an Iceberg table ([create_or_get_table])
    and appends the records in fixed-size batches ([bulk_load]);
    [query_table_stats] reads the table's latest snapshot, [_load_config]
    resolves the configuration and [main] turns a run into an exit code.
    The generator makes the loader's input.

    Python dictionaries are finite maps from strings to Python values, the
    record dictionaries live in a store indexed by object identity (the code
    mutates the caller's dictionaries), and the catalog is an in-memory table
    store with a log of the calls made to it and a schedule of injected
    failures.  The behaviour of library functions the scripts call
    ([uuid.uuid4], [pd.to_datetime], [float] on a string, [yaml.safe_load],
    [argparse], [print], [random.choice], ...) is a parameter of the
    development, the classes [PyLib], [S3Lib], [SysLib] and [GenLib]. *)

From Stdlib Require Import ZArith Lia.
From Stdlib Require Import Floats.SpecFloat.
From stdpp Require Import base option list gmap strings pretty fin_maps.

Open Scope string_scope.
Open Scope list_scope.

(** ** Python values and exceptions *)

(** IEEE 754 binary64, as [spec_float] with 53 bits of precision. *)
Definition prec64 : Z := 53.
Definition emax64 : Z := 1024.

(** The scalar values a record field, a configuration entry or a snapshot
    summary entry can hold.  [VTimestamp] stands for both [pd.Timestamp] and
    [datetime] objects (the code tests for the two together), as nanoseconds
    since the epoch. *)
Inductive pyval :=
| VNone
| VBool (b : bool)
| VInt (n : Z)
| VFloat (x : spec_float)
| VStr (s : string)
| VTimestamp (ns : Z).

(** A Python [dict] with string keys. *)
Abbreviation dict := (gmap string pyval).

Inductive exn_class :=
| ValueError
| TypeError
| KeyError
| IndexError
| AttributeError
| OverflowError
| ZeroDivisionError
| FileNotFoundError
| BrokenPipeError
| NoSuchTableError
| TableAlreadyExistsError
| ServiceError.

(** An exception, an instance of [Exception]: its class and its message. *)
Record exn := Exn { exn_cls : exn_class; exn_msg : string }.

Inductive result (A : Type) :=
| Ok (a : A)
| Raise (e : exn).
Arguments Ok {A} a.
Arguments Raise {A} e.

Definition is_ok {A} (r : result A) : bool :=
  match r with Ok _ => true | Raise _ => false end.

(** Truth value of a Python object ([bool(v)]). *)
Definition truthy (v : pyval) : bool :=
  match v with
  | VNone => false
  | VBool b => b
  | VInt n => negb (n =? 0)%Z
  | VFloat (S754_zero _) => false
  | VFloat _ => true
  | VStr s => negb (String.eqb s "")
  | VTimestamp _ => true
  end.

(** [d.get(k)]: the value, or [None] when the key is absent. *)
Definition dict_get (k : string) (d : dict) : pyval :=
  default VNone (d !! k).

(** [d.setdefault(k, v)]: insert only when the key is absent. *)
Definition setdefault (k : string) (v : pyval) (d : dict) : dict :=
  match d !! k with
  | Some _ => d
  | None => <[k := v]> d
  end.

(** [d[k]]: raises [KeyError] when the key is absent. *)
Definition getitem (k : string) (d : dict) : result pyval :=
  match d !! k with
  | Some v => Ok v
  | None => Raise (Exn KeyError k)
  end.

Definition float_zero : spec_float := S754_zero false.
Definition float_one : spec_float :=
  Eval vm_compute in binary_normalize prec64 emax64 1 0 false.
Definition float_1024 : spec_float :=
  Eval vm_compute in binary_normalize prec64 emax64 1024 0 false.

(** [float(n)] for an [int]: round to nearest even, [OverflowError] beyond
    the largest double. *)
Definition float_of_int (n : Z) : result spec_float :=
  match binary_normalize prec64 emax64 n 0 false with
  | S754_infinity _ => Raise (Exn OverflowError "int too large to convert to float")
  | x => Ok x
  end.

(** ** The table catalog *)

(** The sixteen columns, in schema order ([column_order] in [bulk_load]). *)
Definition column_order : list string :=
  [ "id"; "organization_id"; "event_id"; "timestamp";
    "event_type"; "event_value"; "currency"; "user_id";
    "session_id"; "utm_source"; "utm_medium"; "utm_campaign";
    "device_type"; "browser"; "country"; "attribution_path" ].

Inductive field_type := StringType | TimestampType | DoubleType.

Record nested_field := NestedField {
  nf_id : Z; nf_name : string; nf_type : field_type; nf_required : bool }.

(** [_get_event_schema] *)
Definition _get_event_schema : list nested_field :=
  [ NestedField 1 "id" StringType true;
    NestedField 2 "organization_id" StringType true;
    NestedField 3 "event_id" StringType true;
    NestedField 4 "timestamp" TimestampType true;
    NestedField 5 "event_type" StringType true;
    NestedField 6 "event_value" DoubleType true;
    NestedField 7 "currency" StringType true;
    NestedField 8 "user_id" StringType true;
    NestedField 9 "session_id" StringType true;
    NestedField 10 "utm_source" StringType false;
    NestedField 11 "utm_medium" StringType false;
    NestedField 12 "utm_campaign" StringType false;
    NestedField 13 "device_type" StringType false;
    NestedField 14 "browser" StringType false;
    NestedField 15 "country" StringType false;
    NestedField 16 "attribution_path" StringType false ].

Inductive transform := TruncateTransform (width : Z) | MonthTransform | DayTransform.

Record partition_field := PartitionField {
  pf_source_id : Z; pf_field_id : Z; pf_transform : transform; pf_name : string }.

(** [_get_partition_spec] *)
Definition _get_partition_spec : list partition_field :=
  [ PartitionField 2 1000 (TruncateTransform 10) "organization_bucket";
    PartitionField 4 1001 MonthTransform "month";
    PartitionField 4 1002 DayTransform "day" ].

(** The [properties] argument of [create_table]. *)
Definition table_properties : list (string * string) :=
  [ ("write.format.default", "parquet");
    ("write.parquet.compression-codec", "snappy");
    ("write.metadata.compression-codec", "gzip");
    ("write.summary.partition-limit", "100");
    ("write.metadata.delete-after-commit.enabled", "true");
    ("write.metadata.previous-versions-max", "10") ].

(** A row of the columnar table: one cell per column of [column_order],
    [None] for a null. *)
Abbreviation row := (list (option pyval)).

(** A snapshot: the rows its append added, its summary map and its
    timestamp in milliseconds. *)
Record snapshot := Snapshot {
  snap_rows : list row;
  snap_summary : dict;
  snap_timestamp_ms : Z }.

(** What the catalog keeps of a table; snapshots oldest first. *)
Record table_metadata := TableMetadata {
  tm_schema : list nested_field;
  tm_spec : list partition_field;
  tm_properties : list (string * string);
  tm_snapshots : list snapshot }.

(** A table handle, as [load_table] and [create_table] return it: the
    identifier and the metadata read from the catalog. *)
Record table := Table {
  t_identifier : string;
  t_metadata : table_metadata }.

(** [table.current_snapshot()] *)
Definition current_snapshot (t : table) : option snapshot :=
  last (tm_snapshots (t_metadata t)).

(** The calls the loader makes to the catalog. *)
Inductive call :=
| LoadTable (identifier : string)
| CreateTable (identifier : string)
| Append (identifier : string) (batch : list row).

Definition is_create (c : call) : bool :=
  match c with CreateTable _ => true | _ => false end.


Inductive file_format := FmtCsv | FmtJson | FmtJsonl | FmtParquet.

(** What [yaml.safe_load] gives for a document: a mapping, a sequence or a
    scalar, [None] for an empty document.  The keys of a mapping are
    strings here, and its values and the items of a sequence are scalars. *)
Inductive yaml_doc :=
| YMapping (config : dict)
| YSequence (items : list pyval)
| YScalar (v : pyval).

(** ** Library behaviour *)

(** What the script takes from Python and its libraries.  Each field is the
    function named in its comment; none of them is code of the script. *)
Class PyLib := {
  (** [str(uuid.uuid4())] at the n-th draw *)
  uuid4_str : nat -> string;
  (** [datetime.now(timezone.utc)] at the n-th reading of the clock *)
  utc_now : nat -> Z;
  (** [float(s)] for a [str]; [None] when Python raises [ValueError] *)
  float_of_str : string -> option spec_float;
  (** [repr(s)] for a [str] *)
  repr_str : string -> string;
  (** [pd.to_datetime(v)] for a scalar *)
  to_datetime : pyval -> result pyval;
  (** [str(v)] as an f-string renders it *)
  str_of : pyval -> string;
  (** [f"{v:.2f}"] for a number *)
  format_2f : pyval -> string;
  (** [datetime.fromtimestamp(ms / 1000).isoformat()] *)
  isoformat_ms : Z -> result string;
  (** [str(Path(p))] *)
  path_str : string -> string;
  (** [Path(p).exists()] *)
  path_exists : string -> bool;
  (** [Path(p).suffix.lower()] *)
  path_suffix_lower : string -> string;
  (** [pd.read_csv] / [read_json] / [read_parquet] followed by
      [df.to_dict('records')] *)
  read_records : file_format -> string -> result (list dict);
  (** [yaml.safe_load] on the file at a path *)
  yaml_safe_load : string -> result yaml_doc;
  (** [os.getenv] *)
  getenv : string -> option string;
  (** the summary and timestamp the catalog gives the snapshot of an append *)
  commit_summary : table_metadata -> list row -> dict * Z
}.

(** ** The world: object store, entropy, clock, catalog *)

Record world := World {
  (** the record dictionaries, by object identity *)
  w_heap : nat -> dict;
  (** the next unused object identity *)
  w_next : nat;
  (** [uuid4] draws so far *)
  w_draws : nat;
  (** clock readings so far *)
  w_ticks : nat;
  (** the catalog's tables, by identifier *)
  w_tables : gmap string table_metadata;
  (** failures injected into the coming catalog calls: the head decides the
      next call, [Some e] makes it raise [e]; an empty schedule injects none *)
  w_faults : list (option exn);
  (** the catalog calls made so far, oldest first *)
  w_calls : list call }.

Definition set_heap (h : nat -> dict) (w : world) : world :=
  World h (w_next w) (w_draws w) (w_ticks w) (w_tables w) (w_faults w) (w_calls w).
Definition set_next (n : nat) (w : world) : world :=
  World (w_heap w) n (w_draws w) (w_ticks w) (w_tables w) (w_faults w) (w_calls w).
Definition set_draws (n : nat) (w : world) : world :=
  World (w_heap w) (w_next w) n (w_ticks w) (w_tables w) (w_faults w) (w_calls w).
Definition set_ticks (n : nat) (w : world) : world :=
  World (w_heap w) (w_next w) (w_draws w) n (w_tables w) (w_faults w) (w_calls w).
Definition set_tables (ts : gmap string table_metadata) (w : world) : world :=
  World (w_heap w) (w_next w) (w_draws w) (w_ticks w) ts (w_faults w) (w_calls w).
Definition set_faults (fs : list (option exn)) (w : world) : world :=
  World (w_heap w) (w_next w) (w_draws w) (w_ticks w) (w_tables w) fs (w_calls w).
Definition set_calls (cs : list call) (w : world) : world :=
  World (w_heap w) (w_next w) (w_draws w) (w_ticks w) (w_tables w) (w_faults w) cs.

(** Store update at one object identity. *)
Definition upd (l : nat) (d : dict) (h : nat -> dict) : nat -> dict :=
  fun l' => if decide (l' = l) then d else h l'.

(** Computations that read and write the world and may raise; what was
    written before a raise stays written. *)
Definition M (A : Type) : Type := world -> result A * world.

Definition ret {A} (a : A) : M A := fun w => (Ok a, w).
Definition raise {A} (e : exn) : M A := fun w => (Raise e, w).
Definition bind {A B} (m : M A) (k : A -> M B) : M B :=
  fun w => match m w with
           | (Ok a, w') => k a w'
           | (Raise e, w') => (Raise e, w')
           end.
Definition lift {A} (r : result A) : M A := fun w => (r, w).

(** [try: m except Exception: h] *)
Definition try_except {A} (m : M A) (h : exn -> M A) : M A :=
  fun w => match m w with
           | (Ok a, w') => (Ok a, w')
           | (Raise e, w') => h e w'
           end.

Declare Scope py_scope.
Delimit Scope py_scope with py.
Notation "x <- m ;; k" := (bind m (fun x => k))
  (at level 100, m at next level, right associativity) : py_scope.
Notation "m ;;; k" := (bind m (fun _ => k))
  (at level 100, right associativity) : py_scope.
Open Scope py_scope.

(** ** Primitive operations on the world *)

(** [event[k] = v] on the dictionary object [l]. *)
Definition set_item (l : nat) (k : string) (v : pyval) : M unit :=
  fun w => (Ok tt, set_heap (upd l (<[k := v]> (w_heap w l)) (w_heap w)) w).

(** [event.setdefault(k, v)] on the dictionary object [l]. *)
Definition set_default (l : nat) (k : string) (v : pyval) : M unit :=
  fun w => (Ok tt, set_heap (upd l (setdefault k v (w_heap w l)) (w_heap w)) w).

(** The current contents of the dictionary object [l]. *)
Definition read_dict (l : nat) : M dict :=
  fun w => (Ok (w_heap w l), w).

(** [event[k]] on the dictionary object [l]. *)
Definition get_item (l : nat) (k : string) : M pyval :=
  fun w => (getitem k (w_heap w l), w).

(** A new dictionary object holding [d]. *)
Definition alloc (d : dict) : M nat :=
  fun w => (Ok (w_next w),
            set_next (S (w_next w)) (set_heap (upd (w_next w) d (w_heap w)) w)).

Fixpoint alloc_all (ds : list dict) : M (list nat) :=
  match ds with
  | [] => ret []
  | d :: ds' => l <- alloc d ;; ls <- alloc_all ds' ;; ret (l :: ls)
  end.

Section Loader.
Context `{PyLib}.

(** [str(uuid.uuid4())] *)
Definition fresh_uuid : M pyval :=
  fun w => (Ok (VStr (uuid4_str (w_draws w))), set_draws (S (w_draws w)) w).

(** [datetime.now(timezone.utc)] *)
Definition now_utc : M pyval :=
  fun w => (Ok (VTimestamp (utc_now (w_ticks w))), set_ticks (S (w_ticks w)) w).

(** [float(v)]; the message of the [ValueError] shows the string as [repr]
    does. *)
Definition py_float (v : pyval) : result spec_float :=
  match v with
  | VNone =>
      Raise (Exn TypeError "float() argument must be a string or a real number, not 'NoneType'")
  | VBool b => Ok (if b then float_one else float_zero)
  | VInt n => float_of_int n
  | VFloat x => Ok x
  | VStr s =>
      match float_of_str s with
      | Some x => Ok x
      | None =>
          Raise (Exn ValueError ("could not convert string to float: " ++ repr_str s))
      end
  | VTimestamp _ =>
      Raise (Exn TypeError "float() argument must be a string or a real number, not 'Timestamp'")
  end.

Definition is_str (v : pyval) : bool :=
  match v with VStr _ => true | _ => false end.
Definition is_timestamp (v : pyval) : bool :=
  match v with VTimestamp _ => true | _ => false end.

(** ** [validate_events] *)

(** The loop body works on the dictionary object [l] the loop variable
    [event] refers to; its blocks, under the comments they carry in the
    script. *)

(** Ensure required fields: [if not event.get('id')]. *)
Definition ensure_id (l : nat) : M unit :=
  ev <- read_dict l ;;
  if negb (truthy (dict_get "id" ev))
  then (u <- fresh_uuid ;; set_item l "id" u)
  else ret tt.

(** Ensure timestamp is properly formatted. *)
Definition normalize_timestamp (l : nat) : M unit :=
  ev <- read_dict l ;;
  match ev !! "timestamp" with
  | Some ts =>
      if is_str ts
      then (t <- lift (to_datetime ts) ;; set_item l "timestamp" t)
      else if negb (is_timestamp ts)
      then (t <- lift (to_datetime ts) ;; set_item l "timestamp" t)
      else ret tt
  | None => (t <- now_utc ;; set_item l "timestamp" t)
  end.

(** Set defaults for required fields; the arguments are evaluated before
    [setdefault] looks at the key, so that two uuids are drawn in any
    case. *)
Definition set_defaults (l : nat) : M unit :=
  u <- fresh_uuid ;;
  set_default l "event_id" u ;;;
  set_default l "event_type" (VStr "conversion") ;;;
  set_default l "event_value" (VFloat float_zero) ;;;
  set_default l "currency" (VStr "USD") ;;;
  set_default l "user_id" (VStr "unknown") ;;;
  u <- fresh_uuid ;;
  set_default l "session_id" u.

(** Ensure numeric fields are correct type. *)
Definition coerce_event_value (l : nat) : M unit :=
  v <- get_item l "event_value" ;;
  x <- lift (py_float v) ;;
  set_item l "event_value" (VFloat x).

(** The body of the [for event in events] loop. *)
Definition validate_event (l : nat) (organization_id : string) : M unit :=
  ensure_id l ;;;
  set_item l "organization_id" (VStr organization_id) ;;;
  normalize_timestamp l ;;;
  set_defaults l ;;;
  coerce_event_value l.

(** The loop, with [validated_events] as accumulator. *)
Fixpoint validate_loop (events : list nat) (organization_id : string)
    (validated_events : list nat) : M (list nat) :=
  match events with
  | [] => ret validated_events
  | event :: rest =>
      validate_event event organization_id ;;;
      validate_loop rest organization_id (validated_events ++ [event])
  end.

Definition validate_events (events : list nat) (organization_id : string)
    : M (list nat) :=
  validate_loop events organization_id [].

(** ** [_load_config] *)

Definition env_mapping : list (string * string) :=
  [ ("DATALAKE_CATALOG_URI", "catalog_uri");
    ("DATALAKE_WAREHOUSE_NAME", "warehouse_name");
    ("CLOUDFLARE_API_TOKEN", "api_token");
    ("CLOUDFLARE_ACCOUNT_ID", "account_id");
    ("R2_S3_API_URL", "s3_endpoint");
    ("R2_BUCKET", "bucket_name") ].

Definition required_fields : list string :=
  [ "catalog_uri"; "warehouse_name"; "api_token" ].

(** One round of the override loop on a mapping:
    [if env_value := os.getenv(env_key)] takes the variable only when it is
    set and not empty. *)
Definition env_override (config : dict) (entry : string * string) : dict :=
  match getenv entry.1 with
  | Some env_value =>
      if negb (String.eqb env_value "")
      then <[entry.2 := VStr env_value]> config
      else config
  | None => config
  end.

(** A mapping after the override loop. *)
Definition apply_env (config : dict) : dict :=
  foldl env_override config env_mapping.

(** [[f for f in required_fields if f not in config]] for a mapping. *)
Definition missing_fields (config : dict) : list string :=
  filter (fun f => config !! f = None) required_fields.

(** What [config] is bound to before the override loop: the empty
    dictionary without a file, and otherwise whatever document the file
    holds. *)
Definition file_config (config_path : string) : result yaml_doc :=
  if path_exists config_path
  then yaml_safe_load config_path
  else Ok (YMapping ∅).

(** Whether the override loop assigns for this entry. *)
Definition env_set (entry : string * string) : bool :=
  match getenv entry.1 with
  | Some env_value => negb (String.eqb env_value "")
  | None => false
  end.

(** The name Python gives the type of a scalar of a document. *)
Definition type_name (v : pyval) : string :=
  match v with
  | VNone => "NoneType"
  | VBool _ => "bool"
  | VInt _ => "int"
  | VFloat _ => "float"
  | VStr _ => "str"
  | VTimestamp _ => "datetime.datetime"
  end.

(** [sub in s] for two strings. *)
Fixpoint str_contains (sub s : string) : bool :=
  String.prefix sub s ||
  match s with
  | EmptyString => false
  | String _ s' => str_contains sub s'
  end.

(** [config[key] = value]: only a mapping takes the assignment. *)
Definition doc_setitem (key : string) (value : pyval) (config : yaml_doc)
    : result yaml_doc :=
  match config with
  | YMapping d => Ok (YMapping (<[key := value]> d))
  | YSequence _ =>
      Raise (Exn TypeError "list indices must be integers or slices, not str")
  | YScalar v =>
      Raise (Exn TypeError
               ("'" ++ type_name v ++ "' object does not support item assignment"))
  end.

(** [f in config]: a key of a mapping, an item of a sequence, a part of a
    string; no other scalar is a container. *)
Definition doc_contains (f : string) (config : yaml_doc) : result bool :=
  match config with
  | YMapping d => Ok (match d !! f with Some _ => true | None => false end)
  | YSequence items =>
      Ok (existsb (fun item => match item with
                               | VStr s => String.eqb s f
                               | _ => false
                               end) items)
  | YScalar (VStr s) => Ok (str_contains f s)
  | YScalar v =>
      Raise (Exn TypeError ("argument of type '" ++ type_name v ++ "' is not iterable"))
  end.

(** [config.setdefault(key, value)]: only a mapping has the method. *)
Definition doc_setdefault (key : string) (value : pyval) (config : yaml_doc)
    : result dict :=
  match config with
  | YMapping d => Ok (setdefault key value d)
  | YSequence _ =>
      Raise (Exn AttributeError "'list' object has no attribute 'setdefault'")
  | YScalar v =>
      Raise (Exn AttributeError
               ("'" ++ type_name v ++ "' object has no attribute 'setdefault'"))
  end.

(** One round of the override loop on whatever [config] is bound to. *)
Definition override_round (config : result yaml_doc) (entry : string * string)
    : result yaml_doc :=
  match config with
  | Raise e => Raise e
  | Ok config =>
      match getenv entry.1 with
      | Some env_value =>
          if negb (String.eqb env_value "")
          then doc_setitem entry.2 (VStr env_value) config
          else Ok config
      | None => Ok config
      end
  end.

(** [[f for f in fields if f not in config]] *)
Fixpoint missing_in (config : yaml_doc) (fields : list string) : result (list string) :=
  match fields with
  | [] => Ok []
  | f :: rest =>
      match doc_contains f config with
      | Raise e => Raise e
      | Ok present =>
          match missing_in config rest with
          | Raise e => Raise e
          | Ok missing => Ok (if present then missing else f :: missing)
          end
      end
  end.

(** [_load_config]: the document of the file (or the empty dictionary), the
    override loop, the test of the required fields, the defaults.  The
    first [setdefault] succeeds on a mapping only, so that what is returned
    is a dictionary. *)
Definition _load_config (config_path : string) : result dict :=
  match file_config config_path with
  | Raise e => Raise e
  | Ok config =>
      match foldl override_round (Ok config) env_mapping with
      | Raise e => Raise e
      | Ok config =>
          match missing_in config required_fields with
          | Raise e => Raise e
          | Ok [] =>
              match doc_setdefault "batch_size" (VInt 10000) config with
              | Raise e => Raise e
              | Ok config =>
                  Ok (setdefault "table_name" (VStr "conversion_events")
                        (setdefault "namespace" (VStr "default") config))
              end
          | Ok missing =>
              Raise (Exn ValueError
                       ("Missing required configuration: " ++ String.concat ", " missing))
          end
      end
  end.

(** ** The catalog service *)

(** Consume the head of the failure schedule. *)
Definition next_fault : M unit :=
  fun w => match w_faults w with
           | Some e :: fs => (Raise e, set_faults fs w)
           | None :: fs => (Ok tt, set_faults fs w)
           | [] => (Ok tt, w)
           end.

Definition log_call (c : call) : M unit :=
  fun w => (Ok tt, set_calls (w_calls w ++ [c]) w).

(** [catalog.load_table(identifier)] *)
Definition load_table (identifier : string) : M table :=
  log_call (LoadTable identifier) ;;;
  next_fault ;;;
  fun w => match w_tables w !! identifier with
           | Some metadata => (Ok (Table identifier metadata), w)
           | None => (Raise (Exn NoSuchTableError identifier), w)
           end.

(** [catalog.create_table(identifier, schema, partition_spec, properties)] *)
Definition create_table (identifier : string) (schema : list nested_field)
    (partition_spec : list partition_field) (properties : list (string * string))
    : M table :=
  log_call (CreateTable identifier) ;;;
  next_fault ;;;
  fun w => match w_tables w !! identifier with
           | Some _ => (Raise (Exn TableAlreadyExistsError identifier), w)
           | None =>
               let metadata := TableMetadata schema partition_spec properties [] in
               (Ok (Table identifier metadata),
                set_tables (<[identifier := metadata]> (w_tables w)) w)
           end.

(** [table.append(batch)]: one commit, one new snapshot. *)
Definition table_append (t : table) (batch : list row) : M unit :=
  log_call (Append (t_identifier t) batch) ;;;
  next_fault ;;;
  fun w => match w_tables w !! t_identifier t with
           | Some metadata =>
               let s := Snapshot batch (commit_summary metadata batch).1
                          (commit_summary metadata batch).2 in
               (Ok tt,
                set_tables
                  (<[t_identifier t :=
                       TableMetadata (tm_schema metadata) (tm_spec metadata)
                         (tm_properties metadata)
                         (tm_snapshots metadata ++ [s])]> (w_tables w)) w)
           | None => (Raise (Exn NoSuchTableError (t_identifier t)), w)
           end.

(** ** [create_or_get_table] *)

(** [f"{self.config['namespace']}.{self.config['table_name']}"] *)
Definition table_identifier (config : dict) : result string :=
  match getitem "namespace" config with
  | Raise e => Raise e
  | Ok ns =>
      match getitem "table_name" config with
      | Raise e => Raise e
      | Ok tn => Ok (str_of ns +:+ "." +:+ str_of tn)
      end
  end.

Definition create_or_get_table (config : dict) : M table :=
  identifier <- lift (table_identifier config) ;;
  try_except
    (load_table identifier)
    (fun _ =>
       create_table identifier _get_event_schema _get_partition_spec
         table_properties).

(** ** [load_events_from_file] *)

(** [format_map.get(suffix, 'csv')] *)
Definition format_map (suffix : string) : string :=
  if String.eqb suffix ".csv" then "csv"
  else if String.eqb suffix ".json" then "json"
  else if String.eqb suffix ".jsonl" then "jsonl"
  else if String.eqb suffix ".parquet" then "parquet"
  else if String.eqb suffix ".pq" then "parquet"
  else "csv".

(** The data frame read from the file, as its list of records; the message
    of the [FileNotFoundError] shows the path as [Path] renders it. *)
Definition load_events_from_file (file_path file_format : string)
    : result (list dict) :=
  if negb (path_exists file_path)
  then Raise (Exn FileNotFoundError ("File not found: " ++ path_str file_path))
  else
    let file_format :=
      if String.eqb file_format "auto"
      then format_map (path_suffix_lower file_path)
      else file_format in
    if String.eqb file_format "csv" then read_records FmtCsv file_path
    else if String.eqb file_format "json" then read_records FmtJson file_path
    else if String.eqb file_format "jsonl" then read_records FmtJsonl file_path
    else if String.eqb file_format "parquet" then read_records FmtParquet file_path
    else Raise (Exn ValueError ("Unsupported file format: " ++ file_format)).

(** ** [bulk_load] *)

(** A cell of the Arrow table made from the validated data frame: the
    record's value for the column, and null when the record has none (the
    data frame then holds NaN) or has [None] or a NaN, which
    [pa.Table.from_pandas] turns into nulls. *)
Definition cell (d : dict) (col : string) : option pyval :=
  match d !! col with
  | Some VNone => None
  | Some (VFloat S754_nan) => None
  | o => o
  end.

(** [df_validated[column_order]], one row. *)
Definition to_row (d : dict) : row := map (cell d) column_order.

(** [range(start, stop, step)] for a step that is not zero. *)
Definition py_range (start stop step : Z) : list Z :=
  let len :=
    if (0 <? step)%Z
    then (if (start <? stop)%Z then ((stop - start + step - 1) / step)%Z else 0%Z)
    else (if (stop <? start)%Z then ((start - stop - step - 1) / (- step))%Z else 0%Z) in
  map (fun k => (start + Z.of_nat k * step)%Z) (seq 0 (Z.to_nat len)).

(** [arrow_table.slice(offset, length)] *)
Definition slice (rows : list row) (offset length : Z) : list row :=
  take (Z.to_nat length) (drop (Z.to_nat offset) rows).

(** The step [batch_size] gives the loop.  An [int] (or [bool]) that is zero
    raises [ZeroDivisionError] in [(total_rows + batch_size - 1) // batch_size];
    so does a float zero, and any other float is refused by [range]; the
    other values are refused by [total_rows + batch_size]. *)
Definition batch_step (batch_size : pyval) : result Z :=
  match batch_size with
  | VInt n =>
      if (n =? 0)%Z
      then Raise (Exn ZeroDivisionError "integer division or modulo by zero")
      else Ok n
  | VBool b =>
      if b then Ok 1%Z
      else Raise (Exn ZeroDivisionError "integer division or modulo by zero")
  | VFloat (S754_zero _) => Raise (Exn ZeroDivisionError "float floor division by zero")
  | VFloat _ => Raise (Exn TypeError "'float' object cannot be interpreted as an integer")
  | VNone | VStr _ | VTimestamp _ =>
      Raise (Exn TypeError "unsupported operand type(s) for +")
  end.

(** The batch the loop cuts at offset [i]. *)
Definition batch_at (arrow_table : list row) (batch_size i : Z) : list row :=
  let total_rows := Z.of_nat (length arrow_table) in
  let batch_end := Z.min (i + batch_size) total_rows in
  slice arrow_table i (batch_end - i).

Fixpoint for_each {A} (xs : list A) (body : A -> M unit) : M unit :=
  match xs with
  | [] => ret tt
  | x :: xs' => body x ;;; for_each xs' body
  end.

(** [validated_events[0]] *)
Definition first_event (validated_events : list nat) : M dict :=
  match validated_events with
  | [] => raise (Exn IndexError "list index out of range")
  | event :: _ => read_dict event
  end.

(** [pa.Table.from_pandas(pd.DataFrame(validated_events)[column_order])]:
    the rows are read from the dictionary objects as they are now.  The
    conversion is taken to succeed: the column types pandas and Arrow infer
    are not part of this model. *)
Definition data_frame (validated_events : list nat) : M (list row) :=
  fun w => (Ok (map (fun event => to_row (w_heap w event)) validated_events), w).

(** [df.to_dict('records')] makes one new dictionary object per record;
    logging and the progress bar are left out, except that the sample line
    of the dry run evaluates [validated_events[0]]. *)
Definition bulk_load (config : dict) (input_file organization_id file_format : string)
    (dry_run : bool) : M nat :=
  df <- lift (load_events_from_file input_file file_format) ;;
  events <- alloc_all df ;;
  validated_events <- validate_events events organization_id ;;
  if dry_run
  then
    (_ <- first_event validated_events ;;
     ret (length validated_events))
  else
    (table <- create_or_get_table config ;;
     arrow_table <- data_frame validated_events ;;
     batch_size <- lift (getitem "batch_size" config) ;;
     let total_rows := Z.of_nat (length arrow_table) in
     batch_size <- lift (batch_step batch_size) ;;
     for_each (py_range 0 total_rows batch_size)
       (fun i => table_append table (batch_at arrow_table batch_size i)) ;;;
     ret (length arrow_table)).

(** ** [query_table_stats] *)

(** [size_bytes < 1024.0] *)
Definition lt_1024 (size_bytes : pyval) : result bool :=
  match size_bytes with
  | VInt n => Ok (n <? 1024)%Z
  | VBool _ => Ok true
  | VFloat x => Ok (SFltb x float_1024)
  | VNone | VStr _ | VTimestamp _ =>
      Raise (Exn TypeError "'<' not supported between these instances")
  end.

(** [size_bytes / 1024.0] *)
Definition div_1024 (size_bytes : pyval) : result pyval :=
  match py_float size_bytes with
  | Ok x => Ok (VFloat (SFdiv prec64 emax64 x float_1024))
  | Raise e => Raise e
  end.

(** The loop over the units: the first unit under which the size is below
    1024 gives the rendering; no rendering past the last unit. *)
Fixpoint human_size (units : list string) (size_bytes : pyval) (stats : dict)
    : result dict :=
  match units with
  | [] => Ok stats
  | unit :: rest =>
      match lt_1024 size_bytes with
      | Raise e => Raise e
      | Ok true =>
          Ok (<["total_size" := VStr (format_2f size_bytes ++ " " ++ unit)]> stats)
      | Ok false =>
          match div_1024 size_bytes with
          | Raise e => Raise e
          | Ok size_bytes' => human_size rest size_bytes' stats
          end
      end
  end.

(** [current_snapshot.summary.get(key, 0) if current_snapshot else 0] *)
Definition summary_or_zero (cur : option snapshot) (key : string) : pyval :=
  match cur with
  | Some s => default (VInt 0) (snap_summary s !! key)
  | None => VInt 0
  end.

(** [datetime.fromtimestamp(...).isoformat() if current_snapshot else None] *)
Definition last_updated (cur : option snapshot) : result pyval :=
  match cur with
  | Some s =>
      match isoformat_ms (snap_timestamp_ms s) with
      | Ok iso => Ok (VStr iso)
      | Raise e => Raise e
      end
  | None => Ok VNone
  end.

Definition query_table_stats (config : dict) : M dict :=
  identifier <- lift (table_identifier config) ;;
  try_except
    (table <- load_table identifier ;;
     let snapshots := tm_snapshots (t_metadata table) in
     let cur := current_snapshot table in
     updated <- lift (last_updated cur) ;;
     let stats : dict :=
       <["last_updated" := updated]>
       (<["snapshot_count" := VInt (Z.of_nat (length snapshots))]>
       (<["total_size_bytes" := summary_or_zero cur "total-file-size-bytes"]>
       (<["file_count" := summary_or_zero cur "total-data-files"]>
       (<["row_count" := summary_or_zero cur "total-records"]>
       (<["table_name" := VStr identifier]> ∅))))) in
     lift (human_size ["B"; "KB"; "MB"; "GB"; "TB"]
             (summary_or_zero cur "total-file-size-bytes") stats))
    (fun _ => ret ∅).

(** ** What the loop body of [validate_events] computes

    Closed forms of the stages of [validate_event], in terms of the
    dictionary [d] the record holds before, the number [n] of [uuid4] draws
    and the number [t] of clock readings made so far. *)

(** After [if not event.get('id')]. *)
Definition with_id (d : dict) (n : nat) : dict :=
  if negb (truthy (dict_get "id" d)) then <["id" := VStr (uuid4_str n)]> d else d.

Definition draws_after_id (d : dict) (n : nat) : nat :=
  if negb (truthy (dict_get "id" d)) then S n else n.

(** The value the timestamp block stores, or the exception it raises. *)
Definition timestamp_value (d : dict) (t : nat) : result pyval :=
  match d !! "timestamp" with
  | Some ts =>
      if is_str ts then to_datetime ts
      else if negb (is_timestamp ts) then to_datetime ts
      else Ok ts
  | None => Ok (VTimestamp (utc_now t))
  end.

Definition ticks_after (d : dict) (t : nat) : nat :=
  match d !! "timestamp" with Some _ => t | None => S t end.

(** After the six [setdefault] calls; the first and the last draw a uuid
    whether or not the key is present. *)
Definition with_defaults (d : dict) (n : nat) : dict :=
  setdefault "session_id" (VStr (uuid4_str (S n)))
    (setdefault "user_id" (VStr "unknown")
       (setdefault "currency" (VStr "USD")
          (setdefault "event_value" (VFloat float_zero)
             (setdefault "event_type" (VStr "conversion")
                (setdefault "event_id" (VStr (uuid4_str n)) d))))).

(** The value [float] is applied to. *)
Definition event_value_in (d : dict) : pyval :=
  default (VFloat float_zero) (d !! "event_value").

Definition validated_outcome (d : dict) (t : nat) : result unit :=
  match timestamp_value d t with
  | Raise e => Raise e
  | Ok _ =>
      match py_float (event_value_in d) with
      | Raise e => Raise e
      | Ok _ => Ok tt
      end
  end.

Definition validated_dict (org : string) (d : dict) (n t : nat) : dict :=
  let d1 := <["organization_id" := VStr org]> (with_id d n) in
  match timestamp_value d t with
  | Raise _ => d1
  | Ok tv =>
      let d2 := with_defaults (<["timestamp" := tv]> d1) (draws_after_id d n) in
      match py_float (event_value_in d) with
      | Raise _ => d2
      | Ok x => <["event_value" := VFloat x]> d2
      end
  end.

Definition validated_draws (d : dict) (n t : nat) : nat :=
  match timestamp_value d t with
  | Raise _ => draws_after_id d n
  | Ok _ => S (S (draws_after_id d n))
  end.

(** ** Predicates of the statements *)

(** [float] accepts the record's [event_value] (or its default). *)
Definition convertible (d : dict) : bool := is_ok (py_float (event_value_in d)).

(** The timestamp block raises nothing on the record: there is no
    timestamp, or it is a timestamp object already, or [pd.to_datetime]
    accepts it. *)
Definition timestamp_ok (d : dict) : bool := is_ok (timestamp_value d 0).

(** The nine required fields. *)
Definition required_columns : list string :=
  [ "id"; "organization_id"; "event_id"; "timestamp"; "event_type";
    "event_value"; "currency"; "user_id"; "session_id" ].

(** A normalised record of organisation [org]: the organisation is the
    caller's, the nine required fields are there and the event value is a
    double. *)
Definition normalized (org : string) (d : dict) : Prop :=
  d !! "organization_id" = Some (VStr org) ∧
  (∀ k, k ∈ required_columns → is_Some (d !! k)) ∧
  ∃ x, d !! "event_value" = Some (VFloat x).

(** The value the environment gives the configuration key [k], if any:
    the variable mapped to [k] is set and not empty (the last such mapping
    wins). *)
Fixpoint env_value (mapping : list (string * string)) (k : string) : option string :=
  match mapping with
  | [] => None
  | entry :: rest =>
      match env_value rest k with
      | Some v => Some v
      | None =>
          if String.eqb entry.2 k
          then (if env_set entry then getenv entry.1 else None)
          else None
      end
  end.

(** The records pass the timestamp block and the coercion. *)
Definition all_valid (df : list dict) : Prop :=
  Forall (fun d => convertible d = true ∧ timestamp_ok d = true) df.

End Loader.

(** What a computation on the dictionary object [l] leaves behind: the
    object's contents [d], the counters [n] and [t], and everything else as
    in [w]. *)
Definition event_post (l : nat) (w : world) (d : dict) (n t : nat) (w' : world)
    : Prop :=
  w_heap w' l = d ∧ (∀ l', l' ≠ l → w_heap w' l' = w_heap w l') ∧
  w_draws w' = n ∧ w_ticks w' = t ∧ w_next w' = w_next w ∧
  w_tables w' = w_tables w ∧ w_faults w' = w_faults w ∧ w_calls w' = w_calls w.

(** The catalog is as it was: same tables, same calls, same schedule. *)
Definition catalog_untouched (w w' : world) : Prop :=
  w_tables w' = w_tables w ∧ w_calls w' = w_calls w ∧ w_faults w' = w_faults w.

(** The calls made between [w] and [w']. *)
Definition new_calls (w w' : world) : list call :=
  drop (length (w_calls w)) (w_calls w').

(** Only the catalog may differ: objects, allocator, entropy and clock are
    as they were. *)
Definition store_untouched (w w' : world) : Prop :=
  w_heap w' = w_heap w ∧ w_next w' = w_next w ∧
  w_draws w' = w_draws w ∧ w_ticks w' = w_ticks w.

(** The number of [create_table] calls among the calls. *)
Definition creates (cs : list call) : nat := length (List.filter is_create cs).


(** The keys the six [setdefault] calls set. *)
Definition default_keys : list string :=
  ["event_id"; "event_type"; "event_value"; "currency"; "user_id"; "session_id"].

(** [num_batches = (total_rows + batch_size - 1) // batch_size] *)
Definition num_batches (rows : list row) (batch_size : Z) : nat :=
  Z.to_nat ((Z.of_nat (length rows) + batch_size - 1) / batch_size).

(** The batches the loop appends, in order. *)
Definition batches (rows : list row) (batch_size : Z) : list (list row) :=
  map (batch_at rows batch_size) (py_range 0 (Z.of_nat (length rows)) batch_size).

(** ** [__init__], [_setup_connections] and [main] *)

(** The S3 client [_setup_connections] makes, as the arguments it gives
    [boto3.client]; the script makes no call on it. *)
Record s3_client := S3Client {
  s3_endpoint_url : pyval;
  s3_access_key_id : pyval;
  s3_secret_access_key : pyval }.

(** [boto3.client('s3', endpoint_url=..., aws_access_key_id=...,
    aws_secret_access_key=..., ...)], which may refuse its arguments. *)
Class S3Lib := {
  boto3_client : pyval -> pyval -> pyval -> result s3_client
}.

(** An [EventBulkLoader] after [__init__]: its configuration and its S3
    client, if any; its catalog is the catalog of the world. *)
Record loader := Loader {
  l_config : dict;
  l_s3_client : option s3_client }.

(** The parsed command line of the loader. *)
Record cli_args := CliArgs {
  arg_input : string;
  arg_org_id : string;
  arg_format : string;
  arg_config : string;
  arg_dry_run : bool;
  arg_stats : bool;
  arg_verbose : bool }.

(** The [choices] of [--format]. *)
Definition format_choices : list string :=
  ["auto"; "csv"; "json"; "jsonl"; "parquet"].

(** What [main] takes from [argparse] and from the standard output. *)
Class SysLib := {
  (** [parser.parse_args()] on the command line: the parsed arguments, or
      the status of the [SystemExit] argparse leaves with (2 after a usage
      error, 0 after [--help]) *)
  parse_args : list string -> cli_args + Z;
  (** [print(text)]: the exception the stream raises on the text, if any *)
  print_error : string -> option exn
}.

(** How a call of [main] ends when no exception leaves it: with the exit
    code it returns, or with the [SystemExit] of argparse, which is no
    [Exception] and which no [except Exception] clause takes. *)
Inductive main_outcome :=
| Returns (code : Z)
| SystemExit (status : Z).

(** The keys of the statistics, in the order [query_table_stats] inserts
    them. *)
Definition stats_keys : list string :=
  ["table_name"; "row_count"; "file_count"; "total_size_bytes";
   "snapshot_count"; "last_updated"; "total_size"].

(** [stats.items()] for the dictionary [query_table_stats] returns, in
    insertion order. *)
Definition stats_items (stats : dict) : list (string * pyval) :=
  omap (fun key => pair key <$> stats !! key) stats_keys.

(** The text of the escape [\n]. *)
Definition newline : string := String (Ascii.ascii_of_nat 10) "".

Fixpoint spaces (n : nat) : string :=
  match n with
  | 0 => ""
  | S n' => " " +:+ spaces n'
  end.

(** [f"{key:20}"]: the text, padded with spaces to twenty characters. *)
Definition ljust_20 (key : string) : string :=
  key +:+ spaces (20 - String.length key).

Section EntryPoint.
Context `{PyLib} `{S3Lib} `{SysLib}.

(** [RestCatalog(...)] reads three keys and asks the catalog for its
    configuration, a request that the failure schedule may fail and that is
    no table call; the S3 client is made only when the configuration has
    [s3_endpoint]. *)
Definition _setup_connections (config : dict) : M (option s3_client) :=
  _ <- lift (getitem "catalog_uri" config) ;;
  _ <- lift (getitem "api_token" config) ;;
  _ <- lift (getitem "warehouse_name" config) ;;
  next_fault ;;;
  match config !! "s3_endpoint" with
  | Some endpoint =>
      token <- lift (getitem "api_token" config) ;;
      client <- lift (boto3_client endpoint (default (VStr "") (config !! "account_id")) token) ;;
      ret (Some client)
  | None => ret None
  end.

(** [EventBulkLoader(config_path)] *)
Definition EventBulkLoader (config_path : string) : M loader :=
  config <- lift (_load_config config_path) ;;
  s3 <- _setup_connections config ;;
  ret (Loader config s3).

(** [print(text)] *)
Definition print (text : string) : M unit :=
  match print_error text with
  | Some e => raise e
  | None => ret tt
  end.

(** [print(f"{key:20}: {value}")] *)
Definition stats_line (item : string * pyval) : string :=
  ljust_20 item.1 +:+ ": " +:+ str_of item.2.

(** Show stats if requested: [if stats:] takes a dictionary that is not
    empty. *)
Definition show_stats (stats : dict) : M unit :=
  if decide (size stats = 0)
  then ret tt
  else
    (print (newline +:+ "Table Statistics:") ;;;
     print "----------------------------------------" ;;;
     for_each (stats_items stats) (fun item => print (stats_line item))).

(** The [try] block of [main]; logging is left out. *)
Definition main_body (args : cli_args) : M Z :=
  loader <- EventBulkLoader (arg_config args) ;;
  _ <- bulk_load (l_config loader) (arg_input args) (arg_org_id args)
         (arg_format args) (arg_dry_run args) ;;
  (if arg_stats args && negb (arg_dry_run args)
   then (stats <- query_table_stats (l_config loader) ;; show_stats stats)
   else ret tt) ;;;
  ret 0%Z.

(** [main], from the command line to the exit code: the arguments are
    parsed before the [try], whose [except Exception] clause turns every
    exception of the block into the exit code 1. *)
Definition main (argv : list string) : M main_outcome :=
  match parse_args argv with
  | inr status => ret (SystemExit status)
  | inl args =>
      code <- try_except (main_body args) (fun _ => ret 1%Z) ;;
      ret (Returns code)
  end.

End EntryPoint.

(** ** Further predicates *)


(** The exception validation raises on a record: the one of
    [pd.to_datetime] on its timestamp or, when the timestamp passes, the
    one of [float] on its event value. *)
Definition record_error `{PyLib} (d : dict) (e : exn) : Prop :=
  timestamp_value d 0 = Raise e ∨
  (timestamp_ok d = true ∧ py_float (event_value_in d) = Raise e).



(** The columns of the schema that validation fills when absent but whose
    present value it keeps, [None] included. *)
Definition kept_columns : list string :=
  ["event_id"; "event_type"; "currency"; "user_id"; "session_id"].

(** The lines [main] prints for statistics that are not empty. *)
Definition stats_lines `{PyLib} (stats : dict) : list string :=
  (newline +:+ "Table Statistics:")
    :: "----------------------------------------"
    :: map stats_line (stats_items stats).

(** ** The sample event generator (scripts/generate_sample_events.py)

    The generator makes the loader's input: random events over a time
    range ([generate_events]) or user journeys ([generate_user_journey]).
    The module [random], the entropy of [uuid] and the rendering of dates
    are a parameter, the class [GenLib]; a [datetime] is an instant in
    microseconds since the epoch, a [timedelta] a number of microseconds,
    both with the bounds Python gives them. *)

Module Generator.

Definition EVENT_TYPES : list string :=
  [ "page_view"; "add_to_cart"; "checkout"; "purchase";
    "signup"; "login"; "subscription"; "download";
    "video_play"; "form_submit"; "click"; "scroll" ].

Definition UTM_SOURCES : list string :=
  [ "google"; "facebook"; "twitter"; "linkedin"; "instagram";
    "email"; "direct"; "organic"; "referral"; "youtube" ].

Definition UTM_MEDIUMS : list string :=
  [ "cpc"; "cpm"; "social"; "email"; "organic";
    "referral"; "display"; "video"; "affiliate" ].

Definition UTM_CAMPAIGNS : list string :=
  [ "summer_sale"; "black_friday"; "new_product"; "brand_awareness";
    "retargeting"; "newsletter"; "webinar"; "ebook_download" ].

Definition DEVICE_TYPES : list string :=
  [ "desktop"; "mobile"; "tablet"; "tv"; "wearable" ].

Definition BROWSERS : list string :=
  [ "Chrome"; "Safari"; "Firefox"; "Edge"; "Opera";
    "Samsung Internet"; "UC Browser"; "Mobile Safari" ].

Definition COUNTRIES : list string :=
  [ "US"; "GB"; "CA"; "AU"; "DE"; "FR"; "JP"; "BR";
    "IN"; "CN"; "MX"; "ES"; "IT"; "NL"; "SE"; "KR" ].

Definition CURRENCIES : list string :=
  [ "USD"; "EUR"; "GBP"; "JPY"; "CAD"; "AUD" ].

(** The double a decimal literal such as [0.7] denotes: the quotient of two
    small integers, rounded once. *)
Definition float_ratio (a b : Z) : spec_float :=
  SFdiv prec64 emax64 (binary_normalize prec64 emax64 a 0 false)
    (binary_normalize prec64 emax64 b 0 false).

(** What the generator takes from Python's libraries. *)
Class GenLib := {
  (** the state of the module [random] together with the entropy [uuid]
      reads *)
  rng : Type;
  (** [random.choice(seq)]; [IndexError] on an empty sequence *)
  random_choice : list string -> rng -> result string * rng;
  (** [random.uniform(a, b)] *)
  random_uniform : Z -> Z -> rng -> spec_float * rng;
  (** [random.random()] *)
  random_random : rng -> spec_float * rng;
  (** [random.randint(a, b)]; [ValueError] on an empty range *)
  random_randint : Z -> Z -> rng -> result Z * rng;
  (** [random.sample(population, k)]; [ValueError] when [k] is negative or
      larger than the population *)
  random_sample : list string -> Z -> rng -> result (list string) * rng;
  (** [random.seed(n)] *)
  random_seed : Z -> rng -> rng;
  (** [round(x, 2)] *)
  round_2 : spec_float -> spec_float;
  (** [uuid.uuid4().hex] *)
  uuid4_hex : rng -> string * rng;
  (** [dt.isoformat()] *)
  isoformat : Z -> string;
  (** [int(td.total_seconds() / 3600)] *)
  timedelta_hours : Z -> Z
}.

(** An [EventGenerator], with the state of the libraries it draws from. *)
Record generator `{GenLib} := Generator {
  organization_id : string;
  user_pool : list string;
  session_pool : list string;
  entropy : rng }.
Arguments Generator {_} _ _ _ _.
Arguments organization_id {_} _.
Arguments user_pool {_} _.
Arguments session_pool {_} _.
Arguments entropy {_} _.

Definition set_session_pool `{GenLib} (pool : list string) (g : generator) : generator :=
  Generator (organization_id g) (user_pool g) pool (entropy g).
Definition set_entropy `{GenLib} (r : rng) (g : generator) : generator :=
  Generator (organization_id g) (user_pool g) (session_pool g) r.

(** Computations on the generator that may raise. *)
Definition G `{GenLib} (A : Type) : Type := generator -> result A * generator.

Definition gret `{GenLib} {A} (a : A) : G A := fun g => (Ok a, g).
Definition gbind `{GenLib} {A B} (m : G A) (k : A -> G B) : G B :=
  fun g => match m g with
           | (Ok a, g') => k a g'
           | (Raise e, g') => (Raise e, g')
           end.
Definition glift `{GenLib} {A} (r : result A) : G A := fun g => (r, g).

(** A draw from the libraries. *)
Definition draw `{GenLib} {A} (f : rng -> A * rng) : G A :=
  fun g => (Ok (f (entropy g)).1, set_entropy (f (entropy g)).2 g).
Definition draw_result `{GenLib} {A} (f : rng -> result A * rng) : G A :=
  fun g => ((f (entropy g)).1, set_entropy (f (entropy g)).2 g).

Declare Scope gen_scope.
Delimit Scope gen_scope with gen.
Notation "x <- m ;; k" := (gbind m (fun x => k))
  (at level 100, m at next level, right associativity) : gen_scope.

Section Generate.
Context `{GenLib}.
Local Open Scope gen_scope.

(** [str(u)] for the uuid with the given hex digits. *)
Definition uuid_str (hex : string) : string :=
  String.substring 0 8 hex +:+ "-" +:+ String.substring 8 4 hex +:+ "-" +:+ String.substring 12 4 hex
    +:+ "-" +:+ String.substring 16 4 hex +:+ "-" +:+ String.substring 20 12 hex.

(** [datetime.min] and [datetime.max], in microseconds since the epoch. *)
Definition datetime_min : Z := -62135596800000000.
Definition datetime_max : Z := 253402300799999999.

(** [timedelta.min] and [timedelta.max], in microseconds. *)
Definition timedelta_min : Z := -86399999913600000000.
Definition timedelta_max : Z := 86399999999999999999.

(** A [timedelta] of so many microseconds. *)
Definition timedelta (us : Z) : result Z :=
  if ((timedelta_min <=? us) && (us <=? timedelta_max))%Z
  then Ok us
  else Raise (Exn OverflowError "days; must have magnitude <= 999999999").

(** [dt + td] *)
Definition datetime_add (dt td : Z) : result Z :=
  if ((datetime_min <=? dt + td) && (dt + td <=? datetime_max))%Z
  then Ok (dt + td)%Z
  else Raise (Exn OverflowError "date value out of range").

(** One hour, in microseconds. *)
Definition hour : Z := 3600000000.

(** [__init__]: the pool of a hundred user ids. *)
Fixpoint make_user_pool (n : nat) (r : rng) : list string * rng :=
  match n with
  | 0 => ([], r)
  | S n' =>
      let user := "user_" +:+ String.substring 0 8 (uuid4_hex r).1 in
      let rest := make_user_pool n' (uuid4_hex r).2 in
      (user :: rest.1, rest.2)
  end.

(** [EventGenerator(organization_id, seed)]: [if seed] takes neither [None]
    nor 0. *)
Definition EventGenerator (org : string) (seed : option Z) (r : rng) : generator :=
  let r := match seed with
           | Some n => if (n =? 0)%Z then r else random_seed n r
           | None => r
           end in
  Generator org (make_user_pool 100 r).1 [] (make_user_pool 100 r).2.

(** *** [generate_event] *)

(** Generate event value based on type. *)
Definition event_value_for (event_type : string) : G spec_float :=
  if String.eqb event_type "purchase"
  then (x <- draw (random_uniform 10 500) ;; gret (round_2 x))
  else if existsb (String.eqb event_type) ["subscription"; "checkout"]
  then (x <- draw (random_uniform 20 200) ;; gret (round_2 x))
  else if existsb (String.eqb event_type) ["add_to_cart"]
  then (x <- draw (random_uniform 5 100) ;; gret (round_2 x))
  else gret float_zero.

(** A new session, appended to the pool, the oldest leaving a pool of
    more than fifty. *)
Definition new_session : G string :=
  h <- draw uuid4_hex ;;
  fun g =>
    let session_id := "session_" +:+ String.substring 0 12 h in
    let pool := session_pool g ++ [session_id] in
    (Ok session_id,
     set_session_pool (if Nat.ltb 50 (length pool) then tail pool else pool) g).

(** 70% chance of existing session, 30% new session; the chance is drawn
    only when the pool is not empty. *)
Definition pick_session : G string :=
  fun g =>
    match session_pool g with
    | [] => new_session g
    | _ :: _ =>
        (r <- draw random_random ;;
         if SFltb r (float_ratio 7 10)
         then draw_result (random_choice (session_pool g))
         else new_session) g
    end.

(** Random timestamp within the hour. *)
Definition event_timestamp (base_time : Z) : G Z :=
  minutes <- draw_result (random_randint 0 59) ;;
  seconds <- draw_result (random_randint 0 59) ;;
  delta <- glift (timedelta ((60 * minutes + seconds) * 1000000)) ;;
  glift (datetime_add base_time delta).

(** 80% have UTM params, 60% of them a campaign. *)
Definition add_utm (event : dict) : G dict :=
  r <- draw random_random ;;
  if SFltb r (float_ratio 8 10)
  then
    (source <- draw_result (random_choice UTM_SOURCES) ;;
     medium <- draw_result (random_choice UTM_MEDIUMS) ;;
     r <- draw random_random ;;
     if SFltb r (float_ratio 6 10)
     then
       (campaign <- draw_result (random_choice UTM_CAMPAIGNS) ;;
        gret (<["utm_campaign" := VStr campaign]>
                (<["utm_medium" := VStr medium]>
                   (<["utm_source" := VStr source]> event))))
     else
       gret (<["utm_medium" := VStr medium]> (<["utm_source" := VStr source]> event)))
  else gret event.

(** 90% have device info. *)
Definition add_device (event : dict) : G dict :=
  r <- draw random_random ;;
  if SFltb r (float_ratio 9 10)
  then
    (device <- draw_result (random_choice DEVICE_TYPES) ;;
     browser <- draw_result (random_choice BROWSERS) ;;
     gret (<["browser" := VStr browser]> (<["device_type" := VStr device]> event)))
  else gret event.

(** 95% have country. *)
Definition add_country (event : dict) : G dict :=
  r <- draw random_random ;;
  if SFltb r (float_ratio 95 100)
  then
    (country <- draw_result (random_choice COUNTRIES) ;;
     gret (<["country" := VStr country]> event))
  else gret event.

(** 30% have attribution path. *)
Definition add_attribution (event : dict) : G dict :=
  r <- draw random_random ;;
  if SFltb r (float_ratio 3 10)
  then
    (path_length <- draw_result (random_randint 1 4) ;;
     path_sources <-
       draw_result
         (random_sample UTM_SOURCES
            (Z.min path_length (Z.of_nat (length UTM_SOURCES)))) ;;
     gret (<["attribution_path" := VStr (String.concat " > " path_sources)]> event))
  else gret event.

Definition generate_event (base_time : Z) : G dict :=
  event_type <- draw_result (random_choice EVENT_TYPES) ;;
  event_value <- event_value_for event_type ;;
  user_id <- (fun g => draw_result (random_choice (user_pool g)) g) ;;
  session_id <- pick_session ;;
  timestamp <- event_timestamp base_time ;;
  id_hex <- draw uuid4_hex ;;
  org <- (fun g => (Ok (organization_id g), g)) ;;
  event_hex <- draw uuid4_hex ;;
  currency <-
    (if SFltb float_zero event_value
     then draw_result (random_choice CURRENCIES)
     else gret "USD") ;;
  let event : dict :=
    <["session_id" := VStr session_id]>
    (<["user_id" := VStr user_id]>
    (<["currency" := VStr currency]>
    (<["event_value" := VFloat event_value]>
    (<["event_type" := VStr event_type]>
    (<["timestamp" := VStr (isoformat timestamp)]>
    (<["event_id" := VStr ("evt_" +:+ String.substring 0 12 event_hex)]>
    (<["organization_id" := VStr org]>
    (<["id" := VStr (uuid_str id_hex)]> ∅)))))))) in
  event <- add_utm event ;;
  event <- add_device event ;;
  event <- add_country event ;;
  add_attribution event.

(** *** [generate_events] *)

(** The [for _ in range(hour_events)] loop, with its [break]. *)
Fixpoint hour_batch (n : nat) (current_time : Z) (events : list dict)
    (remaining_events : Z) : G (list dict * Z) :=
  match n with
  | 0 => gret (events, remaining_events)
  | S n' =>
      event <- generate_event current_time ;;
      if (remaining_events - 1 <=? 0)%Z
      then gret (events ++ [event], (remaining_events - 1)%Z)
      else hour_batch n' current_time (events ++ [event]) (remaining_events - 1)%Z
  end.

(** One round of the [while] loop: the events of the hour, then the next
    hour. *)
Definition one_hour (events_per_hour current_time : Z) (events : list dict)
    (remaining_events : Z) : G (list dict * Z * Z) :=
  variation <- draw_result (random_randint (-5) 10) ;;
  let hour_events :=
    Z.min remaining_events (Z.max 1 (events_per_hour + variation)) in
  batch <- hour_batch (Z.to_nat hour_events) current_time events remaining_events ;;
  next_time <- glift (datetime_add current_time hour) ;;
  gret (batch.1, batch.2, next_time).

(** The [while] loop, for at most [fuel] rounds; [None] when the rounds do
    not suffice. *)
Fixpoint hours_loop (fuel : nat) (events_per_hour end_date current_time : Z)
    (events : list dict) (remaining_events : Z) (g : generator)
    : option (result (list dict) * generator) :=
  if ((0 <? remaining_events) && (current_time <? end_date))%Z
  then
    match fuel with
    | 0 => None
    | S fuel' =>
        match one_hour events_per_hour current_time events remaining_events g with
        | (Ok (events', remaining', next_time), g') =>
            hours_loop fuel' events_per_hour end_date next_time events' remaining' g'
        | (Raise e, g') => Some (Raise e, g')
        end
    end
  else Some (Ok events, g).

(** [generate_events]; every round makes at least one event, so that
    [num_events] rounds are given. *)
Definition generate_events (num_events start_date end_date : Z) (g : generator)
    : option (result (list dict) * generator) :=
  let hours := timedelta_hours (end_date - start_date) in
  if (hours =? 0)%Z
  then Some (Raise (Exn ZeroDivisionError "integer division or modulo by zero"), g)
  else
    let events_per_hour := Z.max 1 (num_events / hours) in
    hours_loop (Z.to_nat num_events) events_per_hour end_date start_date [] num_events g.

(** *** [generate_user_journey] *)

(** [seq[:k]] *)
Definition slice_to {A} (l : list A) (k : Z) : list A :=
  if (0 <=? k)%Z then take (Z.to_nat k) l
  else take (Z.to_nat (Z.of_nat (length l) + k)) l.

(** [value if value > 0 else 0] for the values of the journey: the integer
    0 or a double. *)
Definition positive_or_zero (value : pyval) : pyval :=
  match value with
  | VFloat x => if SFltb float_zero x then VFloat x else VInt 0
  | _ => VInt 0
  end.

(** One round of the loop over the journey. *)
Definition journey_step (user_id session_id : string) (current_time : Z)
    (step : string * Z * pyval) : G (dict * Z) :=
  seconds <- draw_result (random_randint 0 59) ;;
  delta <- glift (timedelta ((60 * step.1.2 + seconds) * 1000000)) ;;
  current_time <- glift (datetime_add current_time delta) ;;
  id_hex <- draw uuid4_hex ;;
  org <- (fun g => (Ok (organization_id g), g)) ;;
  event_hex <- draw uuid4_hex ;;
  let event : dict :=
    <["country" := VStr "US"]>
    (<["browser" := VStr "Chrome"]>
    (<["device_type" := VStr "desktop"]>
    (<["utm_campaign" := VStr "summer_sale"]>
    (<["utm_medium" := VStr "cpc"]>
    (<["utm_source" := VStr "google"]>
    (<["session_id" := VStr session_id]>
    (<["user_id" := VStr user_id]>
    (<["currency" := VStr "USD"]>
    (<["event_value" := positive_or_zero step.2]>
    (<["event_type" := VStr step.1.1]>
    (<["timestamp" := VStr (isoformat current_time)]>
    (<["event_id" := VStr ("evt_" +:+ String.substring 0 12 event_hex)]>
    (<["organization_id" := VStr org]>
    (<["id" := VStr (uuid_str id_hex)]> ∅)))))))))))))) in
  gret (event, current_time).

Fixpoint journey_loop (steps : list (string * Z * pyval)) (user_id session_id : string)
    (current_time : Z) (journey_events : list dict) : G (list dict) :=
  match steps with
  | [] => gret journey_events
  | step :: rest =>
      made <- journey_step user_id session_id current_time step ;;
      journey_loop rest user_id session_id made.2 (journey_events ++ [made.1])
  end.

(** The typical user journey, with the two values drawn. *)
Definition journey_sequence (cart purchase : spec_float) : list (string * Z * pyval) :=
  [ ("page_view", 0%Z, VInt 0);
    ("click", 1%Z, VInt 0);
    ("page_view", 2%Z, VInt 0);
    ("add_to_cart", 5%Z, VFloat cart);
    ("checkout", 8%Z, VInt 0);
    ("purchase", 10%Z, VFloat purchase) ].

Definition generate_user_journey (user_id session_id : string) (start_time : Z)
    : G (list dict) :=
  cart <- draw (random_uniform 20 100) ;;
  purchase <- draw (random_uniform 20 100) ;;
  r <- draw random_random ;;
  steps <-
    (if SFltb r (float_ratio 4 10)
     then (k <- draw_result (random_randint 2 4) ;;
           gret (slice_to (journey_sequence cart purchase) k))
     else gret (journey_sequence cart purchase)) ;;
  journey_loop steps user_id session_id start_time [].

(** *** Predicates on the library *)

(** [random.choice] on a sequence that is not empty gives one of its
    elements. *)
Definition choice_ok : Prop :=
  ∀ l r, l ≠ [] → ∃ x, x ∈ l ∧ (random_choice l r).1 = Ok x.

(** What [random.randint] returns lies in the range asked for. *)
Definition randint_in_range : Prop :=
  ∀ a b r v, (random_randint a b r).1 = Ok v → (a ≤ v ≤ b)%Z.

(** A hexadecimal digit, in lower case. *)
Definition is_hex (c : Ascii.ascii) : bool :=
  existsb (Ascii.eqb c) (String.list_ascii_of_string "0123456789abcdef").

(** A text of so many hexadecimal digits. *)
Definition hex_digits (n : nat) (s : string) : bool :=
  Nat.eqb (String.length s) n && forallb is_hex (String.list_ascii_of_string s).

(** [uuid.uuid4().hex] is a text of thirty-two hexadecimal digits. *)
Definition uuid_hex_ok : Prop :=
  ∀ r, hex_digits 32 (uuid4_hex r).1 = true.

(** What a computation does to the generator, whatever its outcome. *)
Definition frames (R : generator → generator → Prop) {A} (m : G A) : Prop :=
  ∀ g r g', m g = (r, g') → R g g'.

(** The generator is as it was but for the entropy. *)
Definition keeps (g g' : generator) : Prop :=
  organization_id g' = organization_id g ∧ user_pool g' = user_pool g ∧
  session_pool g' = session_pool g.

(** The organisation and the users are as they were, and a session pool of
    at most fifty is still one. *)
Definition bounded (g g' : generator) : Prop :=
  organization_id g' = organization_id g ∧ user_pool g' = user_pool g ∧
  ((length (session_pool g) ≤ 50)%nat → (length (session_pool g') ≤ 50)%nat).

(** The second event has the keys of the first with the same values, and
    more only among [keys]. *)
Definition extends (keys : list string) (ev ev' : dict) : Prop :=
  ∀ k, k ∉ keys → ev' !! k = ev !! k.

(** The optional columns. *)
Definition optional_columns : list string :=
  ["utm_source"; "utm_medium"; "utm_campaign"; "device_type"; "browser"; "country";
   "attribution_path"].

(** The event types of the typical journey, in order. *)
Definition journey_types : list string :=
  ["page_view"; "click"; "page_view"; "add_to_cart"; "checkout"; "purchase"].

End Generate.

End Generator.

(** ** A library instance and inputs for the examples

    The instance decides the inputs of the examples below as Python and
    pandas do; it is not meant beyond them. *)

Module Sample.

Fixpoint digits_value (s : string) (acc : Z) : option Z :=
  match s with
  | EmptyString => Some acc
  | String c s' =>
      let n := Z.of_nat (Ascii.nat_of_ascii c) in
      if ((48 <=? n) && (n <=? 57))%Z
      then digits_value s' (10 * acc + (n - 48))%Z
      else None
  end.

(** A small [float] on strings: the strings of decimal digits, as [float]
    reads them; every other string is refused. *)
Definition float_of_digits (s : string) : option spec_float :=
  if String.eqb s "" then None
  else (fun n => binary_normalize prec64 emax64 n 0 false) <$> digits_value s 0.

(** A small [pd.to_datetime]: timestamp objects and integers (nanoseconds)
    are taken, [None] gives [None], booleans are refused with [TypeError];
    of the strings one ISO date is known, and floats are left out. *)
Definition to_datetime_sample (v : pyval) : result pyval :=
  match v with
  | VTimestamp ns => Ok (VTimestamp ns)
  | VInt ns => Ok (VTimestamp ns)
  | VNone => Ok VNone
  | VStr s =>
      if String.eqb s "2024-01-15T10:30:00"
      then Ok (VTimestamp 1705314600000000000)
      else Raise (Exn ValueError ("Unknown datetime string format, unable to parse: " ++ s))
  | VBool _ => Raise (Exn TypeError "<class 'bool'> is not convertible to datetime")
  | VFloat _ => Raise (Exn TypeError "float timestamp")
  end.

Definition str_of_sample (v : pyval) : string :=
  match v with
  | VStr s => s
  | VInt n => pretty n
  | VBool true => "True"
  | VBool false => "False"
  | VNone => "None"
  | VFloat _ => "<float>"
  | VTimestamp ns => pretty ns
  end.

Definition format_2f_sample (v : pyval) : string :=
  match v with
  | VInt n => pretty n +:+ ".00"
  | VBool true => "1.00"
  | VBool false => "0.00"
  | _ => "<float>"
  end.

Definition r1 : dict :=
  {[ "id" := VStr "evt-1"; "organization_id" := VStr "someone-else";
     "timestamp" := VStr "2024-01-15T10:30:00"; "event_type" := VStr "purchase";
     "event_value" := VInt 120; "currency" := VStr "EUR";
     "user_id" := VStr "user_1"; "session_id" := VStr "sess_1";
     "utm_source" := VStr "google" ]}.
Definition r2 : dict := {[ "event_value" := VStr "42" ]}.
Definition r3 : dict := {[ "id" := VStr ""; "timestamp" := VTimestamp 1705314600000000000 ]}.
Definition r4 : dict := {[ "id" := VStr "evt-4"; "utm_medium" := VNone ]}.
Definition r5 : dict := ∅.
Definition r_bad_value : dict := {[ "id" := VStr "evt-6"; "event_value" := VStr "abc" ]}.
Definition r_bad_date : dict :=
  {[ "id" := VStr "evt-7"; "timestamp" := VStr "garbage"; "event_value" := VInt 1 ]}.
(** A record as [pd.read_csv] gives it for a line with empty cells: NaN
    where the cell is empty. *)
Definition r_nan : dict :=
  {[ "id" := VFloat S754_nan; "event_type" := VStr "click";
     "event_value" := VFloat S754_nan; "utm_source" := VFloat S754_nan ]}.

Definition files : list (string * list dict) :=
  [ ("events.csv", [r1; r2; r3; r4; r5]);
    ("empty.csv", []);
    ("empty_cells.csv", [r_nan]);
    ("bad_value.json", [r_bad_value]);
    ("bad_date.json", [r_bad_date]) ].

Definition find_file (p : string) : option (list dict) :=
  snd <$> find (fun f => String.eqb f.1 p) files.

(** A small [Path.suffix]: the text from the last dot on. *)
Fixpoint suffix_from (s : string) (best : string) : string :=
  match s with
  | EmptyString => best
  | String c s' =>
      if Nat.eqb (Ascii.nat_of_ascii c) 46
      then suffix_from s' (String c s')
      else suffix_from s' best
  end.

Definition config_file : dict :=
  {[ "catalog_uri" := VStr "https://catalog.example/iceberg";
     "warehouse_name" := VStr "warehouse";
     "namespace" := VStr "analytics";
     "batch_size" := VInt 2 ]}.

Definition environment : list (string * string) :=
  [ ("CLOUDFLARE_API_TOKEN", "token-123"); ("R2_BUCKET", "") ].

Definition summary_sample (t : table_metadata) (batch : list row) : dict * Z :=
  ({[ "added-records" := VStr (pretty (length batch)) ]},
   (1700000000000 + Z.of_nat (length (tm_snapshots t)))%Z).

(** A small [str(Path(p))]: a leading "./" is dropped. *)
Definition path_str_sample (p : string) : string :=
  if String.prefix "./" p
  then String.substring 2 (String.length p - 2) p
  else p.

(** A small [repr]: the text between single quotes, as [repr] shows a
    string that holds no quote, no backslash and no control character. *)
Definition repr_sample (s : string) : string := "'" +:+ s +:+ "'".

#[local] Instance lib : PyLib := {|
  uuid4_str n := "uuid-" +:+ pretty n;
  utc_now n := (1762128000000000000 + Z.of_nat n)%Z;
  float_of_str := float_of_digits;
  repr_str := repr_sample;
  path_str := path_str_sample;
  to_datetime := to_datetime_sample;
  str_of := str_of_sample;
  format_2f := format_2f_sample;
  isoformat_ms ms := Ok ("epoch-ms-" +:+ pretty ms);
  path_exists p :=
    match find_file p with
    | Some _ => true
    | None => String.eqb p "config.yaml"
    end;
  path_suffix_lower p := suffix_from p "";
  read_records _ p :=
    match find_file p with
    | Some rs => Ok rs
    | None => Raise (Exn ValueError "no such sample")
    end;
  yaml_safe_load p :=
    if String.eqb p "config.yaml" then Ok (YMapping config_file) else Ok (YScalar VNone);
  getenv k := snd <$> find (fun e => String.eqb e.1 k) environment;
  commit_summary := summary_sample
|}.

(** The initial world: no object, no table, no scheduled failure. *)
Definition w0 : world := World (fun _ => ∅) 0 0 0 ∅ [] [].

(** The world in which the given records are the objects 0, 1, ... *)
Definition world_of (ds : list dict) : world := (alloc_all ds w0).2.

(** Two of the records, as objects 0 and 1. *)
Definition w2 : world := world_of [r1; r2].

(** A world whose catalog has the table already. *)
Definition w_table : world :=
  set_tables
    {[ "analytics.conversion_events" :=
         TableMetadata _get_event_schema _get_partition_spec table_properties [] ]}
    w0.

(** The configuration [_load_config "config.yaml"] resolves to. *)
Definition config : dict :=
  match _load_config "config.yaml" with
  | Ok c => c
  | Raise _ => ∅
  end.

(** [boto3.client] taking every endpoint. *)
#[local] Instance s3 : S3Lib := {|
  boto3_client endpoint access_key secret := Ok (S3Client endpoint access_key secret)
|}.

(** An environment that sets the three required keys. *)
Definition environment_complete : list (string * string) :=
  [ ("DATALAKE_CATALOG_URI", "https://catalog.example/iceberg");
    ("DATALAKE_WAREHOUSE_NAME", "warehouse");
    ("CLOUDFLARE_API_TOKEN", "token-123") ].

(** A document that is a sequence, and holds the names of the required
    keys. *)
Definition list_document : yaml_doc :=
  YSequence [VStr "catalog_uri"; VStr "warehouse_name"; VStr "api_token"].

(** The library with more configuration files - an empty document, a
    sequence and a plain string - and the environment given. *)
Definition lib_documents (env : list (string * string)) : PyLib := {|
  uuid4_str := uuid4_str (PyLib:=lib);
  utc_now := utc_now (PyLib:=lib);
  float_of_str := float_of_str (PyLib:=lib);
  repr_str := repr_str (PyLib:=lib);
  to_datetime := to_datetime (PyLib:=lib);
  str_of := str_of (PyLib:=lib);
  format_2f := format_2f (PyLib:=lib);
  isoformat_ms := isoformat_ms (PyLib:=lib);
  path_str := path_str (PyLib:=lib);
  path_exists p :=
    existsb (String.eqb p) ["empty.yaml"; "list.yaml"; "text.yaml"]
    || path_exists (PyLib:=lib) p;
  path_suffix_lower := path_suffix_lower (PyLib:=lib);
  read_records := read_records (PyLib:=lib);
  yaml_safe_load p :=
    if String.eqb p "list.yaml" then Ok list_document
    else if String.eqb p "text.yaml" then Ok (YScalar (VStr "catalog_uri"))
    else yaml_safe_load (PyLib:=lib) p;
  getenv k := snd <$> find (fun e => String.eqb e.1 k) env;
  commit_summary := commit_summary (PyLib:=lib)
|}.

(** The library with the sample environment and an empty YAML document. *)
#[local] Instance lib_empty_yaml : PyLib := lib_documents environment.

(** A snapshot as the catalog reports it, the values of the summary being
    strings. *)
Definition snapshot_1 : snapshot :=
  Snapshot []
    {[ "total-records" := VStr "5"; "total-data-files" := VStr "1";
       "total-file-size-bytes" := VStr "2048" ]}
    1700000000000.

(** A snapshot whose summary holds numbers. *)
Definition snapshot_2 : snapshot :=
  Snapshot []
    {[ "total-records" := VInt 5; "total-data-files" := VInt 1;
       "total-file-size-bytes" := VInt 512 ]}
    1700000000001.

(** A world whose table has the given snapshots. *)
Definition w_snapshots (snaps : list snapshot) : world :=
  set_tables
    {[ "analytics.conversion_events" :=
         TableMetadata _get_event_schema _get_partition_spec table_properties snaps ]}
    w0.

(** A record with a present but null event type. *)
Definition r_null_type : dict := {[ "id" := VStr "evt-8"; "event_type" := VNone ]}.

(** A small [argparse] for the options of the script: [--help] leaves with
    status 0; an unknown option, an option without its value, a format
    outside the choices and a missing [--input] or [--org-id] leave with
    status 2. *)
Fixpoint parse_options (argv : list string) (input org_id : option string)
    (fmt config_path : string) (dry_run stats verbose : bool) : cli_args + Z :=
  match argv with
  | [] =>
      match input, org_id with
      | Some i, Some o => inl (CliArgs i o fmt config_path dry_run stats verbose)
      | _, _ => inr 2%Z
      end
  | option :: rest =>
      let named names := existsb (String.eqb option) names in
      if named ["--help"; "-h"] then inr 0%Z
      else if named ["--dry-run"]
      then parse_options rest input org_id fmt config_path true stats verbose
      else if named ["--stats"]
      then parse_options rest input org_id fmt config_path dry_run true verbose
      else if named ["--verbose"; "-v"]
      then parse_options rest input org_id fmt config_path dry_run stats true
      else
        match rest with
        | [] => inr 2%Z
        | value :: rest' =>
            if named ["--input"; "-i"]
            then parse_options rest' (Some value) org_id fmt config_path dry_run stats verbose
            else if named ["--org-id"; "-o"]
            then parse_options rest' input (Some value) fmt config_path dry_run stats verbose
            else if named ["--format"; "-f"]
            then (if existsb (String.eqb value) format_choices
                  then parse_options rest' input org_id value config_path dry_run stats verbose
                  else inr 2%Z)
            else if named ["--config"; "-c"]
            then parse_options rest' input org_id fmt value dry_run stats verbose
            else inr 2%Z
        end
  end.

(** A standard output that takes every text. *)
#[local] Instance sys : SysLib := {|
  parse_args argv := parse_options argv None None "auto" "config.yaml" false false false;
  print_error _ := None
|}.

(** A standard output that is closed. *)
#[local] Instance sys_closed : SysLib := {|
  parse_args := parse_args (SysLib:=sys);
  print_error _ := Some (Exn BrokenPipeError "[Errno 32] Broken pipe")
|}.

(** The command line [--input <input> --org-id acme], with the flags
    given. *)
Definition argv (input : string) (dry_run stats : bool) : list string :=
  ["--input"; input; "--org-id"; "acme"]
    ++ (if dry_run then ["--dry-run"] else [])
    ++ (if stats then ["--stats"] else []).

(** A small [random]: its state counts the draws, and every draw is a
    function of the count. *)
#[local] Instance gen : Generator.GenLib := {|
  Generator.rng := nat;
  Generator.random_choice l r :=
    (match l !! (r `mod` length l)%nat with
     | Some x => Ok x
     | None => Raise (Exn IndexError "Cannot choose from an empty sequence")
     end, S r);
  Generator.random_uniform a b r := (binary_normalize prec64 emax64 a 0 false, S r);
  Generator.random_random r :=
    (Generator.float_ratio (Z.of_nat (r `mod` 10)%nat) 10, S r);
  Generator.random_randint a b r :=
    (if (a <=? b)%Z then Ok (a + Z.of_nat r `mod` (b - a + 1))%Z
     else Raise (Exn ValueError "empty range for randrange()"), S r);
  Generator.random_sample l k r :=
    (if ((0 <=? k) && (k <=? Z.of_nat (length l)))%Z then Ok (take (Z.to_nat k) l)
     else Raise (Exn ValueError "Sample larger than population or is negative"), S r);
  Generator.random_seed n _ := Z.to_nat n;
  Generator.round_2 x := x;
  Generator.uuid4_hex r :=
    (String.substring (r `mod` 16) 1 "0123456789abcdef"
       +:+ "123456789abcdef0123456789abcdef", S r);
  Generator.isoformat t := pretty t;
  Generator.timedelta_hours us := Z.quot us 3600000000
|}.

(** The library reading the dates the small generator renders, which are
    numbers of microseconds. *)
#[local] Instance lib_iso : PyLib := {|
  uuid4_str := uuid4_str (PyLib:=lib);
  utc_now := utc_now (PyLib:=lib);
  float_of_str := float_of_str (PyLib:=lib);
  repr_str := repr_str (PyLib:=lib);
  path_str := path_str (PyLib:=lib);
  to_datetime v :=
    match v with
    | VStr s =>
        match digits_value s 0 with
        | Some us => Ok (VTimestamp (1000 * us))
        | None => to_datetime_sample v
        end
    | _ => to_datetime_sample v
    end;
  str_of := str_of (PyLib:=lib);
  format_2f := format_2f (PyLib:=lib);
  isoformat_ms := isoformat_ms (PyLib:=lib);
  path_exists := path_exists (PyLib:=lib);
  path_suffix_lower := path_suffix_lower (PyLib:=lib);
  read_records := read_records (PyLib:=lib);
  yaml_safe_load := yaml_safe_load (PyLib:=lib);
  getenv := getenv (PyLib:=lib);
  commit_summary := commit_summary (PyLib:=lib)
|}.

(** A generator of the organisation "acme" with two users and no session
    yet. *)
Definition generator_0 : Generator.generator :=
  Generator.Generator "acme" ["user_1a2b3c4d"; "user_5e6f7a8b"] [] 0.

(** Noon of 2024-01-15 and of the day after, in microseconds. *)
Definition noon : Z := 1705320000000000.
Definition next_noon : Z := 1705406400000000.

(** The first event of the small generator, and the empty event should it
    make none. *)
Definition event_0 : dict :=
  match (Generator.generate_event noon generator_0).1 with
  | Ok event => event
  | Raise _ => ∅
  end.

End Sample.

(** * Properties *)

(** ** Stores, dictionaries and sequencing *)

Lemma upd_eq l d h : upd l d h l = d.
Proof. unfold upd. by rewrite decide_True. Qed.
Lemma upd_ne l l' d h : l' ≠ l → upd l d h l' = h l'.
Proof. intros. unfold upd. by rewrite decide_False. Qed.

Lemma lookup_setdefault_eq k v (d : dict) :
  setdefault k v d !! k = Some (default v (d !! k)).
Proof.
  unfold setdefault. destruct (d !! k) eqn:E; simpl.
  - by rewrite E.
  - by rewrite lookup_insert_eq.
Qed.
Lemma lookup_setdefault_ne k k' v (d : dict) :
  k ≠ k' → setdefault k v d !! k' = d !! k'.
Proof.
  intros. unfold setdefault. destruct (d !! k); [done|].
  by rewrite lookup_insert_ne.
Qed.

Lemma bind_ok {A B} (m : M A) (k : A → M B) w a w1 :
  m w = (Ok a, w1) → bind m k w = k a w1.
Proof. unfold bind. by intros ->. Qed.
Lemma bind_raise {A B} (m : M A) (k : A → M B) w e w1 :
  m w = (Raise e, w1) → bind m k w = (Raise e, w1).
Proof. unfold bind. by intros ->. Qed.

Lemma event_post_init l w : event_post l w (w_heap w l) (w_draws w) (w_ticks w) w.
Proof. by repeat split. Qed.

Section Post.
Context (l : nat) (w : world) (d : dict) (n t : nat) (w1 : world).
Hypothesis Hp : event_post l w d n t w1.

Lemma set_item_post k v :
  ∃ w2, set_item l k v w1 = (Ok tt, w2) ∧ event_post l w (<[k := v]> d) n t w2.
Proof.
  destruct Hp as (Hd & Hf & Hn & Ht & Hx & Htb & Hfl & Hc).
  eexists; split; [reflexivity|].
  repeat split; cbn; auto.
  - by rewrite upd_eq, Hd.
  - intros l' ?. rewrite upd_ne by done. auto.
Qed.

Lemma set_default_post k v :
  ∃ w2, set_default l k v w1 = (Ok tt, w2) ∧ event_post l w (setdefault k v d) n t w2.
Proof.
  destruct Hp as (Hd & Hf & Hn & Ht & Hx & Htb & Hfl & Hc).
  eexists; split; [reflexivity|].
  repeat split; cbn; auto.
  - by rewrite upd_eq, Hd.
  - intros l' ?. rewrite upd_ne by done. auto.
Qed.

Lemma read_dict_post : read_dict l w1 = (Ok d, w1).
Proof. destruct Hp as (Hd & _). unfold read_dict. by rewrite Hd. Qed.

Lemma get_item_post k : get_item l k w1 = (getitem k d, w1).
Proof. destruct Hp as (Hd & _). unfold get_item. by rewrite Hd. Qed.

Lemma fresh_uuid_post `{PyLib} :
  ∃ w2, fresh_uuid w1 = (Ok (VStr (uuid4_str n)), w2) ∧ event_post l w d (S n) t w2.
Proof.
  destruct Hp as (Hd & Hf & Hn & Ht & Hx & Htb & Hfl & Hc). eexists; split.
  - unfold fresh_uuid. by rewrite Hn.
  - repeat split; cbn; auto.
Qed.

Lemma now_utc_post `{PyLib} :
  ∃ w2, now_utc w1 = (Ok (VTimestamp (utc_now t)), w2) ∧ event_post l w d n (S t) w2.
Proof.
  destruct Hp as (Hd & Hf & Hn & Ht & Hx & Htb & Hfl & Hc). eexists; split.
  - unfold now_utc. by rewrite Ht.
  - repeat split; cbn; auto.
Qed.
End Post.

Ltac not_default :=
  unfold default_keys; rewrite !not_elem_of_cons;
  repeat split; try done; apply not_elem_of_nil.

Lemma bind_lift_ok {A B} (a : A) (k : A → M B) w : bind (lift (Ok a)) k w = k a w.
Proof. done. Qed.
Lemma bind_lift_raise {A B} e (k : A → M B) w : bind (lift (Raise e)) k w = (Raise e, w).
Proof. done. Qed.
Lemma bind_ret {A B} (a : A) (k : A → M B) w : bind (ret a) k w = k a w.
Proof. done. Qed.

(** One step of a block: run the primitive [lem] speaks of and keep what it
    leaves behind. *)
Ltac step lem :=
  match goal with
  | Hp : event_post _ _ _ _ _ ?w1 |- _ =>
      let w2 := fresh "w" in
      let E := fresh "E" in
      let Hp2 := fresh "Hp" in
      edestruct (lem _ _ _ _ _ _ Hp) as (w2 & E & Hp2);
      rewrite (bind_ok _ _ _ _ _ E); clear E Hp; cbv beta
  end.

Ltac step_read :=
  match goal with
  | Hp : event_post _ _ _ _ _ ?w1 |- _ =>
      rewrite (bind_ok _ _ _ _ _ (read_dict_post _ _ _ _ _ _ Hp)); cbv beta
  end.

(** *** The blocks of the loop body *)

Section Blocks.
Context `{PyLib}.
Context (l : nat) (w : world) (d : dict) (n t : nat) (w1 : world).
Hypothesis Hp : event_post l w d n t w1.

Lemma ensure_id_post :
  ∃ w2, ensure_id l w1 = (Ok tt, w2) ∧
        event_post l w (with_id d n) (draws_after_id d n) t w2.
Proof.
  unfold ensure_id. step_read. unfold with_id, draws_after_id.
  destruct (negb _).
  - step fresh_uuid_post. by apply set_item_post.
  - by exists w1.
Qed.

Lemma normalize_timestamp_post :
  ∃ w2, normalize_timestamp l w1 =
          (match timestamp_value d t with Ok _ => Ok tt | Raise e => Raise e end, w2) ∧
        event_post l w
          (match timestamp_value d t with
           | Ok tv => <["timestamp" := tv]> d
           | Raise _ => d
           end) n (ticks_after d t) w2.
Proof.
  assert (∀ ts, d !! "timestamp" = Some ts →
    ∃ w2, (tv <- lift (to_datetime ts) ;; set_item l "timestamp" tv) w1 =
            (match to_datetime ts with Ok _ => Ok tt | Raise e => Raise e end, w2) ∧
          event_post l w
            (match to_datetime ts with
             | Ok tv => <["timestamp" := tv]> d
             | Raise _ => d
             end) n t w2) as Hconv.
  { intros ts Hts. destruct (to_datetime ts) as [tv|e].
    - rewrite bind_lift_ok. by apply set_item_post.
    - rewrite bind_lift_raise. eauto. }
  unfold normalize_timestamp. step_read. unfold timestamp_value, ticks_after.
  destruct (d !! "timestamp") as [ts|] eqn:Ets.
  - destruct (is_str ts); [by apply Hconv|].
    destruct (is_timestamp ts); cbn [negb]; [|by apply Hconv].
    exists w1. split; [done|]. by rewrite insert_id.
  - step now_utc_post. by apply set_item_post.
Qed.

Lemma set_defaults_post :
  ∃ w2, set_defaults l w1 = (Ok tt, w2) ∧
        event_post l w (with_defaults d n) (S (S n)) t w2.
Proof.
  unfold set_defaults.
  step fresh_uuid_post. do 5 step set_default_post. step fresh_uuid_post.
  by apply set_default_post.
Qed.

Lemma coerce_event_value_post v :
  d !! "event_value" = Some v →
  ∃ w2, coerce_event_value l w1 =
          (match py_float v with Ok _ => Ok tt | Raise e => Raise e end, w2) ∧
        event_post l w
          (match py_float v with
           | Ok x => <["event_value" := VFloat x]> d
           | Raise _ => d
           end) n t w2.
Proof.
  intros Hv. unfold coerce_event_value.
  rewrite (bind_ok _ _ _ v w1)
    by (rewrite (get_item_post _ _ _ _ _ _ Hp); unfold getitem; by rewrite Hv).
  destruct (py_float v) as [x|e].
  - rewrite bind_lift_ok. by apply set_item_post.
  - rewrite bind_lift_raise. eauto.
Qed.

End Blocks.

Section Validation.
Context `{PyLib}.

Lemma with_id_lookup_ne d n k : k ≠ "id" → with_id d n !! k = d !! k.
Proof. intros. unfold with_id. case_match; [|done]. by rewrite lookup_insert_ne. Qed.

Lemma with_defaults_event_value d n :
  with_defaults d n !! "event_value" = Some (event_value_in d).
Proof.
  unfold with_defaults, event_value_in.
  do 3 (rewrite lookup_setdefault_ne by done).
  rewrite lookup_setdefault_eq.
  by do 2 (rewrite lookup_setdefault_ne by done).
Qed.

(** The loop body on the object [l]: its outcome and what it leaves, in
    closed form. *)
Lemma validate_event_spec l org w :
  ∃ w', validate_event l org w = (validated_outcome (w_heap w l) (w_ticks w), w') ∧
        event_post l w (validated_dict org (w_heap w l) (w_draws w) (w_ticks w))
          (validated_draws (w_heap w l) (w_draws w) (w_ticks w))
          (ticks_after (w_heap w l) (w_ticks w)) w'.
Proof.
  pose proof (event_post_init l w) as Hp.
  set (d := w_heap w l) in *. set (n := w_draws w) in *. set (t := w_ticks w) in *.
  unfold validate_event, validated_outcome, validated_dict, validated_draws.
  step ensure_id_post. step set_item_post.
  set (d1 := <["organization_id" := VStr org]> (with_id d n)) in *.
  assert (d1 !! "timestamp" = d !! "timestamp") as Hts.
  { unfold d1. rewrite lookup_insert_ne by done. by apply with_id_lookup_ne. }
  assert (timestamp_value d1 t = timestamp_value d t) as Htv.
  { unfold timestamp_value. by rewrite Hts. }
  assert (ticks_after d1 t = ticks_after d t) as Hta.
  { unfold ticks_after. by rewrite Hts. }
  match goal with Hq : event_post _ _ d1 _ _ _ |- _ =>
    destruct (normalize_timestamp_post _ _ _ _ _ _ Hq) as (w2 & E2 & Hp2); clear Hq
  end.
  rewrite Htv, Hta in *.
  destruct (timestamp_value d t) as [tv|e].
  2:{ rewrite (bind_raise _ _ _ _ _ E2). eauto. }
  rewrite (bind_ok _ _ _ _ _ E2). clear E2.
  step set_defaults_post.
  match goal with Hq : event_post _ _ (with_defaults _ _) _ _ _ |- _ =>
    apply (coerce_event_value_post _ _ _ _ _ _ Hq (event_value_in d))
  end.
  rewrite with_defaults_event_value. unfold event_value_in, d1.
  do 2 (rewrite lookup_insert_ne by done). by rewrite with_id_lookup_ne.
Qed.

(** *** Lookups in the validated dictionary *)

Lemma with_id_lookup_id d n :
  with_id d n !! "id" =
    if truthy (dict_get "id" d) then d !! "id" else Some (VStr (uuid4_str n)).
Proof.
  unfold with_id. destruct (truthy _); cbn [negb]; [done|].
  by rewrite lookup_insert_eq.
Qed.

Lemma truthy_get_is_Some d k : truthy (dict_get k d) = true → is_Some (d !! k).
Proof. unfold dict_get. destruct (d !! k); [eauto|done]. Qed.

Lemma timestamp_value_ticks d t t' :
  is_ok (timestamp_value d t) = is_ok (timestamp_value d t').
Proof. unfold timestamp_value. by destruct (d !! "timestamp"). Qed.

Lemma with_defaults_lookup_ne d n k :
  k ∉ default_keys → with_defaults d n !! k = d !! k.
Proof.
  intros Hk. unfold with_defaults.
  unfold default_keys in Hk. rewrite !not_elem_of_cons in Hk.
  destruct Hk as (? & ? & ? & ? & ? & ? & _).
  by repeat (rewrite lookup_setdefault_ne by done).
Qed.

Lemma with_defaults_event_id d n :
  with_defaults d n !! "event_id" = Some (default (VStr (uuid4_str n)) (d !! "event_id")).
Proof.
  unfold with_defaults. do 5 (rewrite lookup_setdefault_ne by done).
  by rewrite lookup_setdefault_eq.
Qed.
Lemma with_defaults_event_type d n :
  with_defaults d n !! "event_type" = Some (default (VStr "conversion") (d !! "event_type")).
Proof.
  unfold with_defaults. do 4 (rewrite lookup_setdefault_ne by done).
  rewrite lookup_setdefault_eq. by rewrite lookup_setdefault_ne by done.
Qed.
Lemma with_defaults_currency d n :
  with_defaults d n !! "currency" = Some (default (VStr "USD") (d !! "currency")).
Proof.
  unfold with_defaults. do 2 (rewrite lookup_setdefault_ne by done).
  rewrite lookup_setdefault_eq. by do 3 (rewrite lookup_setdefault_ne by done).
Qed.
Lemma with_defaults_user_id d n :
  with_defaults d n !! "user_id" = Some (default (VStr "unknown") (d !! "user_id")).
Proof.
  unfold with_defaults. rewrite lookup_setdefault_ne by done.
  rewrite lookup_setdefault_eq. by do 4 (rewrite lookup_setdefault_ne by done).
Qed.
Lemma with_defaults_session_id d n :
  with_defaults d n !! "session_id" =
    Some (default (VStr (uuid4_str (S n))) (d !! "session_id")).
Proof.
  unfold with_defaults. rewrite lookup_setdefault_eq.
  by do 5 (rewrite lookup_setdefault_ne by done).
Qed.

(** The record a successful pass leaves, key by key. *)
Lemma validated_dict_ok org d n t tv x :
  timestamp_value d t = Ok tv → py_float (event_value_in d) = Ok x →
  validated_dict org d n t =
    <["event_value" := VFloat x]>
      (with_defaults (<["timestamp" := tv]> (<["organization_id" := VStr org]> (with_id d n)))
         (draws_after_id d n)).
Proof. intros Ht Hx. unfold validated_dict. by rewrite Ht, Hx. Qed.

Lemma validated_outcome_ok d t :
  validated_outcome d t = Ok tt →
  ∃ tv x, timestamp_value d t = Ok tv ∧ py_float (event_value_in d) = Ok x.
Proof.
  unfold validated_outcome. destruct (timestamp_value d t); [|done].
  destruct (py_float _); [eauto|done].
Qed.

Lemma validated_outcome_cases d t :
  validated_outcome d t = Ok tt ∨ ∃ e, validated_outcome d t = Raise e.
Proof. destruct (validated_outcome d t) as [[]|e]; eauto. Qed.

Lemma validated_dict_organization_id org d n t :
  validated_dict org d n t !! "organization_id" = Some (VStr org).
Proof.
  unfold validated_dict. destruct (timestamp_value d t).
  - destruct (py_float _).
    + rewrite lookup_insert_ne by done.
      rewrite with_defaults_lookup_ne by not_default.
      rewrite lookup_insert_ne by done. by rewrite lookup_insert_eq.
    + rewrite with_defaults_lookup_ne by not_default.
      rewrite lookup_insert_ne by done. by rewrite lookup_insert_eq.
  - by rewrite lookup_insert_eq.
Qed.

Lemma validated_dict_normalized org d n t :
  validated_outcome d t = Ok tt → normalized org (validated_dict org d n t).
Proof.
  intros Hok. split; [apply validated_dict_organization_id|].
  destruct (validated_outcome_ok _ _ Hok) as (tv & x & Ht & Hx).
  rewrite (validated_dict_ok _ _ _ _ _ _ Ht Hx).
  split; [|exists x; by rewrite lookup_insert_eq].
  intros k Hk. unfold required_columns in Hk.
  destruct (decide (k = "event_value")) as [->|Hne].
  { rewrite lookup_insert_eq. eauto. }
  rewrite lookup_insert_ne by done.
  repeat (apply elem_of_cons in Hk as [->|Hk]).
  - rewrite with_defaults_lookup_ne by not_default.
    do 2 (rewrite lookup_insert_ne by done).
    rewrite with_id_lookup_id. destruct (truthy _) eqn:E; [|eauto].
    by apply truthy_get_is_Some.
  - rewrite with_defaults_lookup_ne by not_default.
    rewrite lookup_insert_ne by done. rewrite lookup_insert_eq. eauto.
  - rewrite with_defaults_event_id. eauto.
  - rewrite with_defaults_lookup_ne by not_default.
    rewrite lookup_insert_eq. eauto.
  - rewrite with_defaults_event_type. eauto.
  - done.
  - rewrite with_defaults_currency. eauto.
  - rewrite with_defaults_user_id. eauto.
  - rewrite with_defaults_session_id. eauto.
  - by apply elem_of_nil in Hk.
Qed.

(** *** The loop *)

(** Whatever its outcome, the loop leaves the objects outside [events], the
    allocator and the catalog as they were. *)
Lemma validate_loop_frame events org acc w r w' :
  validate_loop events org acc w = (r, w') →
  (∀ l, l ∉ events → w_heap w' l = w_heap w l) ∧
  w_next w' = w_next w ∧ catalog_untouched w w'.
Proof.
  revert acc w. induction events as [|l rest IH]; intros acc w Hrun.
  - inversion Hrun; subst. by repeat split.
  - cbn [validate_loop] in Hrun.
    destruct (validate_event_spec l org w) as (w1 & E & Hp).
    destruct Hp as (Hd & Hf & Hn & Ht & Hx & Htb & Hfl & Hc).
    destruct (validated_outcome_cases (w_heap w l) (w_ticks w)) as [Hok|[e He]].
    + rewrite Hok in E. rewrite (bind_ok _ _ _ _ _ E) in Hrun.
      apply IH in Hrun as (Hh & Hnx & Htb' & Hc' & Hfl').
      repeat split; try congruence.
      intros l' Hl'. apply not_elem_of_cons in Hl' as [? ?].
      rewrite Hh by done. by apply Hf.
    + rewrite He in E. rewrite (bind_raise _ _ _ _ _ E) in Hrun.
      inversion Hrun; subst. repeat split; try done.
      intros l' Hl'. apply not_elem_of_cons in Hl' as [? ?]. by apply Hf.
Qed.

(** A successful run returns the records it was given, in order, each
    normalised in place. *)
Lemma validate_loop_ok events org acc w out w' :
  validate_loop events org acc w = (Ok out, w') →
  out = acc ++ events ∧ ∀ l, l ∈ events → normalized org (w_heap w' l).
Proof.
  revert acc w. induction events as [|l rest IH]; intros acc w Hrun.
  - inversion Hrun; subst. split; [by rewrite app_nil_r|]. by intros l ?%elem_of_nil.
  - pose proof Hrun as Hrun0. cbn [validate_loop] in Hrun.
    destruct (validate_event_spec l org w) as (w1 & E & Hp).
    destruct (validated_outcome_cases (w_heap w l) (w_ticks w)) as [Hok|[e He]].
    + rewrite Hok in E. rewrite (bind_ok _ _ _ _ _ E) in Hrun.
      pose proof (validate_loop_frame _ _ _ _ _ _ Hrun) as (Hh & _).
      apply IH in Hrun as (-> & Hnorm).
      split; [by rewrite <- app_assoc|].
      intros l' Hl'. destruct (decide (l' ∈ rest)) as [?|Hnot]; [by apply Hnorm|].
      apply elem_of_cons in Hl' as [->|?]; [|done].
      rewrite Hh by done. destruct Hp as (-> & _).
      by apply validated_dict_normalized.
    + rewrite He in E. by rewrite (bind_raise _ _ _ _ _ E) in Hrun.
Qed.

(** A record whose event value [float] refuses stops the loop. *)
Lemma validate_loop_unconvertible events org acc w l :
  l ∈ events → convertible (w_heap w l) = false →
  ∃ e w', validate_loop events org acc w = (Raise e, w').
Proof.
  revert acc w. induction events as [|l0 rest IH]; intros acc w Hl Hbad.
  - by apply elem_of_nil in Hl.
  - cbn [validate_loop].
    destruct (validate_event_spec l0 org w) as (w1 & E & Hp).
    destruct (validated_outcome_cases (w_heap w l0) (w_ticks w)) as [Hok|[e He]].
    + rewrite Hok in E. rewrite (bind_ok _ _ _ _ _ E).
      destruct (validated_outcome_ok _ _ Hok) as (tv & x & _ & Hx).
      destruct (decide (l = l0)) as [->|Hne].
      { unfold convertible in Hbad. by rewrite Hx in Hbad. }
      apply IH.
      * by apply elem_of_cons in Hl as [?|?].
      * destruct Hp as (_ & Hf & _). by rewrite Hf.
    + rewrite He in E. rewrite (bind_raise _ _ _ _ _ E). eauto.
Qed.

(** Distinct records that each pass the timestamp block and the coercion
    pass together. *)
Lemma validate_loop_succeeds events org acc w :
  NoDup events →
  (∀ l, l ∈ events → convertible (w_heap w l) = true ∧ timestamp_ok (w_heap w l) = true) →
  ∃ w', validate_loop events org acc w = (Ok (acc ++ events), w').
Proof.
  revert acc w. induction events as [|l rest IH]; intros acc w Hnd Hall.
  - exists w. cbn. by rewrite app_nil_r.
  - cbn [validate_loop]. apply NoDup_cons in Hnd as [Hl Hnd].
    destruct (validate_event_spec l org w) as (w1 & E & Hp).
    destruct (Hall l) as [Hc Ht]; [by left|].
    assert (validated_outcome (w_heap w l) (w_ticks w) = Ok tt) as Hok.
    { unfold validated_outcome. unfold timestamp_ok in Ht.
      rewrite (timestamp_value_ticks _ _ (w_ticks w)) in Ht.
      destruct (timestamp_value _ _); [|done].
      unfold convertible in Hc. by destruct (py_float _). }
    rewrite Hok in E. rewrite (bind_ok _ _ _ _ _ E).
    destruct (IH (acc ++ [l]) w1 Hnd) as (w' & Hrun).
    + intros l' Hl'. destruct Hp as (_ & Hf & _).
      rewrite Hf by (by intros ->). apply Hall. by right.
    + exists w'. by rewrite Hrun, <- app_assoc.
Qed.

End Validation.

(** ** Batches *)

Section Batching.
Context (rows : list row) (batch_size : Z).
Hypothesis Hsize : (1 ≤ batch_size)%Z.

Let total := Z.of_nat (length rows).
Let b := Z.to_nat batch_size.


Lemma py_range_batches :
  py_range 0 total batch_size =
    map (fun k => (Z.of_nat k * batch_size)%Z) (seq 0 (num_batches rows batch_size)).
Proof.
  unfold py_range, num_batches. fold total.
  assert ((0 <? batch_size)%Z = true) as -> by lia.
  destruct (0 <? total)%Z eqn:E.
  - by rewrite Z.sub_0_r.
  - assert (total = 0)%Z as -> by (unfold total in *; lia).
    rewrite Z.add_0_l, Z.div_small by lia. done.
Qed.

Lemma batch_at_take_drop k :
  batch_at rows batch_size (Z.of_nat k * batch_size) = take b (drop (k * b) rows).
Proof.
  unfold batch_at, slice. fold total.
  assert (Z.to_nat (Z.of_nat k * batch_size) = k * b) as -> by (unfold b; nia).
  destruct (decide (Z.of_nat k * batch_size + batch_size ≤ total)%Z).
  - rewrite Z.min_l by done. f_equal. unfold b. lia.
  - rewrite Z.min_r by lia.
    rewrite !take_ge; [done| |]; rewrite length_drop; unfold total, b in *; lia.
Qed.


Lemma batches_eq :
  batches rows batch_size =
    map (fun k => take b (drop (k * b) rows)) (seq 0 (num_batches rows batch_size)).
Proof.
  unfold batches. fold total. rewrite py_range_batches, map_map.
  apply map_ext. intros k. apply batch_at_take_drop.
Qed.




End Batching.

(** The scenario of 25000 rows in batches of 10000: three batches, of
    10000, 10000 and 5000 rows. *)
Lemma batches_25000 (rows : list row) :
  Z.of_nat (length rows) = 25000%Z →
  map (fun batch => Z.of_nat (length batch)) (batches rows 10000)
    = [10000; 10000; 5000]%Z.
Proof.
  intros Hlen. rewrite batches_eq by lia.
  assert (num_batches rows 10000 = 3) as ->.
  { unfold num_batches. by rewrite Hlen. }
  cbn [seq map]. rewrite !length_take, !length_drop.
  repeat f_equal; lia.
Qed.

Example py_range_5_2 : py_range 0 5 2 = [0; 2; 4]%Z.
Proof. reflexivity. Qed.

Example py_range_empty : py_range 0 0 10000 = [].
Proof. reflexivity. Qed.

Example py_range_negative_step : py_range 0 5 (-2) = [].
Proof. reflexivity. Qed.

Example batches_5_2 (a b c d e : row) :
  batches [a; b; c; d; e] 2 = [[a; b]; [c; d]; [e]].
Proof. reflexivity. Qed.

Example truthy_empty_string : truthy (VStr "") = false.
Proof. reflexivity. Qed.

Example truthy_nan : truthy (VFloat S754_nan) = true.
Proof. reflexivity. Qed.

Example float_of_int_one : float_of_int 1 = Ok float_one.
Proof. reflexivity. Qed.

Example float_of_int_overflow : is_ok (float_of_int (2 ^ 1024)) = false.
Proof. vm_compute. reflexivity. Qed.

Example float_of_int_largest : is_ok (float_of_int (2 ^ 1024 - 2 ^ 971)) = true.
Proof. vm_compute. reflexivity. Qed.

(** ** Allocation *)

Lemma alloc_all_spec ds w :
  ∃ w', alloc_all ds w = (Ok (seq (w_next w) (length ds)), w') ∧
        w_next w' = w_next w + length ds ∧
        (∀ i d, ds !! i = Some d → w_heap w' (w_next w + i) = d) ∧
        (∀ l, l < w_next w → w_heap w' l = w_heap w l) ∧
        w_draws w' = w_draws w ∧ w_ticks w' = w_ticks w ∧
        catalog_untouched w w'.
Proof.
  revert w. induction ds as [|d ds IH]; intros w.
  - exists w. cbn. repeat split; try done; lia.
  - cbn [alloc_all length seq].
    set (w1 := set_next (S (w_next w)) (set_heap (upd (w_next w) d (w_heap w)) w)).
    assert (alloc d w = (Ok (w_next w), w1)) as E by done.
    rewrite (bind_ok _ _ _ _ _ E).
    destruct (IH w1) as (w' & E' & Hn & Hnew & Hold & Hd & Ht & Htb & Hc & Hf).
    rewrite (bind_ok _ _ _ _ _ E'). exists w'. split; [done|].
    cbn [w1 w_next set_next] in *.
    repeat split; try done; try lia.
    + intros [|i] d' Hi; cbn in Hi.
      * inversion Hi; subst. rewrite Nat.add_0_r, Hold by lia.
        cbn. by rewrite upd_eq.
      * rewrite <- Nat.add_succ_comm. by apply Hnew.
    + intros l Hl. rewrite Hold by lia. cbn. rewrite upd_ne by lia. done.
Qed.

(** ** The catalog *)

Section Catalog.
Context `{PyLib}.

Lemma load_table_run identifier w :
  w_faults w = [] →
  load_table identifier w =
    (match w_tables w !! identifier with
     | Some metadata => Ok (Table identifier metadata)
     | None => Raise (Exn NoSuchTableError identifier)
     end,
     set_calls (w_calls w ++ [LoadTable identifier]) w).
Proof.
  intros Hf. unfold load_table, bind, log_call, next_fault, set_calls. simpl.
  rewrite Hf. simpl. by destruct (w_tables w !! identifier).
Qed.

Lemma create_table_run identifier schema spec props w :
  w_faults w = [] → w_tables w !! identifier = None →
  create_table identifier schema spec props w =
    (Ok (Table identifier (TableMetadata schema spec props [])),
     set_tables (<[identifier := TableMetadata schema spec props []]> (w_tables w))
       (set_calls (w_calls w ++ [CreateTable identifier]) w)).
Proof.
  intros Hf Hnone.
  unfold create_table, bind, log_call, next_fault, set_calls, set_tables. simpl.
  rewrite Hf. simpl. by rewrite Hnone.
Qed.

(** Provisioning follows the outcome of the load. *)
Lemma create_or_get_table_load config identifier w :
  table_identifier config = Ok identifier →
  create_or_get_table config w =
    match load_table identifier w with
    | (Ok t, w1) => (Ok t, w1)
    | (Raise _, w1) =>
        create_table identifier _get_event_schema _get_partition_spec
          table_properties w1
    end.
Proof. intros Hid. unfold create_or_get_table. rewrite Hid. done. Qed.

(** Without injected failures provisioning succeeds: it loads the table
    when the catalog has it and creates it otherwise. *)
Lemma create_or_get_table_run config identifier w :
  table_identifier config = Ok identifier → w_faults w = [] →
  ∃ t w', create_or_get_table config w = (Ok t, w') ∧
          t_identifier t = identifier ∧
          w_tables w' !! identifier = Some (t_metadata t) ∧
          w_faults w' = [] ∧ store_untouched w w' ∧
          match w_tables w !! identifier with
          | Some metadata =>
              t_metadata t = metadata ∧ w_tables w' = w_tables w ∧
              w_calls w' = w_calls w ++ [LoadTable identifier]
          | None =>
              t_metadata t =
                TableMetadata _get_event_schema _get_partition_spec table_properties [] ∧
              w_tables w' = <[identifier := t_metadata t]> (w_tables w) ∧
              w_calls w' = w_calls w ++ [LoadTable identifier; CreateTable identifier]
          end.
Proof.
  intros Hid Hf. rewrite (create_or_get_table_load _ _ _ Hid).
  rewrite load_table_run by done.
  destruct (w_tables w !! identifier) as [metadata|] eqn:E.
  - eexists _, _. split; [done|]. cbn. by repeat split.
  - rewrite create_table_run by done.
    eexists _, _. split; [done|]. cbn.
    rewrite lookup_insert_eq, <- app_assoc. by repeat split.
Qed.


End Catalog.

(** ** Records of a batch *)

Section Records.
Context `{PyLib}.

Lemma validate_loop_app pre post org acc w out w' :
  validate_loop (pre ++ post) org acc w = (Ok out, w') →
  ∃ w1, validate_loop pre org acc w = (Ok (acc ++ pre), w1) ∧
        validate_loop post org (acc ++ pre) w1 = (Ok out, w').
Proof.
  revert acc w. induction pre as [|l pre IH]; intros acc w Hrun.
  - exists w. cbn. rewrite app_nil_r. by split.
  - cbn [app validate_loop] in *.
    destruct (validate_event l org w) as [[[]|e] w0] eqn:E.
    + rewrite (bind_ok _ _ _ _ _ E) in Hrun. rewrite (bind_ok _ _ _ _ _ E).
      apply IH in Hrun as (w1 & H1 & H2). rewrite <- app_assoc in H1, H2.
      by exists w1.
    + by rewrite (bind_raise _ _ _ _ _ E) in Hrun.
Qed.

(** In a successful run over distinct records, every record ends as the
    closed form says, for the counters at the moment the loop reached it. *)
Lemma validate_loop_record events org acc w out w' l :
  validate_loop events org acc w = (Ok out, w') → NoDup events → l ∈ events →
  ∃ n t, validated_outcome (w_heap w l) t = Ok tt ∧
         w_heap w' l = validated_dict org (w_heap w l) n t.
Proof.
  intros Hrun Hnd Hl.
  apply list_elem_of_split in Hl as (pre & post & ->).
  apply NoDup_app in Hnd as (_ & Hpre & Hpost).
  apply NoDup_cons in Hpost as [Hpost _].
  apply validate_loop_app in Hrun as (w1 & H1 & H2).
  apply validate_loop_frame in H1 as (Hh1 & _).
  cbn [validate_loop] in H2.
  destruct (validate_event_spec l org w1) as (w2 & E & Hp).
  destruct (validated_outcome_cases (w_heap w1 l) (w_ticks w1)) as [Hok|[e He]].
  - rewrite Hok in E. rewrite (bind_ok _ _ _ _ _ E) in H2.
    apply validate_loop_frame in H2 as (Hh2 & _).
    exists (w_draws w1), (w_ticks w1).
    rewrite Hh2 by done. destruct Hp as (-> & _).
    rewrite Hh1 in * by (intros ?; eapply Hpre; [done|by left]). done.
  - rewrite He in E. by rewrite (bind_raise _ _ _ _ _ E) in H2.
Qed.


End Records.

(** * The claims *)

Section ValidationClaims.
Context `{PyLib}.

(** C2. For every input list and every caller-supplied organisation id,
    each record that [validate_events] returns carries that organisation id
    in its [organization_id] field, whatever the field held before. *)
Theorem validate_events_organization_id events org w out w' :
  validate_events events org w = (Ok out, w') →
  ∀ l, l ∈ out → w_heap w' l !! "organization_id" = Some (VStr org).
Proof.
  unfold validate_events. intros Hrun l Hl.
  apply validate_loop_ok in Hrun as (-> & Hnorm).
  destruct (Hnorm l Hl) as (Horg & _). exact Horg.
Qed.

(** C10. [validate_events] works in place: the list it returns is the list
    of the very record objects it was given, in the same order; it creates
    no object; the caller's records are the ones normalised, and no other
    object changes. *)
Theorem validate_events_in_place events org w out w' :
  validate_events events org w = (Ok out, w') →
  out = events ∧ w_next w' = w_next w ∧
  (∀ l, l ∈ events → normalized org (w_heap w' l)) ∧
  (∀ l, l ∉ events → w_heap w' l = w_heap w l).
Proof.
  unfold validate_events. intros Hrun.
  destruct (validate_loop_frame _ _ _ _ _ _ Hrun) as (Hh & Hn & _).
  apply validate_loop_ok in Hrun as (-> & Hnorm).
  split; [reflexivity|]. split; [exact Hn|]. split; [exact Hnorm|exact Hh].
Qed.

(** C3, amended. In a successful run over distinct records, for every
    record: [id] is kept when present and truthy and is otherwise (absent,
    or [None], empty, zero, false) replaced by a generated uuid;
    [event_id], [event_type], [currency], [user_id] and [session_id] keep
    the value they have and get their default (generated uuid,
    "conversion", "USD", "unknown", generated uuid) exactly when the key is
    absent; [event_value] gets the default 0.0 exactly when absent and is
    then coerced to a double. *)
Theorem validate_events_defaults events org w out w' l :
  validate_events events org w = (Ok out, w') → NoDup events → l ∈ events →
  let d := w_heap w l in
  let d' := w_heap w' l in
  ∃ n,
    d' !! "id" =
      (if truthy (dict_get "id" d) then d !! "id" else Some (VStr (uuid4_str n))) ∧
    d' !! "event_id" =
      Some (default (VStr (uuid4_str (draws_after_id d n))) (d !! "event_id")) ∧
    d' !! "event_type" = Some (default (VStr "conversion") (d !! "event_type")) ∧
    (∃ x, py_float (default (VFloat float_zero) (d !! "event_value")) = Ok x ∧
          d' !! "event_value" = Some (VFloat x)) ∧
    d' !! "currency" = Some (default (VStr "USD") (d !! "currency")) ∧
    d' !! "user_id" = Some (default (VStr "unknown") (d !! "user_id")) ∧
    d' !! "session_id" =
      Some (default (VStr (uuid4_str (S (draws_after_id d n)))) (d !! "session_id")).
Proof.
  unfold validate_events. intros Hrun Hnd Hl. cbv zeta.
  destruct (validate_loop_record _ _ _ _ _ _ _ Hrun Hnd Hl) as (n & t & Hok & Hd).
  destruct (validated_outcome_ok _ _ Hok) as (tv & x & Ht & Hx).
  exists n. rewrite Hd, (validated_dict_ok _ _ _ _ _ _ Ht Hx).
  set (d := w_heap w l).
  split_and!.
  - rewrite lookup_insert_ne by done.
    rewrite with_defaults_lookup_ne by not_default.
    do 2 (rewrite lookup_insert_ne by done). apply with_id_lookup_id.
  - rewrite lookup_insert_ne by done. rewrite with_defaults_event_id.
    do 2 (rewrite lookup_insert_ne by done). by rewrite with_id_lookup_ne.
  - rewrite lookup_insert_ne by done. rewrite with_defaults_event_type.
    do 2 (rewrite lookup_insert_ne by done). by rewrite with_id_lookup_ne.
  - exists x. split; [done|]. by rewrite lookup_insert_eq.
  - rewrite lookup_insert_ne by done. rewrite with_defaults_currency.
    do 2 (rewrite lookup_insert_ne by done). by rewrite with_id_lookup_ne.
  - rewrite lookup_insert_ne by done. rewrite with_defaults_user_id.
    do 2 (rewrite lookup_insert_ne by done). by rewrite with_id_lookup_ne.
  - rewrite lookup_insert_ne by done. rewrite with_defaults_session_id.
    do 2 (rewrite lookup_insert_ne by done). by rewrite with_id_lookup_ne.
Qed.

(** C4, amended. A batch with a record whose [event_value] [float] cannot
    convert makes [validate_events] raise, so that no list of accepted
    records is returned; a batch of distinct records whose event values all
    convert and whose timestamps all pass the timestamp block (absent, a
    timestamp object already, or accepted by [pd.to_datetime]) validates,
    and every record's [event_value] is then the double [float] gives. *)
Theorem validate_events_event_value events org w :
  ((∃ l, l ∈ events ∧ convertible (w_heap w l) = false) →
   ∃ e w', validate_events events org w = (Raise e, w')) ∧
  (NoDup events →
   (∀ l, l ∈ events →
      convertible (w_heap w l) = true ∧ timestamp_ok (w_heap w l) = true) →
   ∃ w', validate_events events org w = (Ok events, w') ∧
         ∀ l, l ∈ events →
           ∃ x, py_float (event_value_in (w_heap w l)) = Ok x ∧
                w_heap w' l !! "event_value" = Some (VFloat x)).
Proof.
  unfold validate_events. split.
  - intros (l & Hl & Hbad). by eapply validate_loop_unconvertible.
  - intros Hnd Hall.
    destruct (validate_loop_succeeds events org [] w Hnd Hall) as (w' & Hrun).
    exists w'. split; [done|]. intros l Hl.
    destruct (validate_loop_record _ _ _ _ _ _ _ Hrun Hnd Hl) as (n & t & Hok & Hd).
    destruct (validated_outcome_ok _ _ Hok) as (tv & x & Ht & Hx).
    exists x. split; [done|].
    rewrite Hd, (validated_dict_ok _ _ _ _ _ _ Ht Hx). by rewrite lookup_insert_eq.
Qed.

End ValidationClaims.

(** A run whose outcome is known is the pair of that outcome and its final
    world. *)
Lemma run_outcome {A} (m : M A) (w : world) (r : result A) :
  (m w).1 = r → m w = (r, (m w).2).
Proof. destruct (m w). simpl. by intros ->. Qed.

(** C2, an instance: two records, one of them claiming another
    organisation. *)
Lemma validate_events_organization_id_witness :
  w_heap Sample.w2 0 !! "organization_id" = Some (VStr "someone-else") ∧
  ∀ l, l ∈ [0; 1] →
    w_heap (validate_events (H:=Sample.lib) [0; 1] "acme" Sample.w2).2 l
      !! "organization_id" = Some (VStr "acme").
Proof.
  split; [reflexivity|].
  apply (validate_events_organization_id (H:=Sample.lib) [0; 1] "acme" Sample.w2
           [0; 1] (validate_events (H:=Sample.lib) [0; 1] "acme" Sample.w2).2).
  apply run_outcome. reflexivity.
Defined.

(** C10, an instance. *)
Lemma validate_events_in_place_witness :
  let r := validate_events (H:=Sample.lib) [0; 1] "acme" Sample.w2 in
  r.1 = Ok [0; 1] ∧ w_next r.2 = 2 ∧
  (∀ l, l ∈ [0; 1] → normalized "acme" (w_heap r.2 l)) ∧
  (∀ l, l ∉ [0; 1] → w_heap r.2 l = w_heap Sample.w2 l).
Proof.
  cbv zeta.
  assert ((validate_events (H:=Sample.lib) [0; 1] "acme" Sample.w2).1 = Ok [0; 1]) as E
    by reflexivity.
  split; [exact E|].
  exact (proj2 (validate_events_in_place (H:=Sample.lib) [0; 1] "acme" Sample.w2 [0; 1] _
                  (run_outcome _ _ _ E))).
Defined.

(** C3, the claim as stated fails: a record whose [id] is present and is
    the empty string has it replaced by a generated uuid. *)
Lemma empty_id_overwritten :
  let w := Sample.world_of [Sample.r3] in
  let r := validate_events (H:=Sample.lib) [0] "acme" w in
  w_heap w 0 !! "id" = Some (VStr "") ∧
  r.1 = Ok [0] ∧
  w_heap r.2 0 !! "id" = Some (VStr "uuid-0").
Proof. cbv zeta. split_and!; reflexivity. Qed.

Lemma NoDup_two : NoDup [0; 1].
Proof.
  apply NoDup_cons. split; [|apply NoDup_singleton].
  by intros ?%list_elem_of_singleton.
Defined.

(** C3 amended, an instance: the second record has an event value and
    nothing else. *)
Lemma validate_events_defaults_witness :
  let d := w_heap Sample.w2 1 in
  let d' := w_heap (validate_events (H:=Sample.lib) [0; 1] "acme" Sample.w2).2 1 in
  ∃ n,
    d' !! "id" =
      (if truthy (dict_get "id" d) then d !! "id"
       else Some (VStr (uuid4_str (PyLib:=Sample.lib) n))) ∧
    d' !! "event_id" =
      Some (default (VStr (uuid4_str (PyLib:=Sample.lib)
                             (draws_after_id d n))) (d !! "event_id")) ∧
    d' !! "event_type" = Some (default (VStr "conversion") (d !! "event_type")) ∧
    (∃ x, py_float (H:=Sample.lib) (default (VFloat float_zero) (d !! "event_value")) = Ok x ∧
          d' !! "event_value" = Some (VFloat x)) ∧
    d' !! "currency" = Some (default (VStr "USD") (d !! "currency")) ∧
    d' !! "user_id" = Some (default (VStr "unknown") (d !! "user_id")) ∧
    d' !! "session_id" =
      Some (default (VStr (uuid4_str (PyLib:=Sample.lib)
                             (S (draws_after_id d n))))
              (d !! "session_id")).
Proof.
  apply (validate_events_defaults (H:=Sample.lib) [0; 1] "acme" Sample.w2 [0; 1]
           (validate_events (H:=Sample.lib) [0; 1] "acme" Sample.w2).2 1).
  - apply run_outcome. reflexivity.
  - exact NoDup_two.
  - apply elem_of_cons. right. apply list_elem_of_singleton. reflexivity.
Defined.

(** C4, the claim as stated fails: the only event value converts, and
    validation raises on the timestamp. *)
Lemma convertible_value_unparsed_timestamp :
  let w := Sample.world_of [Sample.r_bad_date] in
  let r := validate_events (H:=Sample.lib) [0] "acme" w in
  (∀ l, l ∈ [0] → convertible (H:=Sample.lib) (w_heap w l) = true) ∧
  r.1 = Raise (Exn ValueError "Unknown datetime string format, unable to parse: garbage").
Proof.
  cbv zeta. split.
  - intros l ->%list_elem_of_singleton. reflexivity.
  - reflexivity.
Qed.

(** C4 amended, instances of both parts. *)
Lemma validate_events_event_value_witness :
  (∃ e w', validate_events (H:=Sample.lib) [0; 1] "acme"
             (Sample.world_of [Sample.r1; Sample.r_bad_value]) = (Raise e, w')) ∧
  (∃ w', validate_events (H:=Sample.lib) [0; 1] "acme" Sample.w2 = (Ok [0; 1], w') ∧
         ∀ l, l ∈ [0; 1] →
           ∃ x, py_float (H:=Sample.lib) (event_value_in (w_heap Sample.w2 l)) = Ok x ∧
                w_heap w' l !! "event_value" = Some (VFloat x)).
Proof.
  split.
  - apply (validate_events_event_value (H:=Sample.lib)).
    exists 1. split.
    + apply elem_of_cons. right. apply list_elem_of_singleton. reflexivity.
    + reflexivity.
  - apply (validate_events_event_value (H:=Sample.lib)).
    + exact NoDup_two.
    + intros l Hl. apply elem_of_cons in Hl as [->|Hl];
        [|apply list_elem_of_singleton in Hl as ->];
        (split; reflexivity).
Defined.

(** ** Loading *)

Section BulkLoad.
Context `{PyLib}.

(** The first steps of [bulk_load] on records that validate: the records
    become the objects [w_next w], [w_next w + 1], ..., and are normalised
    there; the catalog is not involved. *)
Lemma allocate_and_validate df org w :
  all_valid df →
  let events := seq (w_next w) (length df) in
  ∃ w1 w2,
    alloc_all df w = (Ok events, w1) ∧
    validate_events events org w1 = (Ok events, w2) ∧
    catalog_untouched w w2 ∧
    (∀ l, l ∈ events → normalized org (w_heap w2 l)).
Proof.
  intros Hvalid events.
  destruct (alloc_all_spec df w) as (w1 & E1 & Hn & Hnew & Hold & _ & _ & Hc1).
  assert (∃ w2, validate_events events org w1 = (Ok events, w2)) as (w2 & E2).
  { apply (validate_loop_succeeds events org []); [apply NoDup_seq|].
    intros l Hl. apply elem_of_seq in Hl as [Hge Hlt].
    destruct (lookup_lt_is_Some_2 df (l - w_next w)) as [d Hd]; [lia|].
    replace l with (w_next w + (l - w_next w)) by lia.
    rewrite (Hnew _ _ Hd).
    unfold all_valid in Hvalid. rewrite Forall_lookup in Hvalid. by eapply Hvalid. }
  exists w1, w2. split; [done|]. split; [done|].
  unfold validate_events in E2.
  destruct (validate_loop_frame _ _ _ _ _ _ E2) as (_ & _ & Hc2).
  destruct (validate_loop_ok _ _ _ _ _ _ E2) as (_ & Hnorm).
  split; [|done].
  destruct Hc1 as (? & ? & ?), Hc2 as (? & ? & ?). unfold catalog_untouched.
  split_and!; congruence.
Qed.


(** Allocation and validation never involve the catalog. *)
Lemma dry_run_frame config input_file org fmt w r w' :
  bulk_load config input_file org fmt true w = (r, w') → catalog_untouched w w'.
Proof.
  unfold bulk_load. intros Hrun.
  destruct (load_events_from_file input_file fmt) as [df|e].
  2:{ inversion Hrun; subst. by split_and!. }
  rewrite bind_lift_ok in Hrun.
  destruct (alloc_all_spec df w) as (w1 & E1 & _ & _ & _ & _ & _ & Hc1).
  rewrite (bind_ok _ _ _ _ _ E1) in Hrun.
  destruct (validate_events (seq (w_next w) (length df)) org w1) as [[out|e] w2] eqn:E2.
  - rewrite (bind_ok _ _ _ _ _ E2) in Hrun.
    unfold validate_events in E2.
    destruct (validate_loop_frame _ _ _ _ _ _ E2) as (_ & _ & Hc2).
    assert (w' = w2) as ->.
    { destruct out as [|l out]; cbn in Hrun; by inversion Hrun. }
    destruct Hc1 as (? & ? & ?), Hc2 as (? & ? & ?). unfold catalog_untouched.
    split_and!; congruence.
  - rewrite (bind_raise _ _ _ _ _ E2) in Hrun. inversion Hrun; subst.
    unfold validate_events in E2.
    destruct (validate_loop_frame _ _ _ _ _ _ E2) as (_ & _ & Hc2).
    destruct Hc1 as (? & ? & ?), Hc2 as (? & ? & ?). unfold catalog_untouched.
    split_and!; congruence.
Qed.

(** C5, amended. A dry run never involves the catalog: whatever its
    outcome, no provisioning call and no append is issued and the tables
    are as before; and on a non-empty input of N records that validate it
    returns exactly N. *)
Theorem bulk_load_dry_run config input_file org fmt w :
  (∀ r w', bulk_load config input_file org fmt true w = (r, w') →
     catalog_untouched w w') ∧
  (∀ df, load_events_from_file input_file fmt = Ok df → df ≠ [] → all_valid df →
     ∃ w', bulk_load config input_file org fmt true w = (Ok (length df), w')).
Proof.
  split; [intros r w'; apply dry_run_frame|].
  intros df Hload Hne Hvalid. unfold bulk_load. rewrite Hload, bind_lift_ok.
  destruct (allocate_and_validate df org w Hvalid) as (w1 & w2 & E1 & E2 & _).
  rewrite (bind_ok _ _ _ _ _ E1), (bind_ok _ _ _ _ _ E2).
  exists w2. destruct df as [|d df]; [done|].
  cbn [length seq first_event]. unfold bind, read_dict, ret.
  by rewrite length_seq.
Qed.

(** C9. On an empty record set a dry run does not return 0: indexing the
    first validated record raises [IndexError]; and a dry run that returns
    a count had a non-empty record set, whose size it returns. *)
Theorem bulk_load_dry_run_empty config input_file org fmt w :
  (load_events_from_file input_file fmt = Ok [] →
   bulk_load config input_file org fmt true w =
     (Raise (Exn IndexError "list index out of range"), w)) ∧
  (∀ df n w', load_events_from_file input_file fmt = Ok df →
     bulk_load config input_file org fmt true w = (Ok n, w') →
     df ≠ [] ∧ n = length df).
Proof.
  split.
  - intros Hload. unfold bulk_load. by rewrite Hload.
  - intros df n w' Hload. unfold bulk_load. rewrite Hload, bind_lift_ok.
    destruct (alloc_all_spec df w) as (w1 & E1 & _).
    rewrite (bind_ok _ _ _ _ _ E1).
    destruct (validate_events (seq (w_next w) (length df)) org w1) as [[out|e] w2] eqn:E2.
    + rewrite (bind_ok _ _ _ _ _ E2).
      unfold validate_events in E2. apply validate_loop_ok in E2 as (-> & _).
      destruct df as [|d df]; [done|].
      cbn. unfold bind, read_dict, ret. intros [= <- <-].
      split; [done|]. by rewrite length_seq.
    + by rewrite (bind_raise _ _ _ _ _ E2).
Qed.

End BulkLoad.

Section BulkLoadBatches.
Context `{PyLib}.




End BulkLoadBatches.

Lemma sample_events_valid :
  all_valid (H:=Sample.lib) [Sample.r1; Sample.r2; Sample.r3; Sample.r4; Sample.r5].
Proof.
  unfold all_valid.
  repeat (apply Forall_cons; split; [split; reflexivity|]).
  apply Forall_nil_2.
Defined.


(** C5, the claim as stated fails: a dry run on one record whose event
    value does not convert returns no count. *)
Lemma dry_run_unconvertible_value :
  load_events_from_file (H:=Sample.lib) "bad_value.json" "auto" = Ok [Sample.r_bad_value] ∧
  (bulk_load (H:=Sample.lib) Sample.config "bad_value.json" "acme" "auto" true Sample.w0).1
    = Raise (Exn ValueError "could not convert string to float: 'abc'").
Proof. split; reflexivity. Qed.

(** C5 amended, instances of both parts. *)
Lemma bulk_load_dry_run_witness :
  catalog_untouched Sample.w0
    (bulk_load (H:=Sample.lib) Sample.config "bad_value.json" "acme" "auto" true Sample.w0).2 ∧
  ∃ w', bulk_load (H:=Sample.lib) Sample.config "events.csv" "acme" "auto" true Sample.w0
          = (Ok 5, w').
Proof.
  split.
  - eapply (proj1 (bulk_load_dry_run (H:=Sample.lib) Sample.config "bad_value.json" "acme"
                     "auto" Sample.w0)).
    apply surjective_pairing.
  - apply (proj2 (bulk_load_dry_run (H:=Sample.lib) Sample.config "events.csv" "acme"
                    "auto" Sample.w0)
             [Sample.r1; Sample.r2; Sample.r3; Sample.r4; Sample.r5]).
    + reflexivity.
    + discriminate.
    + exact sample_events_valid.
Defined.

(** C9, instances of both parts. *)
Lemma bulk_load_dry_run_empty_witness :
  bulk_load (H:=Sample.lib) Sample.config "empty.csv" "acme" "auto" true Sample.w0 =
    (Raise (Exn IndexError "list index out of range"), Sample.w0) ∧
  [Sample.r1; Sample.r2; Sample.r3; Sample.r4; Sample.r5] ≠ [] ∧ 5 = 5.
Proof.
  split.
  - apply (proj1 (bulk_load_dry_run_empty (H:=Sample.lib) Sample.config "empty.csv" "acme"
                    "auto" Sample.w0)).
    reflexivity.
  - apply (proj2 (bulk_load_dry_run_empty (H:=Sample.lib) Sample.config "events.csv" "acme"
                    "auto" Sample.w0)
             [Sample.r1; Sample.r2; Sample.r3; Sample.r4; Sample.r5] 5
             (bulk_load (H:=Sample.lib) Sample.config "events.csv" "acme" "auto" true
                Sample.w0).2).
    + reflexivity.
    + apply run_outcome. reflexivity.
Defined.

(** ** Provisioning *)

Section Provisioning.
Context `{PyLib}.

(** A load, whatever the failure schedule, logs itself and changes nothing
    else but the schedule; what it returns is what the catalog holds. *)
Lemma load_table_effect identifier w r w1 :
  load_table identifier w = (r, w1) →
  w_calls w1 = w_calls w ++ [LoadTable identifier] ∧ w_tables w1 = w_tables w ∧
  store_untouched w w1 ∧
  (∀ t, r = Ok t →
     t_identifier t = identifier ∧ w_tables w !! identifier = Some (t_metadata t)).
Proof.
  unfold load_table, bind, log_call, next_fault, set_calls, set_faults. simpl.
  destruct (w_faults w) as [|[e|] fs]; simpl.
  - destruct (w_tables w !! identifier) as [metadata|] eqn:E; intros [= <- <-]; simpl;
      (split_and!; [done..|]); by intros t [= <-].
  - intros [= <- <-]. simpl. by split_and!.
  - destruct (w_tables w !! identifier) as [metadata|] eqn:E; intros [= <- <-]; simpl;
      (split_and!; [done..|]); by intros t [= <-].
Qed.

(** C6. When the load succeeds, provisioning returns the loaded table and
    issues no create call, leaving the catalog's tables as they are.
    Provisioning twice against the same identifier, with the catalog
    accepting every call, issues exactly one create call when the table
    did not exist before the first call (and none when it did, which is
    the case of the first sentence); both calls return the same table
    handle and the second changes no table. *)
Theorem create_or_get_table_idempotent config identifier w :
  table_identifier config = Ok identifier →
  (∀ t w1, load_table identifier w = (Ok t, w1) →
     create_or_get_table config w = (Ok t, w1) ∧
     w_tables w1 = w_tables w ∧
     new_calls w w1 = [LoadTable identifier]) ∧
  (w_faults w = [] →
   ∃ t w1 w2,
     create_or_get_table config w = (Ok t, w1) ∧
     create_or_get_table config w1 = (Ok t, w2) ∧
     w_tables w2 = w_tables w1 ∧
     creates (new_calls w w2) =
       match w_tables w !! identifier with Some _ => 0 | None => 1 end).
Proof.
  intros Hid. split.
  - intros t w1 Hload. rewrite (create_or_get_table_load _ _ _ Hid), Hload.
    apply load_table_effect in Hload as (Hc & Htb & _).
    split_and!; [done..|]. unfold new_calls. by rewrite Hc, drop_app_length.
  - intros Hf.
    destruct (create_or_get_table_run config identifier w Hid Hf) as
      (t & w1 & E1 & Htid & Htb1 & Hf1 & _ & Hcase1).
    destruct (create_or_get_table_run config identifier w1 Hid Hf1) as
      (t' & w2 & E2 & Htid' & Htb2 & _ & _ & Hcase2).
    rewrite Htb1 in Hcase2. destruct Hcase2 as (Hmd & Htb & Hc2).
    assert (t' = t) as ->.
    { destruct t, t'. simpl in *. congruence. }
    exists t, w1, w2. split_and!; [done..|].
    unfold new_calls, creates. rewrite Hc2.
    destruct (w_tables w !! identifier); destruct Hcase1 as (_ & _ & ->);
      by rewrite <- app_assoc, drop_app_length.
Qed.

End Provisioning.

(** C6, instances: a table that exists, and a first provisioning. *)
Lemma create_or_get_table_idempotent_witness :
  (∃ t w1, create_or_get_table (H:=Sample.lib) Sample.config Sample.w_table = (Ok t, w1) ∧
           w_tables w1 = w_tables Sample.w_table ∧
           new_calls Sample.w_table w1 = [LoadTable "analytics.conversion_events"]) ∧
  (∃ t w1 w2,
     create_or_get_table (H:=Sample.lib) Sample.config Sample.w0 = (Ok t, w1) ∧
     create_or_get_table (H:=Sample.lib) Sample.config w1 = (Ok t, w2) ∧
     w_tables w2 = w_tables w1 ∧
     creates (new_calls Sample.w0 w2) = 1).
Proof.
  split.
  - eexists _, _.
    apply (proj1 (create_or_get_table_idempotent (H:=Sample.lib) Sample.config
                    "analytics.conversion_events" Sample.w_table eq_refl)).
    reflexivity.
  - apply (proj2 (create_or_get_table_idempotent (H:=Sample.lib) Sample.config
                    "analytics.conversion_events" Sample.w0 eq_refl)).
    reflexivity.
Defined.

(** ** Configuration *)

Section Configuration.
Context `{PyLib}.

Lemma lookup_env_override config entry k :
  env_override config entry !! k =
    if String.eqb entry.2 k
    then (if env_set entry then VStr <$> getenv entry.1 else config !! k)
    else config !! k.
Proof.
  unfold env_override, env_set.
  destruct (String.eqb_spec entry.2 k) as [<-|Hne].
  - destruct (getenv entry.1) as [v|]; [|done].
    destruct (negb _); [|done]. by rewrite lookup_insert_eq.
  - destruct (getenv entry.1) as [v|]; [|done].
    destruct (negb _); [|done]. by rewrite lookup_insert_ne.
Qed.

(** Field by field, the environment overrides the file. *)
Lemma lookup_foldl_env mapping config k :
  foldl env_override config mapping !! k =
    match env_value mapping k with
    | Some v => Some (VStr v)
    | None => config !! k
    end.
Proof.
  revert config. induction mapping as [|entry rest IH]; intros config; [done|].
  cbn [foldl env_value]. rewrite IH.
  destruct (env_value rest k); [done|].
  rewrite lookup_env_override.
  destruct (String.eqb entry.2 k); [|done].
  unfold env_set. destruct (getenv entry.1) as [v|]; [|done].
  by destruct (negb _).
Qed.

Lemma elem_of_missing_fields config f :
  f ∈ missing_fields config ↔ f ∈ required_fields ∧ config !! f = None.
Proof. unfold missing_fields. rewrite list_elem_of_filter. tauto. Qed.

(** On a mapping the override loop and the test of the required fields
    are the ones on dictionaries. *)
Lemma override_mapping mapping d :
  foldl override_round (Ok (YMapping d)) mapping =
    Ok (YMapping (foldl env_override d mapping)).
Proof.
  revert d. induction mapping as [|entry rest IH]; intros d; [done|].
  cbn [foldl]. unfold override_round at 2, env_override at 2.
  destruct (getenv entry.1) as [v|]; [|apply IH].
  destruct (negb _); apply IH.
Qed.

Lemma override_raise mapping e :
  foldl override_round (Raise e) mapping = Raise e.
Proof. induction mapping as [|entry rest IH]; [done|]. apply IH. Qed.

(** On any other document the first assignment of the loop raises
    [TypeError]; without an assignment the document is as it was. *)
Lemma override_other mapping doc :
  (∀ file, doc ≠ YMapping file) →
  ∃ e, exn_cls e = TypeError ∧
       foldl override_round (Ok doc) mapping =
         if existsb env_set mapping then Raise e else Ok doc.
Proof.
  intros Hdoc.
  assert (∃ e, exn_cls e = TypeError ∧ ∀ k v, doc_setitem k v doc = Raise e)
    as (e & Hcls & He).
  { destruct doc as [file| |v]; [by destruct (Hdoc file)|..];
      (eexists; split; [|intros k v'; reflexivity]; done). }
  exists e. split; [done|].
  induction mapping as [|entry rest IH]; [done|].
  cbn [foldl existsb]. unfold override_round at 2, env_set at 1.
  destruct (getenv entry.1) as [v|]; [|apply IH].
  destruct (negb _); [|apply IH].
  rewrite He. cbn [orb]. apply override_raise.
Qed.

Lemma missing_in_mapping d fields :
  missing_in (YMapping d) fields = Ok (filter (fun f => d !! f = None) fields).
Proof.
  induction fields as [|f rest IH]; [done|].
  cbn [missing_in doc_contains]. rewrite IH, filter_cons.
  destruct (d !! f); by destruct (decide _).
Qed.

(** Resolution on a mapping (or without a file), in closed form. *)
Lemma load_config_mapping config_path file :
  file_config config_path = Ok (YMapping file) →
  _load_config config_path =
    match missing_fields (apply_env file) with
    | [] =>
        Ok (setdefault "table_name" (VStr "conversion_events")
              (setdefault "namespace" (VStr "default")
                 (setdefault "batch_size" (VInt 10000) (apply_env file))))
    | missing =>
        Raise (Exn ValueError
                 ("Missing required configuration: " +:+ String.concat ", " missing))
    end.
Proof.
  intros Hfile. unfold _load_config. rewrite Hfile, override_mapping, missing_in_mapping.
  fold (apply_env file). fold (missing_fields (apply_env file)).
  by destruct (missing_fields (apply_env file)).
Qed.

(** A document that is not a mapping never resolves: the override loop
    raises [TypeError] when a variable is set; otherwise the test of the
    required fields raises [TypeError], or the missing names raise
    [ValueError], or [setdefault] raises [AttributeError]. *)
Lemma load_config_not_mapping config_path doc :
  file_config config_path = Ok doc → (∀ file, doc ≠ YMapping file) →
  ∃ e, _load_config config_path = Raise e ∧
       (exn_cls e = TypeError ∨
        existsb env_set env_mapping = false ∧
        (exn_cls e = ValueError ∨ exn_cls e = AttributeError)).
Proof.
  intros Hfile Hdoc. unfold _load_config. rewrite Hfile.
  destruct (override_other env_mapping doc Hdoc) as (e & Hcls & ->).
  destruct (existsb env_set env_mapping); [exists e; split; [done|by left]|].
  destruct (missing_in doc required_fields) as [[|f fs]|e'] eqn:Emiss.
  - destruct doc as [file|items|v]; [by destruct (Hdoc file)|..];
      eexists; (split; [done|]); right; split; [done|by right|done|by right].
  - eexists. split; [done|]. right. split; [done|by left].
  - exists e'. split; [done|]. left.
    destruct doc as [file|items|v]; [by destruct (Hdoc file)|..].
    + cbn in Emiss. discriminate.
    + destruct v; cbn in Emiss; by inversion Emiss.
Qed.

(** A configuration that resolves comes from a mapping (or from no file)
    that has the required keys after the override loop. *)
Lemma load_config_ok config_path config :
  _load_config config_path = Ok config →
  ∃ file,
    file_config config_path = Ok (YMapping file) ∧
    missing_fields (apply_env file) = [] ∧
    config = setdefault "table_name" (VStr "conversion_events")
               (setdefault "namespace" (VStr "default")
                  (setdefault "batch_size" (VInt 10000) (apply_env file))).
Proof.
  intros Hcfg.
  destruct (file_config config_path) as [[file|items|v]|e] eqn:Hfile.
  - rewrite (load_config_mapping _ _ Hfile) in Hcfg. exists file.
    destruct (missing_fields (apply_env file)); [|done].
    by inversion Hcfg.
  - destruct (load_config_not_mapping _ _ Hfile) as (e & He & _); [done|congruence].
  - destruct (load_config_not_mapping _ _ Hfile) as (e & He & _); [done|congruence].
  - unfold _load_config in Hcfg. by rewrite Hfile in Hcfg.
Qed.

(** X28. Resolution on a mapping, or without a file: the merged
    configuration is the file's, overridden field by field by the
    environment.  If it lacks one of
    [catalog_uri], [warehouse_name], [api_token], resolution raises
    [ValueError] (the configuration error) with a message that lists the
    missing keys, all of them and only them; otherwise it succeeds, and
    [batch_size], [namespace] and [table_name] get 10000, "default" and
    "conversion_events" exactly when absent, no other key changing. *)
Theorem load_config_spec config_path file :
  file_config config_path = Ok (YMapping file) →
  let merged := apply_env file in
  (∀ k, merged !! k =
        match env_value env_mapping k with
        | Some v => Some (VStr v)
        | None => file !! k
        end) ∧
  (∀ f, f ∈ missing_fields merged ↔ f ∈ required_fields ∧ merged !! f = None) ∧
  ((∃ f, f ∈ required_fields ∧ merged !! f = None) →
   _load_config config_path =
     Raise (Exn ValueError
              ("Missing required configuration: "
                 +:+ String.concat ", " (missing_fields merged)))) ∧
  ((∀ f, f ∈ required_fields → is_Some (merged !! f)) →
   ∃ config,
     _load_config config_path = Ok config ∧
     config !! "batch_size" = Some (default (VInt 10000) (merged !! "batch_size")) ∧
     config !! "namespace" = Some (default (VStr "default") (merged !! "namespace")) ∧
     config !! "table_name" =
       Some (default (VStr "conversion_events") (merged !! "table_name")) ∧
     ∀ k, k ∉ ["batch_size"; "namespace"; "table_name"] → config !! k = merged !! k).
Proof.
  intros Hfile merged.
  split; [intros k; apply lookup_foldl_env|].
  split; [apply elem_of_missing_fields|].
  rewrite (load_config_mapping _ _ Hfile). fold merged. split.
  - intros (f & Hf & Hnone).
    assert (f ∈ missing_fields merged) as Hin by by apply elem_of_missing_fields.
    destruct (missing_fields merged) as [|f0 fs]; [by apply elem_of_nil in Hin|done].
  - intros Hall.
    destruct (missing_fields merged) as [|f0 fs] eqn:E.
    + eexists. split; [done|]. split_and!.
      * do 2 (rewrite lookup_setdefault_ne by done). apply lookup_setdefault_eq.
      * rewrite lookup_setdefault_ne by done. rewrite lookup_setdefault_eq.
        by rewrite lookup_setdefault_ne by done.
      * rewrite lookup_setdefault_eq. by do 2 (rewrite lookup_setdefault_ne by done).
      * intros k Hk. rewrite !not_elem_of_cons in Hk. destruct Hk as (? & ? & ? & _).
        by do 3 (rewrite lookup_setdefault_ne by done).
    + assert (f0 ∈ missing_fields merged) as Hin by (rewrite E; by left).
      apply elem_of_missing_fields in Hin as [Hreq Hnone].
      destruct (Hall f0 Hreq) as [v Hv]. congruence.
Qed.

End Configuration.

(** C7, the defect: an empty configuration file.  With a file that exists
    and holds an empty document, [yaml.safe_load] gives [None] and
    resolution raises [TypeError], where the claim has the defaults applied
    (the environment sets the three required keys) or the error naming the
    missing keys (the environment sets none); without the file, the same
    environment resolves, the override loop then starting from the empty
    dictionary. *)
Theorem load_config_empty_document :
  file_config (H:=Sample.lib_documents Sample.environment_complete) "empty.yaml"
    = Ok (YScalar VNone) ∧
  (∀ f, f ∈ required_fields →
     is_Some (env_value (H:=Sample.lib_documents Sample.environment_complete)
                env_mapping f)) ∧
  _load_config (H:=Sample.lib_documents Sample.environment_complete) "empty.yaml" =
    Raise (Exn TypeError "'NoneType' object does not support item assignment") ∧
  _load_config (H:=Sample.lib_documents []) "empty.yaml" =
    Raise (Exn TypeError "argument of type 'NoneType' is not iterable") ∧
  _load_config (H:=Sample.lib_documents []) "nothing.yaml" =
    Raise (Exn ValueError
             "Missing required configuration: catalog_uri, warehouse_name, api_token") ∧
  ∃ config,
    _load_config (H:=Sample.lib_documents Sample.environment_complete) "nothing.yaml"
      = Ok config ∧
    config !! "catalog_uri" = Some (VStr "https://catalog.example/iceberg") ∧
    config !! "batch_size" = Some (VInt 10000) ∧
    config !! "namespace" = Some (VStr "default") ∧
    config !! "table_name" = Some (VStr "conversion_events").
Proof.
  split; [reflexivity|]. split.
  { intros f Hf. unfold required_fields in Hf.
    repeat (apply elem_of_cons in Hf as [->|Hf]); [by eexists..|].
    by apply elem_of_nil in Hf. }
  split; [reflexivity|]. split; [reflexivity|]. split; [reflexivity|].
  eexists. split; [reflexivity|]. split_and!; reflexivity.
Qed.

(** X28, instances: without a file only the token is there, with the file
    everything is. *)
Lemma load_config_spec_witness :
  _load_config (H:=Sample.lib) "nothing.yaml" =
    Raise (Exn ValueError "Missing required configuration: catalog_uri, warehouse_name") ∧
  ∃ config,
    _load_config (H:=Sample.lib) "config.yaml" = Ok config ∧
    config !! "batch_size" = Some (VInt 2) ∧
    config !! "namespace" = Some (VStr "analytics") ∧
    config !! "table_name" = Some (VStr "conversion_events") ∧
    config !! "api_token" = Some (VStr "token-123").
Proof.
  split.
  - apply (load_config_spec (H:=Sample.lib) "nothing.yaml" ∅ eq_refl).
    exists "catalog_uri". split; [by left|reflexivity].
  - destruct (load_config_spec (H:=Sample.lib) "config.yaml" Sample.config_file eq_refl)
      as (_ & _ & _ & Hok).
    destruct Hok as (config & E & Hb & Hn & Ht & Hrest).
    + intros f Hf. unfold required_fields in Hf.
      repeat (apply elem_of_cons in Hf as [->|Hf]); [by eexists..|].
      by apply elem_of_nil in Hf.
    + exists config. split; [exact E|]. split; [exact Hb|]. split; [exact Hn|].
      split; [exact Ht|]. rewrite Hrest; [reflexivity|].
      rewrite !not_elem_of_cons. split_and!; try done. apply not_elem_of_nil.
Defined.

(** ** Statistics *)

Section Statistics.
Context `{PyLib}.

(** C8. When the table loads and has no current snapshot, the statistics
    report zero rows, zero files, zero bytes (rendered under the unit B),
    the number of snapshots and no last update; when the load fails,
    whatever the exception, the result is the empty dictionary and nothing
    is raised to the caller. *)
Theorem query_table_stats_spec config identifier w :
  table_identifier config = Ok identifier →
  (∀ t w1, load_table identifier w = (Ok t, w1) → current_snapshot t = None →
     ∃ stats,
       query_table_stats config w = (Ok stats, w1) ∧
       stats !! "table_name" = Some (VStr identifier) ∧
       stats !! "row_count" = Some (VInt 0) ∧
       stats !! "file_count" = Some (VInt 0) ∧
       stats !! "total_size_bytes" = Some (VInt 0) ∧
       stats !! "total_size" = Some (VStr (format_2f (VInt 0) +:+ " B")) ∧
       stats !! "snapshot_count" =
         Some (VInt (Z.of_nat (length (tm_snapshots (t_metadata t))))) ∧
       stats !! "last_updated" = Some VNone) ∧
  (∀ e w1, load_table identifier w = (Raise e, w1) →
     query_table_stats config w = (Ok ∅, w1)).
Proof.
  intros Hid. unfold query_table_stats. rewrite Hid, bind_lift_ok. split.
  - intros t w1 Hload Hcur. unfold try_except.
    rewrite (bind_ok _ _ _ _ _ Hload), Hcur.
    cbn [last_updated summary_or_zero]. rewrite bind_lift_ok.
    cbn [human_size lt_1024 Z.ltb Z.compare]. unfold lift.
    eexists. split; [done|].
    split_and!.
    + do 6 (rewrite lookup_insert_ne by done). by rewrite lookup_insert_eq.
    + do 5 (rewrite lookup_insert_ne by done). by rewrite lookup_insert_eq.
    + do 4 (rewrite lookup_insert_ne by done). by rewrite lookup_insert_eq.
    + do 3 (rewrite lookup_insert_ne by done). by rewrite lookup_insert_eq.
    + by rewrite lookup_insert_eq.
    + do 2 (rewrite lookup_insert_ne by done). by rewrite lookup_insert_eq.
    + rewrite lookup_insert_ne by done. by rewrite lookup_insert_eq.
  - intros e w1 Hload. unfold try_except.
    by rewrite (bind_raise _ _ _ _ _ Hload).
Qed.

End Statistics.

(** C8, instances: a table without snapshot, and no table at all. *)
Lemma query_table_stats_spec_witness :
  (∃ stats w1,
     query_table_stats (H:=Sample.lib) Sample.config Sample.w_table = (Ok stats, w1) ∧
     stats !! "row_count" = Some (VInt 0) ∧
     stats !! "file_count" = Some (VInt 0) ∧
     stats !! "total_size_bytes" = Some (VInt 0) ∧
     stats !! "last_updated" = Some VNone) ∧
  (∃ w1, query_table_stats (H:=Sample.lib) Sample.config Sample.w0 = (Ok ∅, w1)).
Proof.
  split.
  - edestruct (proj1 (query_table_stats_spec (H:=Sample.lib) Sample.config
                        "analytics.conversion_events" Sample.w_table eq_refl))
      as (stats & E & _ & Hr & Hfc & Hs & _ & _ & Hu); [reflexivity..|].
    exists stats. eexists. split; [exact E|]. by split_and!.
  - eexists.
    apply (proj2 (query_table_stats_spec (H:=Sample.lib) Sample.config
                    "analytics.conversion_events" Sample.w0 eq_refl)
             (Exn NoSuchTableError "analytics.conversion_events")).
    reflexivity.
Defined.

(** * Further properties *)

(** ** Reading the input *)

Section Reading.
Context `{PyLib}.

Lemma format_map_supported suffix :
  format_map suffix ∈ ["csv"; "json"; "jsonl"; "parquet"].
Proof.
  unfold format_map. rewrite !elem_of_cons.
  repeat (destruct (String.eqb suffix _); [tauto|]). tauto.
Qed.

Lemma format_map_fallback suffix :
  suffix ∉ [".json"; ".jsonl"; ".parquet"; ".pq"] → format_map suffix = "csv".
Proof.
  rewrite !not_elem_of_cons. intros (? & ? & ? & ? & _). unfold format_map.
  destruct (String.eqb suffix ".csv"); [done|].
  destruct (String.eqb_spec suffix ".json"); [done|].
  destruct (String.eqb_spec suffix ".jsonl"); [done|].
  destruct (String.eqb_spec suffix ".parquet"); [done|].
  by destruct (String.eqb_spec suffix ".pq").
Qed.

(** X1. A missing input file ends the load at once, in either mode and
    whatever the format asked for: [FileNotFoundError] naming the path as
    [Path] renders it, and no object, no catalog call, no table. *)
Theorem bulk_load_missing_file config input_file org fmt dry_run w :
  path_exists input_file = false →
  bulk_load config input_file org fmt dry_run w =
    (Raise (Exn FileNotFoundError ("File not found: " +:+ path_str input_file)), w).
Proof.
  intros Hno. unfold bulk_load, load_events_from_file. rewrite Hno. cbn [negb].
  by rewrite bind_lift_raise.
Qed.

(** X2. For an existing file and a format among the choices of [--format],
    the file is handed to one of the four readers and the unsupported-format
    error cannot occur; with [auto], a suffix that is none of [.json],
    [.jsonl], [.parquet], [.pq] is read as CSV. *)
Theorem load_events_format_choice file_path fmt :
  path_exists file_path = true → fmt ∈ format_choices →
  (∃ f, load_events_from_file file_path fmt = read_records f file_path) ∧
  (fmt = "auto" →
   path_suffix_lower file_path ∉ [".json"; ".jsonl"; ".parquet"; ".pq"] →
   load_events_from_file file_path fmt = read_records FmtCsv file_path).
Proof.
  intros Hex Hfmt. unfold load_events_from_file. rewrite Hex. cbn [negb]. split.
  - assert (∀ g, g ∈ ["csv"; "json"; "jsonl"; "parquet"] →
      ∃ f, (if String.eqb g "csv" then read_records FmtCsv file_path
            else if String.eqb g "json" then read_records FmtJson file_path
            else if String.eqb g "jsonl" then read_records FmtJsonl file_path
            else if String.eqb g "parquet" then read_records FmtParquet file_path
            else Raise (Exn ValueError ("Unsupported file format: " +:+ g)))
           = read_records f file_path) as Hsupp.
    { intros g Hg. repeat (apply elem_of_cons in Hg as [->|Hg]); cbn; eauto.
      by apply elem_of_nil in Hg. }
    destruct (String.eqb_spec fmt "auto") as [->|Hne].
    + apply Hsupp, format_map_supported.
    + apply Hsupp. unfold format_choices in Hfmt.
      apply elem_of_cons in Hfmt as [->|Hfmt]; done.
  - intros -> Hsuffix. cbn. by rewrite format_map_fallback.
Qed.

End Reading.

(** X1, an instance: a file that is not there, asked for in a format that
    does not exist; the message shows the path without its leading "./". *)
Lemma bulk_load_missing_file_witness :
  bulk_load (H:=Sample.lib) Sample.config "./nothing.csv" "acme" "xml" false Sample.w0 =
    (Raise (Exn FileNotFoundError "File not found: nothing.csv"), Sample.w0).
Proof. apply (bulk_load_missing_file (H:=Sample.lib)). reflexivity. Defined.

(** X2, instances: a JSON file, and a YAML file read as CSV. *)
Lemma load_events_format_choice_witness :
  (∃ f, load_events_from_file (H:=Sample.lib) "bad_value.json" "auto" =
          read_records (PyLib:=Sample.lib) f "bad_value.json") ∧
  load_events_from_file (H:=Sample.lib) "config.yaml" "auto" =
    read_records (PyLib:=Sample.lib) FmtCsv "config.yaml".
Proof.
  split.
  - apply (load_events_format_choice (H:=Sample.lib) "bad_value.json" "auto").
    + reflexivity.
    + by left.
  - apply (load_events_format_choice (H:=Sample.lib) "config.yaml" "auto").
    + reflexivity.
    + by left.
    + reflexivity.
    + rewrite !not_elem_of_cons. split_and!; try done. apply not_elem_of_nil.
Defined.

(** ** Validation: failures and repetition *)


Section ValidationMore.
Context `{PyLib}.

Lemma timestamp_value_raise d t t' e :
  timestamp_value d t = Raise e → timestamp_value d t' = Raise e.
Proof. unfold timestamp_value. by destruct (d !! "timestamp"). Qed.

Lemma validated_outcome_valid d t :
  validated_outcome d t = Ok tt ↔ convertible d = true ∧ timestamp_ok d = true.
Proof.
  unfold validated_outcome, convertible, timestamp_ok.
  rewrite (timestamp_value_ticks d 0 t).
  destruct (timestamp_value d t); cbn; [|by intuition].
  destruct (py_float _); cbn; by intuition.
Qed.

Lemma validated_outcome_error d t e :
  record_error d e → validated_outcome d t = Raise e.
Proof.
  unfold record_error, validated_outcome, timestamp_ok.
  intros [Hts|[Hok Hv]].
  - by rewrite (timestamp_value_raise _ _ t _ Hts).
  - rewrite (timestamp_value_ticks d 0 t) in Hok.
    destruct (timestamp_value d t); [|done]. by rewrite Hv.
Qed.

(** A record that does not pass stops the loop. *)
Lemma validate_loop_invalid events org acc w l :
  l ∈ events →
  convertible (w_heap w l) = false ∨ timestamp_ok (w_heap w l) = false →
  ∃ e w', validate_loop events org acc w = (Raise e, w').
Proof.
  revert acc w. induction events as [|l0 rest IH]; intros acc w Hl Hbad.
  - by apply elem_of_nil in Hl.
  - cbn [validate_loop].
    destruct (validate_event_spec l0 org w) as (w1 & E & Hp).
    destruct (validated_outcome_cases (w_heap w l0) (w_ticks w)) as [Hok|[e He]].
    + rewrite Hok in E. rewrite (bind_ok _ _ _ _ _ E).
      apply validated_outcome_valid in Hok as [Hc Ht].
      destruct (decide (l = l0)) as [->|Hne].
      { destruct Hbad; congruence. }
      apply IH.
      * by apply elem_of_cons in Hl as [?|?].
      * destruct Hp as (_ & Hf & _). by rewrite Hf.
    + rewrite He in E. rewrite (bind_raise _ _ _ _ _ E). eauto.
Qed.

(** The loop over a list that starts with records that pass goes on from
    where they leave it. *)
Lemma validate_loop_app_ok pre rest org acc w out w1 :
  validate_loop pre org acc w = (Ok out, w1) →
  validate_loop (pre ++ rest) org acc w = validate_loop rest org out w1.
Proof.
  revert acc w. induction pre as [|l pre IH]; intros acc w Hrun.
  - cbn in Hrun. by inversion Hrun.
  - cbn [app validate_loop] in *.
    destruct (validate_event l org w) as [[[]|e] w0] eqn:E.
    + rewrite (bind_ok _ _ _ _ _ E) in Hrun. rewrite (bind_ok _ _ _ _ _ E).
      by apply IH.
    + by rewrite (bind_raise _ _ _ _ _ E) in Hrun.
Qed.

(** X3. Validation stops at the first record that does not pass: the
    exception is that record's own (the one of [pd.to_datetime] on its
    timestamp, else the one of [float] on its event value), the records
    before it are normalised, the failing record has been given the
    organisation already, and the records after it are as they were. *)
Theorem validate_events_first_failure pre l post org w e :
  NoDup (pre ++ l :: post) →
  (∀ l', l' ∈ pre →
     convertible (w_heap w l') = true ∧ timestamp_ok (w_heap w l') = true) →
  record_error (w_heap w l) e →
  ∃ w', validate_events (pre ++ l :: post) org w = (Raise e, w') ∧
        (∀ l', l' ∈ pre → normalized org (w_heap w' l')) ∧
        w_heap w' l !! "organization_id" = Some (VStr org) ∧
        (∀ l', l' ∈ post → w_heap w' l' = w_heap w l').
Proof.
  intros Hnd Hpre Herr.
  apply NoDup_app in Hnd as (Hndpre & Hdisj & Hndpost).
  apply NoDup_cons in Hndpost as [Hlpost Hndpost].
  destruct (validate_loop_succeeds pre org [] w Hndpre Hpre) as (w1 & E1).
  pose proof (validate_loop_frame _ _ _ _ _ _ E1) as (Hh1 & _).
  pose proof (validate_loop_ok _ _ _ _ _ _ E1) as (_ & Hnorm).
  unfold validate_events. rewrite (validate_loop_app_ok _ (l :: post) _ _ _ _ _ E1).
  cbn [validate_loop].
  destruct (validate_event_spec l org w1) as (w2 & E2 & Hp).
  assert (l ∉ pre) as Hlpre by (intros ?; eapply Hdisj; [done|by left]).
  rewrite (Hh1 l Hlpre) in E2, Hp.
  rewrite (validated_outcome_error _ (w_ticks w1) _ Herr) in E2.
  rewrite (bind_raise _ _ _ _ _ E2). exists w2. split; [done|].
  destruct Hp as (Hd & Hf & _). split_and!.
  - intros l' Hl'. rewrite Hf by (by intros ->). by apply Hnorm.
  - rewrite Hd. apply validated_dict_organization_id.
  - intros l' Hl'. rewrite Hf by (by intros ->).
    apply Hh1. intros ?. eapply Hdisj; [done|by right].
Qed.

Lemma setdefault_present k v (d : dict) : is_Some (d !! k) → setdefault k v d = d.
Proof. intros [v' Hv]. unfold setdefault. by rewrite Hv. Qed.





(** X5. Validation keeps a present [None]: in a successful pass over
    distinct records, a record that came with [None] under one of
    [event_id], [event_type], [currency], [user_id], [session_id] still has
    [None] there, so that its row has a null in a column the schema
    requires. *)
Theorem validate_events_keeps_none events org w out w' l k :
  validate_events events org w = (Ok out, w') → NoDup events → l ∈ events →
  k ∈ kept_columns → w_heap w l !! k = Some VNone →
  w_heap w' l !! k = Some VNone ∧ cell (w_heap w' l) k = None ∧
  ∃ f, f ∈ _get_event_schema ∧ nf_name f = k ∧ nf_required f = true.
Proof.
  intros Hrun Hnd Hl Hk Hnone. unfold validate_events in Hrun.
  destruct (validate_loop_record _ _ _ _ _ _ l Hrun Hnd Hl) as (n & t & Hok & Hd).
  destruct (validated_outcome_ok _ _ Hok) as (tv & x & Htv & Hfl).
  assert (w_heap w' l !! k = Some VNone) as Hkeep.
  { rewrite Hd, (validated_dict_ok _ _ _ _ _ _ Htv Hfl).
    set (d1 := <["timestamp" := tv]> (<["organization_id" := VStr org]>
                 (with_id (w_heap w l) n))).
    assert (d1 !! k = Some VNone) as Hd1.
    { unfold d1, kept_columns in *.
      repeat (apply elem_of_cons in Hk as [->|Hk]);
        try (do 2 (rewrite lookup_insert_ne by done);
             by rewrite with_id_lookup_ne by done).
      by apply elem_of_nil in Hk. }
    unfold kept_columns in Hk.
    repeat (apply elem_of_cons in Hk as [->|Hk]).
    - rewrite lookup_insert_ne by done. by rewrite with_defaults_event_id, Hd1.
    - rewrite lookup_insert_ne by done. by rewrite with_defaults_event_type, Hd1.
    - rewrite lookup_insert_ne by done. by rewrite with_defaults_currency, Hd1.
    - rewrite lookup_insert_ne by done. by rewrite with_defaults_user_id, Hd1.
    - rewrite lookup_insert_ne by done. by rewrite with_defaults_session_id, Hd1.
    - by apply elem_of_nil in Hk. }
  split; [done|]. split; [unfold cell; by rewrite Hkeep|].
  unfold kept_columns in Hk.
  repeat (apply elem_of_cons in Hk as [->|Hk]).
  - eexists. split; [apply (list_elem_of_lookup_2 _ 2); reflexivity|done].
  - eexists. split; [apply (list_elem_of_lookup_2 _ 4); reflexivity|done].
  - eexists. split; [apply (list_elem_of_lookup_2 _ 6); reflexivity|done].
  - eexists. split; [apply (list_elem_of_lookup_2 _ 7); reflexivity|done].
  - eexists. split; [apply (list_elem_of_lookup_2 _ 8); reflexivity|done].
  - by apply elem_of_nil in Hk.
Qed.

End ValidationMore.

Lemma NoDup_three : NoDup [0; 1; 2].
Proof. apply (bool_decide_unpack _). reflexivity. Defined.


(** X3, an instance: the second of three records has an event value that
    does not convert; the third is left as it was. *)
Lemma validate_events_first_failure_witness :
  ∃ w', validate_events (H:=Sample.lib) [0; 1; 2] "acme"
          (Sample.world_of [Sample.r1; Sample.r_bad_value; Sample.r2]) =
          (Raise (Exn ValueError "could not convert string to float: 'abc'"), w') ∧
        normalized "acme" (w_heap w' 0) ∧
        w_heap w' 1 !! "organization_id" = Some (VStr "acme") ∧
        w_heap w' 2 = Sample.r2.
Proof.
  edestruct (validate_events_first_failure (H:=Sample.lib) [0] 1 [2] "acme"
               (Sample.world_of [Sample.r1; Sample.r_bad_value; Sample.r2])
               (Exn ValueError "could not convert string to float: 'abc'"))
    as (w' & E & Hpre & Hl & Hpost).
  - exact NoDup_three.
  - intros l' Hl'. apply list_elem_of_singleton in Hl' as ->. split; reflexivity.
  - right. split; reflexivity.
  - exists w'. split; [exact E|]. split; [apply Hpre; by left|]. split; [exact Hl|].
    apply Hpost. by left.
Defined.


(** X5, an instance: a record with a null event type. *)
Lemma validate_events_keeps_none_witness :
  cell (w_heap (validate_events (H:=Sample.lib) [0] "acme"
                  (Sample.world_of [Sample.r_null_type])).2 0) "event_type" = None.
Proof.
  edestruct (validate_events_keeps_none (H:=Sample.lib) [0] "acme"
               (Sample.world_of [Sample.r_null_type]) [0]
               (validate_events (H:=Sample.lib) [0] "acme"
                  (Sample.world_of [Sample.r_null_type])).2 0 "event_type")
    as (_ & Hcell & _).
  - apply run_outcome. reflexivity.
  - apply NoDup_singleton.
  - by left.
  - unfold kept_columns. rewrite !elem_of_cons. auto.
  - reflexivity.
  - exact Hcell.
Defined.

(** ** Loading: nothing is written unless every record passes *)

Section AllOrNothing.
Context `{PyLib}.

(** X6. One record that does not pass keeps the whole file out of the
    table: when some record of the file has an event value that [float]
    refuses or a timestamp that [pd.to_datetime] refuses, the load raises
    in either mode before the catalog is called, so that no table is
    created and no batch appended, the records before the failing one
    included. *)
Theorem bulk_load_invalid_record config input_file org fmt dry_run w df d :
  load_events_from_file input_file fmt = Ok df →
  d ∈ df →
  convertible d = false ∨ timestamp_ok d = false →
  ∃ e w',
    bulk_load config input_file org fmt dry_run w = (Raise e, w') ∧
    catalog_untouched w w'.
Proof.
  intros Hload Hd Hbad. unfold bulk_load. rewrite Hload, bind_lift_ok.
  destruct (alloc_all_spec df w) as (w1 & E1 & _ & Hnew & _ & _ & _ & Hc1).
  rewrite (bind_ok _ _ _ _ _ E1).
  apply list_elem_of_lookup_1 in Hd as (i & Hi).
  destruct (validate_loop_invalid (seq (w_next w) (length df)) org [] w1 (w_next w + i))
    as (e & w2 & E2).
  { apply elem_of_seq. apply lookup_lt_Some in Hi. lia. }
  { by rewrite (Hnew _ _ Hi). }
  unfold validate_events. rewrite (bind_raise _ _ _ _ _ E2).
  exists e, w2. split; [done|].
  destruct (validate_loop_frame _ _ _ _ _ _ E2) as (_ & _ & Hc2).
  destruct Hc1 as (? & ? & ?), Hc2 as (? & ? & ?). unfold catalog_untouched.
  split_and!; congruence.
Qed.

End AllOrNothing.

(** X6, an instance: a file whose record has a timestamp that does not
    parse, in a real run. *)
Lemma bulk_load_invalid_record_witness :
  ∃ e w',
    bulk_load (H:=Sample.lib) Sample.config "bad_date.json" "acme" "auto" false Sample.w0
      = (Raise e, w') ∧
    catalog_untouched Sample.w0 w'.
Proof.
  apply (bulk_load_invalid_record (H:=Sample.lib) Sample.config "bad_date.json" "acme"
           "auto" false Sample.w0 [Sample.r_bad_date] Sample.r_bad_date).
  - reflexivity.
  - by left.
  - right. reflexivity.
Defined.

(** ** The catalog under a failure schedule *)

Section Schedule.
Context `{PyLib}.








End Schedule.

(** ** Loading: what is written, and when *)

Section BulkLoadMore.
Context `{PyLib}.



Lemma new_calls_app w w' cs : w_calls w' = w_calls w ++ cs → new_calls w w' = cs.
Proof. intros Hc. unfold new_calls. by rewrite Hc, drop_app_length. Qed.













End BulkLoadMore.






(** ** Statistics: what can go wrong *)

Section StatisticsMore.
Context `{PyLib}.

(** The rendering of the size adds the key [total_size] or nothing. *)
Lemma human_size_lookup_ne units size_bytes (stats stats' : dict) k :
  human_size units size_bytes stats = Ok stats' → k ≠ "total_size" →
  stats' !! k = stats !! k.
Proof.
  revert size_bytes. induction units as [|unit rest IH]; intros size_bytes Hrun Hk.
  - cbn in Hrun. by inversion Hrun.
  - cbn [human_size] in Hrun.
    destruct (lt_1024 size_bytes) as [[|]|e]; [| |done].
    + inversion Hrun; subst. by rewrite lookup_insert_ne.
    + destruct (div_1024 size_bytes) as [size_bytes'|e]; [|done]. by eapply IH.
Qed.

(** X12. Once the table identifier is formed, [query_table_stats] raises
    nothing, whatever the catalog does and whatever the snapshot holds; it
    makes one call, the load of the table, and changes no table and no
    record. *)
Theorem query_table_stats_read_only config identifier w :
  table_identifier config = Ok identifier →
  ∃ stats w',
    query_table_stats config w = (Ok stats, w') ∧
    w_tables w' = w_tables w ∧
    new_calls w w' = [LoadTable identifier] ∧
    store_untouched w w'.
Proof.
  intros Hid. unfold query_table_stats. rewrite Hid, bind_lift_ok. unfold try_except.
  destruct (load_table identifier w) as [[t|e] w1] eqn:E.
  - destruct (load_table_effect _ _ _ _ E) as (Hc & Htb & Hs & _).
    rewrite (bind_ok _ _ _ _ _ E).
    destruct (last_updated (current_snapshot t)) as [updated|e].
    + rewrite bind_lift_ok. unfold lift.
      destruct (human_size _ _ _) as [stats|e].
      * eexists _, _. split; [done|]. split_and!; try done. by apply new_calls_app.
      * eexists _, _. split; [done|]. split_and!; try done. by apply new_calls_app.
    + rewrite bind_lift_raise.
      eexists _, _. split; [done|]. split_and!; try done. by apply new_calls_app.
  - destruct (load_table_effect _ _ _ _ E) as (Hc & Htb & Hs & _).
    rewrite (bind_raise _ _ _ _ _ E).
    eexists _, _. split; [done|]. split_and!; try done. by apply new_calls_app.
Qed.

(** X13. The statistics are all or nothing: the result is either the empty
    dictionary or, the table having been loaded, it has the table name;
    under [row_count], [file_count] and [total_size_bytes] what the summary
    of the current snapshot holds under [total-records],
    [total-data-files] and [total-file-size-bytes], and 0 for an entry the
    summary lacks and when there is no snapshot; the number of snapshots;
    and the rendered time of the current snapshot, [None] without one.
    Beside these six keys the only key it can have is [total_size], added
    by the loop over the units. *)
Theorem query_table_stats_all_or_nothing config identifier w stats w' :
  table_identifier config = Ok identifier →
  query_table_stats config w = (Ok stats, w') →
  stats = ∅ ∨
  ∃ t, load_table identifier w = (Ok t, w') ∧
       stats !! "table_name" = Some (VStr identifier) ∧
       stats !! "row_count" =
         Some (match current_snapshot t with
               | Some s => default (VInt 0) (snap_summary s !! "total-records")
               | None => VInt 0
               end) ∧
       stats !! "file_count" =
         Some (match current_snapshot t with
               | Some s => default (VInt 0) (snap_summary s !! "total-data-files")
               | None => VInt 0
               end) ∧
       stats !! "total_size_bytes" =
         Some (match current_snapshot t with
               | Some s => default (VInt 0) (snap_summary s !! "total-file-size-bytes")
               | None => VInt 0
               end) ∧
       stats !! "snapshot_count" =
         Some (VInt (Z.of_nat (length (tm_snapshots (t_metadata t))))) ∧
       match current_snapshot t with
       | Some s =>
           ∃ iso, isoformat_ms (snap_timestamp_ms s) = Ok iso ∧
                  stats !! "last_updated" = Some (VStr iso)
       | None => stats !! "last_updated" = Some VNone
       end ∧
       (∀ k, is_Some (stats !! k) →
             k ∈ ["table_name"; "row_count"; "file_count"; "total_size_bytes";
                  "snapshot_count"; "last_updated"; "total_size"]).
Proof.
  intros Hid. unfold query_table_stats. rewrite Hid, bind_lift_ok. unfold try_except.
  destruct (load_table identifier w) as [[t|e] w1] eqn:E.
  2:{ rewrite (bind_raise _ _ _ _ _ E). intros [= <- <-]. by left. }
  rewrite (bind_ok _ _ _ _ _ E).
  destruct (last_updated (current_snapshot t)) as [updated|e] eqn:Elu.
  2:{ rewrite bind_lift_raise. intros [= <- <-]. by left. }
  rewrite bind_lift_ok. unfold lift.
  destruct (human_size _ _ _) as [stats'|e] eqn:Eh.
  2:{ intros [= <- <-]. by left. }
  intros [= <- <-]. right. exists t. split; [done|].
  pose proof (fun k => human_size_lookup_ne _ _ _ _ k Eh) as Hk.
  unfold summary_or_zero in Hk.
  split_and!.
  - rewrite Hk by done. do 5 (rewrite lookup_insert_ne by done).
    by rewrite lookup_insert_eq.
  - rewrite Hk by done. do 4 (rewrite lookup_insert_ne by done).
    by rewrite lookup_insert_eq.
  - rewrite Hk by done. do 3 (rewrite lookup_insert_ne by done).
    by rewrite lookup_insert_eq.
  - rewrite Hk by done. do 2 (rewrite lookup_insert_ne by done).
    by rewrite lookup_insert_eq.
  - rewrite Hk by done. rewrite lookup_insert_ne by done.
    by rewrite lookup_insert_eq.
  - unfold last_updated in Elu. destruct (current_snapshot t) as [s|].
    + destruct (isoformat_ms (snap_timestamp_ms s)) as [iso|e]; [|done].
      inversion Elu; subst. exists iso. split; [done|].
      rewrite Hk by done. by rewrite lookup_insert_eq.
    + inversion Elu; subst. rewrite Hk by done. by rewrite lookup_insert_eq.
  - intros k Hsome. destruct (decide (k = "total_size")) as [->|Hne].
    { rewrite !elem_of_cons. auto 10. }
    rewrite Hk in Hsome by done. destruct Hsome as [v Hv].
    repeat (apply lookup_insert_Some in Hv as [[<- _]|[_ Hv]];
            [rewrite !elem_of_cons; auto 10|]).
    by rewrite lookup_empty in Hv.
Qed.

(** X14. A size that is no number loses all the statistics: when the
    summary of the current snapshot gives [total-file-size-bytes] as a
    string or as [None], the comparison with 1024.0 raises, the handler
    takes it and the result is the empty dictionary. *)
Theorem query_table_stats_size_not_a_number config identifier w t w1 s :
  table_identifier config = Ok identifier →
  load_table identifier w = (Ok t, w1) →
  current_snapshot t = Some s →
  (∃ x, snap_summary s !! "total-file-size-bytes" = Some (VStr x)) ∨
  snap_summary s !! "total-file-size-bytes" = Some VNone →
  query_table_stats config w = (Ok ∅, w1).
Proof.
  intros Hid Hload Hcur Hsize.
  unfold query_table_stats. rewrite Hid, bind_lift_ok. unfold try_except.
  rewrite (bind_ok _ _ _ _ _ Hload), Hcur.
  destruct (last_updated (Some s)) as [updated|e]; [|by rewrite bind_lift_raise].
  rewrite bind_lift_ok. unfold lift. cbn [human_size summary_or_zero].
  by destruct Hsize as [[x ->]| ->].
Qed.


End StatisticsMore.

(** X12, an instance: statistics asked of a catalog without the table. *)
Lemma query_table_stats_read_only_witness :
  ∃ stats w',
    query_table_stats (H:=Sample.lib) Sample.config Sample.w0 = (Ok stats, w') ∧
    w_tables w' = w_tables Sample.w0 ∧
    new_calls Sample.w0 w' = [LoadTable "analytics.conversion_events"].
Proof.
  edestruct (query_table_stats_read_only (H:=Sample.lib) Sample.config
               "analytics.conversion_events" Sample.w0)
    as (stats & w' & E & Htables & Hcalls & _).
  - reflexivity.
  - exists stats, w'. split; [exact E|]. split; [exact Htables|exact Hcalls].
Defined.

(** X13, an instance: the table with a snapshot whose summary holds
    numbers. *)
Lemma query_table_stats_all_or_nothing_witness :
  ∃ stats,
    (query_table_stats (H:=Sample.lib) Sample.config
       (Sample.w_snapshots [Sample.snapshot_2])).1 = Ok stats ∧
    stats !! "row_count" = Some (VInt 5) ∧
    stats !! "snapshot_count" = Some (VInt 1) ∧
    stats !! "added-records" = None.
Proof.
  edestruct (query_table_stats_all_or_nothing (H:=Sample.lib) Sample.config
               "analytics.conversion_events" (Sample.w_snapshots [Sample.snapshot_2])
               (match (query_table_stats (H:=Sample.lib) Sample.config
                         (Sample.w_snapshots [Sample.snapshot_2])).1 with
                | Ok stats => stats
                | Raise _ => ∅
                end))
    as [Hempty|(t & Hload & _ & Hrows & _ & _ & Hcount & _ & Hkeys)].
  - reflexivity.
  - apply run_outcome. reflexivity.
  - apply (f_equal (fun stats : dict => stats !! "table_name")) in Hempty.
    discriminate Hempty.
  - eexists. split; [reflexivity|].
    assert (t = Table "analytics.conversion_events"
                  (TableMetadata _get_event_schema _get_partition_spec table_properties
                     [Sample.snapshot_2])) as ->.
    { apply (f_equal fst) in Hload. cbn in Hload. by inversion Hload. }
    split; [exact Hrows|]. split; [exact Hcount|].
    apply eq_None_not_Some. intros Hsome. apply Hkeys in Hsome.
    revert Hsome. apply (bool_decide_unpack _). reflexivity.
Defined.

(** X14, an instance: the summary as the catalog reports it, its values
    being strings. *)
Lemma query_table_stats_size_not_a_number_witness :
  (query_table_stats (H:=Sample.lib) Sample.config
     (Sample.w_snapshots [Sample.snapshot_1])).1 = Ok ∅.
Proof.
  rewrite (query_table_stats_size_not_a_number (H:=Sample.lib) Sample.config
             "analytics.conversion_events" (Sample.w_snapshots [Sample.snapshot_1])
             (Table "analytics.conversion_events"
                (TableMetadata _get_event_schema _get_partition_spec table_properties
                   [Sample.snapshot_1]))
             (load_table "analytics.conversion_events"
                (Sample.w_snapshots [Sample.snapshot_1])).2
             Sample.snapshot_1).
  - reflexivity.
  - reflexivity.
  - apply run_outcome. reflexivity.
  - reflexivity.
  - left. exists "2048". reflexivity.
Defined.


(** ** Configuration: errors, completeness, reach of the environment *)

Section ConfigurationMore.
Context `{PyLib}.

(** A resolved configuration has the three required keys and the three
    defaulted ones. *)
Lemma load_config_keys config_path config k :
  _load_config config_path = Ok config →
  k ∈ required_fields ++ ["batch_size"; "namespace"; "table_name"] →
  is_Some (config !! k).
Proof.
  intros Hcfg Hk. apply load_config_ok in Hcfg as (file & _ & E & ->).
  apply elem_of_app in Hk as [Hk|Hk].
  - assert (k ∉ missing_fields (apply_env file)) as Hnot
      by (rewrite E; apply not_elem_of_nil).
    rewrite elem_of_missing_fields in Hnot.
    assert (is_Some (apply_env file !! k)) as Hsome.
    { destruct (apply_env file !! k) eqn:Ek; [by eexists|]. by destruct Hnot. }
    unfold required_fields in Hk.
    repeat (apply elem_of_cons in Hk as [->|Hk]);
      [by do 3 (rewrite lookup_setdefault_ne by done)..|].
    by apply elem_of_nil in Hk.
  - repeat (apply elem_of_cons in Hk as [->|Hk]).
    + do 2 (rewrite lookup_setdefault_ne by done). rewrite lookup_setdefault_eq.
      by eexists.
    + rewrite lookup_setdefault_ne by done. rewrite lookup_setdefault_eq. by eexists.
    + rewrite lookup_setdefault_eq. by eexists.
    + by apply elem_of_nil in Hk.
Qed.

Lemma load_config_identifier config_path config :
  _load_config config_path = Ok config →
  ∃ identifier, table_identifier config = Ok identifier.
Proof.
  intros Hcfg. unfold table_identifier, getitem.
  destruct (load_config_keys config_path config "namespace" Hcfg) as [ns ->];
    [unfold required_fields; rewrite !elem_of_app, !elem_of_cons; auto 10|].
  destruct (load_config_keys config_path config "table_name" Hcfg) as [tn ->];
    [unfold required_fields; rewrite !elem_of_app, !elem_of_cons; auto 10|].
  by eexists.
Qed.

(** The environment has no value for a key outside the mapping. *)
Lemma env_value_unmapped mapping k :
  k ∉ map snd mapping → env_value mapping k = None.
Proof.
  induction mapping as [|entry rest IH]; [done|].
  cbn [map env_value]. rewrite not_elem_of_cons. intros [Hne Hrest].
  rewrite IH by done. by destruct (String.eqb_spec entry.2 k).
Qed.

(** X16. What resolving the configuration can raise.  A file that holds
    an empty document raises [TypeError], whatever the environment
    provides: an empty file is not read as an empty configuration.  More
    generally a document that is not a mapping - empty, a sequence, a
    scalar - never resolves: it raises [TypeError] as soon as a variable of
    the mapping is set, and otherwise [TypeError], [ValueError] or
    [AttributeError].  And every error is the YAML reader's own, or one of
    these on a document that is no mapping, or the [ValueError] of a
    required key that the file (if any) and the environment leave
    missing. *)
Theorem load_config_errors config_path :
  (path_exists config_path = true → yaml_safe_load config_path = Ok (YScalar VNone) →
   ∃ msg, _load_config config_path = Raise (Exn TypeError msg)) ∧
  (∀ doc, file_config config_path = Ok doc → (∀ file, doc ≠ YMapping file) →
     ∃ e, _load_config config_path = Raise e ∧
          (exn_cls e = TypeError ∨
           existsb env_set env_mapping = false ∧
           (exn_cls e = ValueError ∨ exn_cls e = AttributeError))) ∧
  (∀ e, _load_config config_path = Raise e →
     (path_exists config_path = true ∧ yaml_safe_load config_path = Raise e) ∨
     (∃ doc, path_exists config_path = true ∧ yaml_safe_load config_path = Ok doc ∧
             (∀ file, doc ≠ YMapping file) ∧
             (exn_cls e = TypeError ∨ exn_cls e = ValueError ∨
              exn_cls e = AttributeError)) ∨
     (∃ file, file_config config_path = Ok (YMapping file) ∧ exn_cls e = ValueError ∧
              ∃ f, f ∈ required_fields ∧ apply_env file !! f = None)).
Proof.
  split_and!.
  - intros Hex Hdoc.
    assert (file_config config_path = Ok (YScalar VNone)) as Hfile
      by (unfold file_config; by rewrite Hex).
    unfold _load_config. rewrite Hfile.
    destruct (override_other env_mapping (YScalar VNone)) as ([cls msg] & Hcls & ->);
      [done|].
    cbn in Hcls. subst cls. destruct (existsb env_set env_mapping); by eexists.
  - apply load_config_not_mapping.
  - intros e Hrun.
    destruct (file_config config_path) as [doc|e0] eqn:Hfile.
    2:{ left. unfold _load_config in Hrun. rewrite Hfile in Hrun. inversion Hrun; subst.
        unfold file_config in Hfile. by destruct (path_exists config_path). }
    right.
    assert ((∃ file, doc = YMapping file) ∨ (∀ file, doc ≠ YMapping file)) as [[file ->]|Hdoc].
    { destruct doc; [left; by eexists|by right..]. }
    + right. exists file. split; [done|].
      rewrite (load_config_mapping _ _ Hfile) in Hrun.
      destruct (missing_fields (apply_env file)) as [|f0 fs] eqn:E; [done|].
      inversion Hrun; subst. split; [done|].
      exists f0. apply elem_of_missing_fields. rewrite E. by left.
    + left. destruct (load_config_not_mapping _ _ Hfile Hdoc) as (e' & He' & Hcls).
      rewrite Hrun in He'. inversion He'; subst e'.
      unfold file_config in Hfile. destruct (path_exists config_path) eqn:Hex.
      * exists doc. split_and!; [done..|]. destruct Hcls as [?|[_ [?|?]]]; auto.
      * inversion Hfile; subst. by destruct (Hdoc ∅).
Qed.

(** X17. A configuration that resolves is complete for the rest of the
    script: it has [catalog_uri], [warehouse_name], [api_token],
    [batch_size], [namespace] and [table_name], so that forming the table
    identifier and reading the batch size raise no [KeyError]. *)
Theorem load_config_complete config_path config :
  _load_config config_path = Ok config →
  (∀ k, k ∈ ["catalog_uri"; "warehouse_name"; "api_token";
             "batch_size"; "namespace"; "table_name"] → is_Some (config !! k)) ∧
  (∃ ns tn, config !! "namespace" = Some ns ∧ config !! "table_name" = Some tn ∧
            table_identifier config = Ok (str_of ns +:+ "." +:+ str_of tn)) ∧
  (∃ v, getitem "batch_size" config = Ok v).
Proof.
  intros Hcfg. split_and!.
  - intros k Hk. by apply (load_config_keys config_path).
  - unfold table_identifier, getitem.
    destruct (load_config_keys config_path config "namespace" Hcfg) as [ns Hns];
      [unfold required_fields; rewrite !elem_of_app, !elem_of_cons; auto 10|].
    destruct (load_config_keys config_path config "table_name" Hcfg) as [tn Htn];
      [unfold required_fields; rewrite !elem_of_app, !elem_of_cons; auto 10|].
    exists ns, tn. by rewrite Hns, Htn.
  - unfold getitem.
    destruct (load_config_keys config_path config "batch_size" Hcfg) as [v ->];
      [unfold required_fields; rewrite !elem_of_app, !elem_of_cons; auto 10|].
    by eexists.
Qed.

(** X18. The environment reaches only the six keys of its mapping: in a
    configuration that resolves, [batch_size], [namespace] and [table_name]
    are the file's or else the defaults, and every other key outside the
    mapping is as in the file, whatever variables are set. *)
Theorem load_config_environment_reach config_path file config :
  file_config config_path = Ok (YMapping file) →
  _load_config config_path = Ok config →
  config !! "batch_size" = Some (default (VInt 10000) (file !! "batch_size")) ∧
  config !! "namespace" = Some (default (VStr "default") (file !! "namespace")) ∧
  config !! "table_name" =
    Some (default (VStr "conversion_events") (file !! "table_name")) ∧
  (∀ k, k ∉ map snd env_mapping → k ∉ ["batch_size"; "namespace"; "table_name"] →
        config !! k = file !! k).
Proof.
  intros Hfile. rewrite (load_config_mapping _ _ Hfile).
  destruct (missing_fields (apply_env file)) as [|f0 fs]; [|done].
  intros [= <-].
  assert (∀ k, k ∉ map snd env_mapping → apply_env file !! k = file !! k) as Henv.
  { intros k Hk. unfold apply_env. by rewrite lookup_foldl_env, env_value_unmapped. }
  split_and!.
  - do 2 (rewrite lookup_setdefault_ne by done). rewrite lookup_setdefault_eq.
    rewrite Henv; [done|]. by apply (bool_decide_unpack _).
  - rewrite lookup_setdefault_ne by done. rewrite lookup_setdefault_eq.
    rewrite lookup_setdefault_ne by done.
    rewrite Henv; [done|]. by apply (bool_decide_unpack _).
  - rewrite lookup_setdefault_eq. do 2 (rewrite lookup_setdefault_ne by done).
    rewrite Henv; [done|]. by apply (bool_decide_unpack _).
  - intros k Hk Hd. rewrite !not_elem_of_cons in Hd. destruct Hd as (? & ? & ? & _).
    do 3 (rewrite lookup_setdefault_ne by done). by apply Henv.
Qed.

End ConfigurationMore.

(** ** The entry point *)

Section Main.
Context `{PyLib} `{S3Lib} `{SysLib}.

Lemma setup_connections_effect config w r w1 :
  _setup_connections config w = (r, w1) →
  w_tables w1 = w_tables w ∧ w_calls w1 = w_calls w ∧ store_untouched w w1.
Proof.
  unfold _setup_connections.
  destruct (getitem "catalog_uri" config) as [?|?];
    [rewrite bind_lift_ok|rewrite bind_lift_raise; by intros [= <- <-]].
  destruct (getitem "api_token" config) as [token|?];
    [rewrite bind_lift_ok|rewrite bind_lift_raise; by intros [= <- <-]].
  destruct (getitem "warehouse_name" config) as [?|?];
    [rewrite bind_lift_ok|rewrite bind_lift_raise; by intros [= <- <-]].
  unfold bind, next_fault, set_faults, lift, ret.
  destruct (w_faults w) as [|[e|] fs]; cbn.
  - destruct (config !! "s3_endpoint"); [|by intros [= <- <-]].
    destruct (boto3_client _ _ _); by intros [= <- <-].
  - by intros [= <- <-].
  - destruct (config !! "s3_endpoint"); [|by intros [= <- <-]].
    destruct (boto3_client _ _ _); by intros [= <- <-].
Qed.

Lemma EventBulkLoader_effect config_path w r w1 :
  EventBulkLoader config_path w = (r, w1) →
  w_tables w1 = w_tables w ∧ w_calls w1 = w_calls w ∧ store_untouched w w1 ∧
  ∀ ldr, r = Ok ldr → _load_config config_path = Ok (l_config ldr).
Proof.
  unfold EventBulkLoader.
  destruct (_load_config config_path) as [config|e].
  2:{ rewrite bind_lift_raise. intros [= <- <-]. by split_and!. }
  rewrite bind_lift_ok.
  destruct (_setup_connections config w) as [[s3|e] w2] eqn:E.
  - rewrite (bind_ok _ _ _ _ _ E). intros [= <- <-].
    destruct (setup_connections_effect _ _ _ _ E) as (? & ? & ?).
    split_and!; try done. by intros ldr [= <-].
  - rewrite (bind_raise _ _ _ _ _ E). intros [= <- <-].
    destruct (setup_connections_effect _ _ _ _ E) as (? & ? & ?).
    by split_and!.
Qed.

Lemma query_table_stats_returns config identifier w :
  table_identifier config = Ok identifier →
  ∃ stats w', query_table_stats config w = (Ok stats, w').
Proof.
  intros Hid. unfold query_table_stats. rewrite Hid, bind_lift_ok. unfold try_except.
  destruct (load_table identifier w) as [[t|e] w1] eqn:E.
  - rewrite (bind_ok _ _ _ _ _ E).
    destruct (last_updated (current_snapshot t)) as [updated|e].
    + rewrite bind_lift_ok. unfold lift. destruct (human_size _ _ _); by eexists _, _.
    + rewrite bind_lift_raise. by eexists _, _.
  - rewrite (bind_raise _ _ _ _ _ E). by eexists _, _.
Qed.

(** X19. Setting up the connections after the configuration resolved
    raises no [KeyError]: the loader fails to initialise only with the error
    of the configuration, with the failure of the catalog's first request,
    or with the refusal of [boto3.client], which is asked only when the
    configuration has [s3_endpoint]; initialising makes no table call. *)
Theorem EventBulkLoader_errors config_path w e w1 :
  EventBulkLoader config_path w = (Raise e, w1) →
  (_load_config config_path = Raise e ∨
   (∃ fs, w_faults w = Some e :: fs) ∨
   (∃ config endpoint token,
      _load_config config_path = Ok config ∧
      config !! "s3_endpoint" = Some endpoint ∧
      config !! "api_token" = Some token ∧
      boto3_client endpoint (default (VStr "") (config !! "account_id")) token
        = Raise e)) ∧
  w_tables w1 = w_tables w ∧ w_calls w1 = w_calls w.
Proof.
  intros Hrun. split.
  2:{ destruct (EventBulkLoader_effect _ _ _ _ Hrun) as (? & ? & _). by split. }
  revert Hrun. unfold EventBulkLoader.
  destruct (_load_config config_path) as [config|e0] eqn:Ecfg.
  2:{ rewrite bind_lift_raise. intros [= <- <-]. by left. }
  rewrite bind_lift_ok. unfold _setup_connections, getitem.
  destruct (load_config_keys config_path config "catalog_uri" Ecfg) as [uri ->];
    [unfold required_fields; rewrite !elem_of_app, !elem_of_cons; auto 10|].
  destruct (load_config_keys config_path config "api_token" Ecfg) as [token Htoken];
    [unfold required_fields; rewrite !elem_of_app, !elem_of_cons; auto 10|].
  destruct (load_config_keys config_path config "warehouse_name" Ecfg) as [wh ->];
    [unfold required_fields; rewrite !elem_of_app, !elem_of_cons; auto 10|].
  rewrite Htoken. cbv beta iota.
  unfold bind, next_fault, lift, ret.
  destruct (w_faults w) as [|[e1|] fs] eqn:Ef.
  - destruct (config !! "s3_endpoint") as [endpoint|] eqn:Eep; [|done].
    destruct (boto3_client _ _ _) eqn:Eb; [done|].
    intros [= <- <-]. right. right. by exists config, endpoint, token.
  - intros [= <- <-]. right. left. by eexists.
  - destruct (config !! "s3_endpoint") as [endpoint|] eqn:Eep; [|done].
    destruct (boto3_client _ _ _) eqn:Eb; [done|].
    intros [= <- <-]. right. right. by exists config, endpoint, token.
Qed.

(** Printing changes nothing in the world, and a sequence of lines is
    printed when the stream takes each of them. *)
Lemma for_each_print lines w :
  ∃ r, for_each lines print w = (r, w) ∧
       (r = Ok tt ↔ Forall (fun line => print_error line = None) lines).
Proof.
  induction lines as [|line lines (r & E & Hr)].
  - exists (Ok tt). by split.
  - cbn [for_each]. unfold bind, print at 1.
    destruct (print_error line) as [e|] eqn:Eline.
    + exists (Raise e). split; [done|]. split; [done|].
      intros Hall. apply Forall_cons in Hall as [? _]. congruence.
    + cbn. rewrite E. exists r. split; [done|]. rewrite Hr. split.
      * intros Hall. by apply Forall_cons.
      * intros Hall. by apply Forall_cons in Hall as [_ ?].
Qed.

Lemma for_each_map {A B} (f : A → B) (body : B → M unit) (xs : list A) :
  for_each (map f xs) body = for_each xs (fun x => body (f x)).
Proof. induction xs as [|x xs IH]; [done|]. cbn. by rewrite IH. Qed.

(** Showing the statistics: nothing is printed for the empty dictionary,
    and otherwise the heading, the rule and one line per entry. *)
Lemma show_stats_spec stats w :
  ∃ r, show_stats stats w = (r, w) ∧
       (r = Ok tt ↔
        size stats = 0 ∨ Forall (fun line => print_error line = None) (stats_lines stats)).
Proof.
  unfold show_stats. destruct (decide (size stats = 0)) as [Hz|Hnz].
  - exists (Ok tt). split; [done|]. split; [by left|done].
  - destruct (for_each_print (stats_lines stats) w) as (r & E & Hr).
    exists r. split.
    + rewrite <- E. unfold stats_lines. cbn [for_each]. by rewrite for_each_map.
    + rewrite Hr. split; [by right|]. by intros [?|?].
Qed.

(** X20. No exception leaves [main].  When argparse refuses the command
    line (or is asked for help) [main] ends with its [SystemExit] before
    anything is done; otherwise it returns 0 or 1.  It returns 0 exactly
    when the loader initialises, the load returns a count and, if
    statistics are asked for on a real run, the statistics are empty or the
    standard output takes every line of them: [query_table_stats] itself
    always returns, so that asking for statistics turns a successful load
    into the exit code 1 only when printing them fails. *)
Theorem main_exit_code argv w :
  ∃ out w',
    main argv w = (Ok out, w') ∧
    match parse_args argv with
    | inr status => out = SystemExit status ∧ w' = w
    | inl args =>
        ∃ code,
          out = Returns code ∧ (code = 0 ∨ code = 1)%Z ∧
          (code = 0%Z ↔
           ∃ ldr w1 n w2,
             EventBulkLoader (arg_config args) w = (Ok ldr, w1) ∧
             bulk_load (l_config ldr) (arg_input args) (arg_org_id args)
               (arg_format args) (arg_dry_run args) w1 = (Ok n, w2) ∧
             (arg_stats args && negb (arg_dry_run args) = true →
              ∃ stats w3,
                query_table_stats (l_config ldr) w2 = (Ok stats, w3) ∧
                (size stats = 0 ∨
                 Forall (fun line => print_error line = None) (stats_lines stats))))
    end.
Proof.
  unfold main. destruct (parse_args argv) as [args|status]; [|by eexists _, _].
  unfold try_except, main_body.
  destruct (EventBulkLoader (arg_config args) w) as [[ldr|e] w1] eqn:E1.
  2:{ unfold bind at 1. rewrite (bind_raise _ _ _ _ _ E1). eexists _, _. split; [done|].
      exists 1%Z. split; [done|]. split; [by right|]. split; [done|].
      by intros (? & ? & ? & ? & ? & _). }
  destruct (bulk_load (l_config ldr) (arg_input args) (arg_org_id args)
              (arg_format args) (arg_dry_run args) w1) as [[n|e] w2] eqn:E2.
  2:{ unfold bind at 1. rewrite (bind_ok _ _ _ _ _ E1), (bind_raise _ _ _ _ _ E2).
      eexists _, _. split; [done|].
      exists 1%Z. split; [done|]. split; [by right|]. split; [done|].
      intros (ldr' & w1' & n & w2' & [= <- <-] & E2' & _). congruence. }
  destruct (EventBulkLoader_effect _ _ _ _ E1) as (_ & _ & _ & Hcfg).
  destruct (load_config_identifier _ _ (Hcfg ldr eq_refl)) as (identifier & Hid).
  destruct (query_table_stats_returns _ _ w2 Hid) as (stats & w3 & E3).
  destruct (show_stats_spec stats w3) as (r & E4 & Hr).
  unfold bind at 1. rewrite (bind_ok _ _ _ _ _ E1), (bind_ok _ _ _ _ _ E2).
  destruct (arg_stats args && negb (arg_dry_run args)) eqn:Eflag.
  - unfold bind at 1. rewrite (bind_ok _ _ _ _ _ E3), E4.
    destruct r as [[]|e].
    + eexists _, _. split; [done|]. exists 0%Z. split; [done|]. split; [by left|].
      split; [|done]. intros _. exists ldr, w1, n, w2. split; [done|]. split; [done|].
      intros _. exists stats, w3. split; [done|]. by apply Hr.
    + eexists _, _. split; [done|]. exists 1%Z. split; [done|]. split; [by right|].
      split; [done|].
      intros (ldr' & w1' & n' & w2' & [= <- <-] & E2' & Hstats).
      rewrite E2 in E2'. injection E2' as <- <-.
      destruct (Hstats eq_refl) as (stats' & w3' & E3' & Hprint).
      rewrite E3 in E3'. injection E3' as <- <-.
      apply Hr in Hprint. discriminate.
  - eexists _, _. split; [done|]. exists 0%Z. split; [done|]. split; [by left|].
    split; [|done]. intros _. exists ldr, w1, n, w2. by split_and!.
Qed.

(** X21. With [--dry-run], [main] makes no table call and changes no
    table, whatever else is on the command line ([--stats] included) and
    however the run ends, a refused command line included. *)
Theorem main_dry_run argv w r w' :
  (∀ args, parse_args argv = inl args → arg_dry_run args = true) →
  main argv w = (r, w') →
  w_tables w' = w_tables w ∧ w_calls w' = w_calls w.
Proof.
  intros Hdry. unfold main.
  destruct (parse_args argv) as [args|status]; [|by intros [= <- <-]].
  specialize (Hdry args eq_refl).
  unfold try_except, main_body. rewrite Hdry.
  destruct (EventBulkLoader (arg_config args) w) as [[ldr|e] w1] eqn:E1.
  2:{ unfold bind at 1. rewrite (bind_raise _ _ _ _ _ E1). intros [= <- <-].
      destruct (EventBulkLoader_effect _ _ _ _ E1) as (? & ? & _). by split. }
  destruct (EventBulkLoader_effect _ _ _ _ E1) as (Htb1 & Hc1 & _).
  unfold bind at 1. rewrite (bind_ok _ _ _ _ _ E1).
  destruct (bulk_load (l_config ldr) (arg_input args) (arg_org_id args)
              (arg_format args) true w1) as [[n|e] w2] eqn:E2.
  - destruct (dry_run_frame _ _ _ _ _ _ _ E2) as (Htb2 & Hc2 & _).
    rewrite (bind_ok _ _ _ _ _ E2). rewrite andb_false_r.
    intros [= <- <-]. split; congruence.
  - destruct (dry_run_frame _ _ _ _ _ _ _ E2) as (Htb2 & Hc2 & _).
    rewrite (bind_raise _ _ _ _ _ E2). intros [= <- <-]. split; congruence.
Qed.

End Main.

(** X16, instances: an empty YAML document, although the environment sets
    the token; a sequence that holds the names of the required keys, which
    passes the test of the required fields and fails at [setdefault]; and no
    file at all, the required keys then missing. *)
Lemma load_config_errors_witness :
  (∃ msg, _load_config (H:=Sample.lib_empty_yaml) "empty.yaml" =
            Raise (Exn TypeError msg)) ∧
  (∃ e, _load_config (H:=Sample.lib_documents []) "list.yaml" = Raise e ∧
        exn_cls e = AttributeError) ∧
  ((path_exists (PyLib:=Sample.lib) "nothing.yaml" = true ∧
    yaml_safe_load (PyLib:=Sample.lib) "nothing.yaml" =
      Raise (Exn ValueError "Missing required configuration: catalog_uri, warehouse_name")) ∨
   (∃ doc, path_exists (PyLib:=Sample.lib) "nothing.yaml" = true ∧
           yaml_safe_load (PyLib:=Sample.lib) "nothing.yaml" = Ok doc ∧
           (∀ file, doc ≠ YMapping file) ∧
           (ValueError = TypeError ∨ ValueError = ValueError ∨
            ValueError = AttributeError)) ∨
   (∃ file, file_config (H:=Sample.lib) "nothing.yaml" = Ok (YMapping file) ∧
            ValueError = ValueError ∧
            ∃ f, f ∈ required_fields ∧ apply_env (H:=Sample.lib) file !! f = None)).
Proof.
  split; [|split].
  - apply (proj1 (load_config_errors (H:=Sample.lib_empty_yaml) "empty.yaml"));
      reflexivity.
  - destruct (proj1 (proj2 (load_config_errors (H:=Sample.lib_documents []) "list.yaml"))
                Sample.list_document eq_refl)
      as (e & He & Hcls); [discriminate|].
    exists e. split; [exact He|].
    assert (e = Exn AttributeError "'list' object has no attribute 'setdefault'") as ->.
    { assert (Raise e = Raise (Exn AttributeError "'list' object has no attribute 'setdefault'"))
        as Heq by (rewrite <- He; reflexivity).
      injection Heq. auto. }
    reflexivity.
  - apply (proj2 (proj2 (load_config_errors (H:=Sample.lib) "nothing.yaml"))
             (Exn ValueError "Missing required configuration: catalog_uri, warehouse_name")).
    reflexivity.
Defined.

(** A document that is a plain string passes the test of the required
    fields for the names it holds as parts. *)
Example load_config_text_document :
  _load_config (H:=Sample.lib_documents []) "text.yaml" =
    Raise (Exn ValueError "Missing required configuration: warehouse_name, api_token") ∧
  _load_config (H:=Sample.lib_documents Sample.environment) "text.yaml" =
    Raise (Exn TypeError "'str' object does not support item assignment").
Proof. split; reflexivity. Qed.

(** X17, an instance: the sample configuration. *)
Lemma load_config_complete_witness :
  (∀ k, k ∈ ["catalog_uri"; "warehouse_name"; "api_token";
             "batch_size"; "namespace"; "table_name"] →
        is_Some (Sample.config !! k)) ∧
  (∃ ns tn, Sample.config !! "namespace" = Some ns ∧
            Sample.config !! "table_name" = Some tn ∧
            table_identifier (H:=Sample.lib) Sample.config =
              Ok (str_of (PyLib:=Sample.lib) ns +:+ "." +:+ str_of (PyLib:=Sample.lib) tn)) ∧
  (∃ v, getitem "batch_size" Sample.config = Ok v).
Proof.
  apply (load_config_complete (H:=Sample.lib) "config.yaml" Sample.config).
  reflexivity.
Defined.

(** X18, an instance: the sample file sets the batch size and the
    namespace, not the table name. *)
Lemma load_config_environment_reach_witness :
  Sample.config !! "batch_size" = Some (VInt 2) ∧
  Sample.config !! "namespace" = Some (VStr "analytics") ∧
  Sample.config !! "table_name" = Some (VStr "conversion_events").
Proof.
  destruct (load_config_environment_reach (H:=Sample.lib) "config.yaml"
              Sample.config_file Sample.config) as (Hb & Hn & Ht & _).
  - reflexivity.
  - reflexivity.
  - split; [exact Hb|]. split; [exact Hn|exact Ht].
Defined.

(** X19, an instance: the catalog refuses its first request. *)
Lemma EventBulkLoader_errors_witness :
  w_tables (EventBulkLoader (H:=Sample.lib) (H0:=Sample.s3) "config.yaml"
              (set_faults [Some (Exn ServiceError "401")] Sample.w0)).2 = ∅ ∧
  w_calls (EventBulkLoader (H:=Sample.lib) (H0:=Sample.s3) "config.yaml"
             (set_faults [Some (Exn ServiceError "401")] Sample.w0)).2 = [].
Proof.
  apply (EventBulkLoader_errors (H:=Sample.lib) (H0:=Sample.s3) "config.yaml"
           (set_faults [Some (Exn ServiceError "401")] Sample.w0)
           (Exn ServiceError "401")).
  apply run_outcome. reflexivity.
Defined.

(** X20, instances: a load that succeeds and prints its statistics; a file
    that is not there; a load that succeeds while the standard output is
    closed; and two command lines argparse leaves with. *)
Example main_exit_codes :
  (main (H:=Sample.lib) (H0:=Sample.s3) (H1:=Sample.sys)
     (Sample.argv "events.csv" false true) Sample.w0).1 = Ok (Returns 0) ∧
  (main (H:=Sample.lib) (H0:=Sample.s3) (H1:=Sample.sys)
     (Sample.argv "nothing.csv" false true) Sample.w0).1 = Ok (Returns 1) ∧
  (main (H:=Sample.lib) (H0:=Sample.s3) (H1:=Sample.sys_closed)
     (Sample.argv "events.csv" false true) Sample.w0).1 = Ok (Returns 1) ∧
  (main (H:=Sample.lib) (H0:=Sample.s3) (H1:=Sample.sys_closed)
     (Sample.argv "events.csv" false false) Sample.w0).1 = Ok (Returns 0) ∧
  main (H:=Sample.lib) (H0:=Sample.s3) (H1:=Sample.sys) ["--help"] Sample.w0
    = (Ok (SystemExit 0), Sample.w0) ∧
  main (H:=Sample.lib) (H0:=Sample.s3) (H1:=Sample.sys) ["--input"; "events.csv"] Sample.w0
    = (Ok (SystemExit 2), Sample.w0).
Proof. split_and!; reflexivity. Qed.

(** X21, an instance: a dry run with [--stats]. *)
Lemma main_dry_run_witness :
  w_tables (main (H:=Sample.lib) (H0:=Sample.s3) (H1:=Sample.sys)
              (Sample.argv "events.csv" true true) Sample.w0).2 = ∅ ∧
  w_calls (main (H:=Sample.lib) (H0:=Sample.s3) (H1:=Sample.sys)
             (Sample.argv "events.csv" true true) Sample.w0).2 = [].
Proof.
  apply (main_dry_run (H:=Sample.lib) (H0:=Sample.s3) (H1:=Sample.sys)
           (Sample.argv "events.csv" true true) Sample.w0
           (main (H:=Sample.lib) (H0:=Sample.s3) (H1:=Sample.sys)
              (Sample.argv "events.csv" true true) Sample.w0).1).
  - intros args Hargs. vm_compute in Hargs. injection Hargs as <-. reflexivity.
  - apply surjective_pairing.
Defined.

(** * The sample event generator *)

Import Generator.

(** ** Sequencing *)

Section GeneratorMonad.
Context `{GenLib}.

Lemma gbind_ok {A B} (m : G A) (k : A → G B) g a g1 :
  m g = (Ok a, g1) → gbind m k g = k a g1.
Proof. unfold gbind. by intros ->. Qed.

Lemma gbind_raise {A B} (m : G A) (k : A → G B) g e g1 :
  m g = (Raise e, g1) → gbind m k g = (Raise e, g1).
Proof. unfold gbind. by intros ->. Qed.

Lemma gbind_inv {A B} (m : G A) (k : A → G B) g b g' :
  gbind m k g = (Ok b, g') → ∃ a g1, m g = (Ok a, g1) ∧ k a g1 = (Ok b, g').
Proof.
  unfold gbind. destruct (m g) as [[a|e] g1]; [|done]. intros Hk. by exists a, g1.
Qed.

Section Frames.
Context (R : generator → generator → Prop).
Hypothesis R_refl : ∀ g, R g g.
Hypothesis R_trans : ∀ g1 g2 g3, R g1 g2 → R g2 g3 → R g1 g3.
Hypothesis R_entropy : ∀ g r, R g (set_entropy r g).

Lemma frames_ret {A} (a : A) : frames R (gret a).
Proof. intros g r g' [= <- <-]. apply R_refl. Qed.

Lemma frames_lift {A} (x : result A) : frames R (glift x).
Proof. intros g r g' [= <- <-]. apply R_refl. Qed.

Lemma frames_draw {A} (f : rng → A * rng) : frames R (draw f).
Proof. intros g r g' [= <- <-]. apply R_entropy. Qed.

Lemma frames_draw_result {A} (f : rng → result A * rng) : frames R (draw_result f).
Proof. intros g r g' [= <- <-]. apply R_entropy. Qed.

Lemma frames_bind {A B} (m : G A) (k : A → G B) :
  frames R m → (∀ a, frames R (k a)) → frames R (gbind m k).
Proof.
  intros Hm Hk g r g'. unfold gbind.
  destruct (m g) as [[a|e] g1] eqn:E.
  - intros Hrun. eapply R_trans; [by eapply Hm|by eapply Hk].
  - intros [= <- <-]. by eapply Hm.
Qed.

Lemma frames_read {A B} (f : generator → A) (k : A → G B) :
  (∀ a, frames R (k a)) → frames R (gbind (fun g => (Ok (f g), g)) k).
Proof. intros Hk g r g' Hrun. by eapply Hk. Qed.

End Frames.

Lemma keeps_refl g : keeps g g.
Proof. done. Qed.
Lemma keeps_trans g1 g2 g3 : keeps g1 g2 → keeps g2 g3 → keeps g1 g3.
Proof. intros (? & ? & ?) (? & ? & ?). unfold keeps. split_and!; congruence. Qed.
Lemma keeps_entropy g r : keeps g (set_entropy r g).
Proof. done. Qed.

Lemma bounded_refl g : bounded g g.
Proof. done. Qed.
Lemma bounded_trans g1 g2 g3 : bounded g1 g2 → bounded g2 g3 → bounded g1 g3.
Proof.
  intros (? & ? & ?) (? & ? & ?). unfold bounded. split_and!; [congruence..|auto].
Qed.
Lemma bounded_entropy g r : bounded g (set_entropy r g).
Proof. done. Qed.

Lemma keeps_bounded {A} (m : G A) : frames keeps m → frames bounded m.
Proof.
  intros Hm g r g' Hrun. destruct (Hm g r g' Hrun) as (? & ? & Hp).
  unfold bounded. rewrite Hp. by split_and!.
Qed.

End GeneratorMonad.

(** The side conditions of the frame lemmas. *)
Ltac frame_rel :=
  first [ exact keeps_refl | exact keeps_trans | exact keeps_entropy
        | exact bounded_refl | exact bounded_trans | exact bounded_entropy ].

Ltac frames_step :=
  first
    [ apply frames_ret; frame_rel
    | apply frames_lift; frame_rel
    | apply frames_draw; frame_rel
    | apply frames_draw_result; frame_rel
    | apply frames_bind; [frame_rel| |intros ?]
    | match goal with |- frames _ (if ?b then _ else _) => destruct b end ].

(** ** One event *)

Section OneEvent.
Context `{GenLib}.
Local Open Scope gen_scope.

Lemma event_value_for_keeps ty : frames keeps (event_value_for ty).
Proof. unfold event_value_for. repeat frames_step. Qed.

Lemma event_timestamp_keeps t : frames keeps (event_timestamp t).
Proof. unfold event_timestamp. repeat frames_step. Qed.

Lemma add_utm_keeps ev : frames keeps (add_utm ev).
Proof. unfold add_utm. repeat frames_step. Qed.
Lemma add_device_keeps ev : frames keeps (add_device ev).
Proof. unfold add_device. repeat frames_step. Qed.
Lemma add_country_keeps ev : frames keeps (add_country ev).
Proof. unfold add_country. repeat frames_step. Qed.
Lemma add_attribution_keeps ev : frames keeps (add_attribution ev).
Proof. unfold add_attribution. repeat frames_step. Qed.

(** A new session is the last of the pool, and the pool stays within
    fifty. *)
Lemma new_session_spec g r g' :
  new_session g = (r, g') →
  bounded g g' ∧ ∃ sid, r = Ok sid ∧ last (session_pool g') = Some sid.
Proof.
  cbv beta iota zeta delta [new_session gbind draw].
  intros [= <- <-]. unfold set_session_pool, set_entropy, bounded.
  cbn [session_pool organization_id user_pool entropy]. split.
  - split_and!; try done. intros Hlen.
    match goal with |- context [Nat.ltb 50 ?n] =>
      destruct (Nat.ltb_spec 50 n) as [Hlt|Hge] end.
    + destruct (session_pool g) as [|s0 pool]; [cbn in Hlt; lia|].
      cbn [app tail]. rewrite length_app. cbn in *. lia.
    + lia.
  - eexists. split; [done|].
    match goal with |- context [Nat.ltb 50 ?n] =>
      destruct (Nat.ltb_spec 50 n) as [Hlt|Hge] end.
    + destruct (session_pool g) as [|s0 pool]; [cbn in Hlt; lia|].
      cbn [app tail]. by rewrite last_snoc.
    + by rewrite last_snoc.
Qed.

Lemma pick_session_bounded : frames bounded pick_session.
Proof.
  intros g r g'. unfold pick_session.
  destruct (session_pool g) as [|s0 pool] eqn:Epool.
  - intros Hrun. by apply new_session_spec in Hrun as [? _].
  - revert g r g' Epool. enough (∀ l, frames bounded
      (r <- draw random_random ;;
       if SFltb r (float_ratio 7 10) then draw_result (random_choice l)
       else new_session)) as Hf by (intros g r g' _; apply Hf).
    intros l. apply frames_bind; [frame_rel| |intros x].
    + apply frames_draw; frame_rel.
    + destruct (SFltb _ _).
      * apply frames_draw_result; frame_rel.
      * intros g r g' Hrun. by apply new_session_spec in Hrun as [? _].
Qed.

(** The session of the event is in the pool afterwards. *)
Lemma pick_session_member g sid g' :
  choice_ok → pick_session g = (Ok sid, g') → sid ∈ session_pool g'.
Proof.
  intros Hchoice. unfold pick_session.
  destruct (session_pool g) as [|s0 pool] eqn:Epool.
  - intros Hrun. apply new_session_spec in Hrun as (_ & sid' & [= <-] & Hlast).
    apply last_Some in Hlast as (l' & ->). set_solver.
  - intros Hrun. apply gbind_inv in Hrun as (x & g1 & Hdraw & Hrun).
    injection Hdraw as <- <-.
    destruct (SFltb _ _).
    + unfold draw_result in Hrun. injection Hrun as Hsid <-. cbn. rewrite Epool.
      destruct (Hchoice (s0 :: pool) (random_random (entropy g)).2) as (y & Hy & Hc);
        [done|].
      cbn in Hsid. rewrite Hc in Hsid. by injection Hsid as <-.
    + apply new_session_spec in Hrun as (_ & sid' & [= <-] & Hlast).
      apply last_Some in Hlast as (l' & ->). set_solver.
Qed.

Lemma generate_event_bounded t : frames bounded (generate_event t).
Proof.
  unfold generate_event.
  apply frames_bind; [frame_rel| |intros event_type].
  { apply frames_draw_result; frame_rel. }
  apply frames_bind; [frame_rel| |intros event_value].
  { apply keeps_bounded, event_value_for_keeps. }
  apply frames_bind; [frame_rel| |intros user_id].
  { intros g r g' [= <- <-]. apply bounded_entropy. }
  apply frames_bind; [frame_rel| |intros session_id].
  { apply pick_session_bounded. }
  apply frames_bind; [frame_rel| |intros timestamp].
  { apply keeps_bounded, event_timestamp_keeps. }
  apply frames_bind; [frame_rel| |intros id_hex].
  { apply frames_draw; frame_rel. }
  apply frames_read. intros org.
  apply frames_bind; [frame_rel| |intros event_hex].
  { apply frames_draw; frame_rel. }
  apply frames_bind; [frame_rel| |intros currency].
  { destruct (SFltb _ _); [apply frames_draw_result|apply frames_ret]; frame_rel. }
  apply frames_bind; [frame_rel| |intros ev1].
  { apply keeps_bounded, add_utm_keeps. }
  apply frames_bind; [frame_rel| |intros ev2].
  { apply keeps_bounded, add_device_keeps. }
  apply frames_bind; [frame_rel| |intros ev3].
  { apply keeps_bounded, add_country_keeps. }
  apply keeps_bounded, add_attribution_keeps.
Qed.

Lemma add_utm_spec ev g ev' g' :
  add_utm ev g = (Ok ev', g') →
  extends ["utm_source"; "utm_medium"; "utm_campaign"] ev ev' ∧
  (ev !! "utm_campaign" = None → is_Some (ev' !! "utm_campaign") →
   is_Some (ev' !! "utm_source") ∧ is_Some (ev' !! "utm_medium")).
Proof.
  unfold add_utm. intros Hrun.
  apply gbind_inv in Hrun as (r & g1 & _ & Hrun).
  destruct (SFltb r _).
  2:{ injection Hrun as <- <-. split; [done|]. intros -> [? ?]. done. }
  apply gbind_inv in Hrun as (source & g2 & _ & Hrun).
  apply gbind_inv in Hrun as (medium & g3 & _ & Hrun).
  apply gbind_inv in Hrun as (r2 & g4 & _ & Hrun).
  destruct (SFltb r2 _).
  - apply gbind_inv in Hrun as (campaign & g5 & _ & Hrun).
    injection Hrun as <- <-. split.
    + intros k Hk. rewrite !not_elem_of_cons in Hk. destruct Hk as (? & ? & ? & _).
      by do 3 (rewrite lookup_insert_ne by done).
    + intros _ _. split.
      * do 2 (rewrite lookup_insert_ne by done). rewrite lookup_insert_eq. by eexists.
      * rewrite lookup_insert_ne by done. rewrite lookup_insert_eq. by eexists.
  - injection Hrun as <- <-. split.
    + intros k Hk. rewrite !not_elem_of_cons in Hk. destruct Hk as (? & ? & ? & _).
      by do 2 (rewrite lookup_insert_ne by done).
    + intros Hnone. do 2 (rewrite lookup_insert_ne by done). rewrite Hnone.
      by intros [? ?].
Qed.

Lemma add_device_spec ev g ev' g' :
  add_device ev g = (Ok ev', g') → extends ["device_type"; "browser"] ev ev'.
Proof.
  unfold add_device. intros Hrun.
  apply gbind_inv in Hrun as (r & g1 & _ & Hrun).
  destruct (SFltb r _); [|by injection Hrun as <- <-].
  apply gbind_inv in Hrun as (device & g2 & _ & Hrun).
  apply gbind_inv in Hrun as (browser & g3 & _ & Hrun).
  injection Hrun as <- <-.
  intros k Hk. rewrite !not_elem_of_cons in Hk. destruct Hk as (? & ? & _).
  by do 2 (rewrite lookup_insert_ne by done).
Qed.

Lemma add_country_spec ev g ev' g' :
  add_country ev g = (Ok ev', g') → extends ["country"] ev ev'.
Proof.
  unfold add_country. intros Hrun.
  apply gbind_inv in Hrun as (r & g1 & _ & Hrun).
  destruct (SFltb r _); [|by injection Hrun as <- <-].
  apply gbind_inv in Hrun as (country & g2 & _ & Hrun).
  injection Hrun as <- <-.
  intros k Hk. rewrite !not_elem_of_cons in Hk. destruct Hk as (? & _).
  by rewrite lookup_insert_ne by done.
Qed.

Lemma add_attribution_spec ev g ev' g' :
  add_attribution ev g = (Ok ev', g') → extends ["attribution_path"] ev ev'.
Proof.
  unfold add_attribution. intros Hrun.
  apply gbind_inv in Hrun as (r & g1 & _ & Hrun).
  destruct (SFltb r _); [|by injection Hrun as <- <-].
  apply gbind_inv in Hrun as (path_length & g2 & _ & Hrun).
  apply gbind_inv in Hrun as (path_sources & g3 & _ & Hrun).
  injection Hrun as <- <-.
  intros k Hk. rewrite !not_elem_of_cons in Hk. destruct Hk as (? & _).
  by rewrite lookup_insert_ne by done.
Qed.

Lemma append_not_empty s1 s2 : s2 ≠ "" → s1 +:+ s2 ≠ "".
Proof. intros Hne. destruct s1 as [|a s1]; [exact Hne|]. intros Heq. inversion Heq. Qed.

Lemma uuid_str_not_empty hex : uuid_str hex ≠ "".
Proof. unfold uuid_str. apply append_not_empty. intros Heq. inversion Heq. Qed.

Lemma event_value_for_spec ty g x g' :
  event_value_for ty g = (Ok x, g') →
  ty ∉ ["purchase"; "subscription"; "checkout"; "add_to_cart"] → x = float_zero.
Proof.
  unfold event_value_for. rewrite !not_elem_of_cons. intros Hrun (? & ? & ? & ? & _).
  cbn [existsb] in Hrun.
  destruct (String.eqb_spec ty "purchase"); [done|].
  destruct (String.eqb_spec ty "subscription"); [done|].
  destruct (String.eqb_spec ty "checkout"); [done|].
  destruct (String.eqb_spec ty "add_to_cart"); [done|].
  cbn in Hrun. by injection Hrun as <- <-.
Qed.

(** The event as [generate_event] builds it: the nine fields of the
    literal, then the optional ones. *)
Lemma generate_event_fields base_time g ev g' :
  generate_event base_time g = (Ok ev, g') →
  ∃ g3 g4 id evid ts ty x cur uid sid,
    pick_session g3 = (Ok sid, g4) ∧ keeps g4 g' ∧
    id ≠ "" ∧
    ev !! "id" = Some (VStr id) ∧
    ev !! "organization_id" = Some (VStr (organization_id g)) ∧
    ev !! "event_id" = Some (VStr evid) ∧
    ev !! "timestamp" = Some (VStr ts) ∧
    ev !! "event_type" = Some (VStr ty) ∧
    ev !! "event_value" = Some (VFloat x) ∧
    ev !! "currency" = Some (VStr cur) ∧
    ev !! "user_id" = Some (VStr uid) ∧
    ev !! "session_id" = Some (VStr sid) ∧
    (SFltb float_zero x = false → cur = "USD") ∧
    (ty ∉ ["purchase"; "subscription"; "checkout"; "add_to_cart"] → x = float_zero) ∧
    (∀ k, is_Some (ev !! k) → k ∈ required_columns ∨ k ∈ optional_columns) ∧
    (is_Some (ev !! "utm_campaign") →
     is_Some (ev !! "utm_source") ∧ is_Some (ev !! "utm_medium")).
Proof.
  unfold generate_event. intros Hrun.
  apply gbind_inv in Hrun as (ty & g1 & Hty & Hrun).
  apply gbind_inv in Hrun as (x & g2 & Hx & Hrun).
  apply gbind_inv in Hrun as (uid & g3 & Huid & Hrun).
  apply gbind_inv in Hrun as (sid & g4 & Hsid & Hrun).
  apply gbind_inv in Hrun as (ts & g5 & Hts & Hrun).
  apply gbind_inv in Hrun as (id_hex & g6 & Hidh & Hrun).
  apply gbind_inv in Hrun as (org & g7 & Horg & Hrun).
  apply gbind_inv in Hrun as (event_hex & g8 & Hevh & Hrun).
  apply gbind_inv in Hrun as (cur & g9 & Hcur & Hrun).
  apply gbind_inv in Hrun as (ev1 & g10 & H1 & Hrun).
  apply gbind_inv in Hrun as (ev2 & g11 & H2 & Hrun).
  apply gbind_inv in Hrun as (ev3 & g12 & H3 & Hrun).
  assert (keeps g g4 → organization_id g4 = organization_id g) as Horg4
    by (by intros (? & _)).
  (* the generator between the steps *)
  pose proof (frames_draw_result keeps keeps_entropy _ _ _ _ Hty) as K1.
  pose proof (event_value_for_keeps _ _ _ _ Hx) as K2.
  assert (keeps g2 g3) as K3 by (injection Huid as _ <-; apply keeps_entropy).
  pose proof (pick_session_bounded _ _ _ Hsid) as (B4o & B4u & _).
  pose proof (event_timestamp_keeps _ _ _ _ Hts) as K5.
  pose proof (frames_draw keeps keeps_entropy _ _ _ _ Hidh) as K6.
  injection Horg as <- <-.
  pose proof (frames_draw keeps keeps_entropy _ _ _ _ Hevh) as K8.
  assert (keeps g8 g9) as K9.
  { destruct (SFltb float_zero x).
    - by apply (frames_draw_result keeps keeps_entropy _ _ _ _ Hcur).
    - by injection Hcur as _ <-. }
  pose proof (add_utm_keeps _ _ _ _ H1) as K10.
  pose proof (add_device_keeps _ _ _ _ H2) as K11.
  pose proof (add_country_keeps _ _ _ _ H3) as K12.
  pose proof (add_attribution_keeps _ _ _ _ Hrun) as K13.
  assert (organization_id g6 = organization_id g) as Horg.
  { destruct K1 as (? & _), K2 as (? & _), K3 as (? & _), K5 as (? & _),
      K6 as (? & _). congruence. }
  rewrite Horg in H1.
  set (ev0 := <["session_id" := VStr sid]> _) in H1.
  destruct (add_utm_spec _ _ _ _ H1) as (E1 & Hutm).
  pose proof (add_device_spec _ _ _ _ H2) as E2.
  pose proof (add_country_spec _ _ _ _ H3) as E3.
  pose proof (add_attribution_spec _ _ _ _ Hrun) as E4.
  assert (∀ k, k ∉ optional_columns → ev !! k = ev0 !! k) as Hreq.
  { intros k Hk. unfold optional_columns in Hk. rewrite !not_elem_of_cons in Hk.
    destruct Hk as (? & ? & ? & ? & ? & ? & ? & _).
    rewrite E4, E3, E2, E1; [done|..]; rewrite !not_elem_of_cons; split_and!;
      try done; apply not_elem_of_nil. }
  assert (∀ k, k ∉ required_columns → ev0 !! k = None) as Hnone.
  { intros k Hk. unfold required_columns in Hk. rewrite !not_elem_of_cons in Hk.
    destruct Hk as (? & ? & ? & ? & ? & ? & ? & ? & ? & _).
    unfold ev0. by do 9 (rewrite lookup_insert_ne by done). }
  exists g3, g4, (uuid_str id_hex), ("evt_" +:+ String.substring 0 12 event_hex),
    (isoformat ts), ty, x, cur, uid, sid.
  split; [done|]. split.
  { repeat (eapply keeps_trans; [eassumption|]). apply keeps_refl. }
  split; [apply uuid_str_not_empty|].
  split_and!.
  - rewrite Hreq by (by apply (bool_decide_unpack _)). unfold ev0.
    do 8 (rewrite lookup_insert_ne by done). by rewrite lookup_insert_eq.
  - rewrite Hreq by (by apply (bool_decide_unpack _)). unfold ev0.
    do 7 (rewrite lookup_insert_ne by done). by rewrite lookup_insert_eq.
  - rewrite Hreq by (by apply (bool_decide_unpack _)). unfold ev0.
    do 6 (rewrite lookup_insert_ne by done). by rewrite lookup_insert_eq.
  - rewrite Hreq by (by apply (bool_decide_unpack _)). unfold ev0.
    do 5 (rewrite lookup_insert_ne by done). by rewrite lookup_insert_eq.
  - rewrite Hreq by (by apply (bool_decide_unpack _)). unfold ev0.
    do 4 (rewrite lookup_insert_ne by done). by rewrite lookup_insert_eq.
  - rewrite Hreq by (by apply (bool_decide_unpack _)). unfold ev0.
    do 3 (rewrite lookup_insert_ne by done). by rewrite lookup_insert_eq.
  - rewrite Hreq by (by apply (bool_decide_unpack _)). unfold ev0.
    do 2 (rewrite lookup_insert_ne by done). by rewrite lookup_insert_eq.
  - rewrite Hreq by (by apply (bool_decide_unpack _)). unfold ev0.
    rewrite lookup_insert_ne by done. by rewrite lookup_insert_eq.
  - rewrite Hreq by (by apply (bool_decide_unpack _)). unfold ev0.
    by rewrite lookup_insert_eq.
  - intros Hle. rewrite Hle in Hcur. by injection Hcur as <- _.
  - by apply (event_value_for_spec _ _ _ _ Hx).
  - intros k Hk.
    destruct (decide (k ∈ optional_columns)) as [?|Hopt]; [by right|]. left.
    destruct (decide (k ∈ required_columns)) as [?|Hnot]; [done|].
    rewrite Hreq, Hnone in Hk by done. by destruct Hk.
  - intros Hcampaign.
    assert (ev1 !! "utm_campaign" = ev !! "utm_campaign") as Hc1.
    { rewrite E4, E3, E2; [done|..]; by apply (bool_decide_unpack _). }
    assert (ev !! "utm_source" = ev1 !! "utm_source") as ->.
    { rewrite E4, E3, E2; [done|..]; by apply (bool_decide_unpack _). }
    assert (ev !! "utm_medium" = ev1 !! "utm_medium") as ->.
    { rewrite E4, E3, E2; [done|..]; by apply (bool_decide_unpack _). }
    apply Hutm; [|by rewrite Hc1].
    apply Hnone. by apply (bool_decide_unpack _).
Qed.

End OneEvent.

Section GeneratedEvents.
Context `{GenLib}.
Local Open Scope gen_scope.

(** X22. Every event [generate_event] returns has the nine required fields
    of the loader's schema, none of them [None], and no key outside the
    sixteen columns; its organisation is the generator's; its event value
    is a double, 0.0 unless the type is purchase, subscription, checkout or
    add_to_cart, and its currency is USD when the value is not positive; a
    campaign comes only with a source and a medium. *)
Theorem generate_event_shape base_time g ev g' :
  generate_event base_time g = (Ok ev, g') →
  (∀ k, k ∈ required_columns → ∃ v, ev !! k = Some v ∧ v ≠ VNone) ∧
  (∀ k, is_Some (ev !! k) → k ∈ column_order) ∧
  ev !! "organization_id" = Some (VStr (organization_id g)) ∧
  (∃ ty x, ev !! "event_type" = Some (VStr ty) ∧
           ev !! "event_value" = Some (VFloat x) ∧
           (ty ∉ ["purchase"; "subscription"; "checkout"; "add_to_cart"] →
            x = float_zero) ∧
           (SFltb float_zero x = false → ev !! "currency" = Some (VStr "USD"))) ∧
  (is_Some (ev !! "utm_campaign") →
   is_Some (ev !! "utm_source") ∧ is_Some (ev !! "utm_medium")).
Proof.
  intros Hrun.
  destruct (generate_event_fields _ _ _ _ Hrun)
    as (g3 & g4 & id & evid & ts & ty & x & cur & uid & sid & _ & _ & _ & Hid & Horg
        & Hevid & Hts & Hty & Hx & Hcur & Huid & Hsid & Husd & Hzero & Hkeys & Hutm).
  split_and!.
  - intros k Hk. unfold required_columns in Hk.
    repeat (apply elem_of_cons in Hk as [->|Hk]); [by eexists..|].
    by apply elem_of_nil in Hk.
  - intros k Hk. destruct (Hkeys k Hk) as [Hreq|Hopt].
    + unfold required_columns in Hreq. unfold column_order.
      rewrite !elem_of_cons in *. tauto.
    + unfold optional_columns in Hopt. unfold column_order.
      rewrite !elem_of_cons in *. tauto.
  - done.
  - exists ty, x. split_and!; try done. intros Hle. by rewrite Hcur, (Husd Hle).
  - done.
Qed.

(** X23. [generate_event] leaves the organisation and the user pool as
    they are and keeps the session pool within fifty, however it ends; and,
    [random.choice] giving an element of its argument, the session of the
    event it returns is in the pool afterwards. *)
Theorem generate_event_session_pool base_time g r g' :
  generate_event base_time g = (r, g') →
  organization_id g' = organization_id g ∧
  user_pool g' = user_pool g ∧
  ((length (session_pool g) ≤ 50)%nat → (length (session_pool g') ≤ 50)%nat) ∧
  (choice_ok → ∀ ev, r = Ok ev →
     ∃ sid, ev !! "session_id" = Some (VStr sid) ∧ sid ∈ session_pool g').
Proof.
  intros Hrun.
  destruct (generate_event_bounded _ _ _ _ Hrun) as (Horg & Hpool & Hlen).
  split_and!; try done.
  intros Hchoice ev ->.
  destruct (generate_event_fields _ _ _ _ Hrun)
    as (g3 & g4 & id & evid & ts & ty & x & cur & uid & sid & Hpick & (_ & _ & Hsame)
        & _ & _ & _ & _ & _ & _ & _ & _ & _ & Hsid & _).
  exists sid. split; [done|]. rewrite Hsame. by apply (pick_session_member g3).
Qed.

(** *** The events of a time range *)

(** The events of one hour: as many as asked, when no more than
    remain. *)
Lemma hour_batch_spec n t events remaining g r g' :
  hour_batch n t events remaining g = (r, g') →
  (Z.of_nat n ≤ remaining)%Z →
  bounded g g' ∧
  ∀ out rem', r = Ok (out, rem') →
    ∃ added, out = events ++ added ∧ length added = n ∧
             rem' = (remaining - Z.of_nat n)%Z.
Proof.
  revert events remaining g. induction n as [|n IH]; intros events remaining g Hrun Hle.
  - injection Hrun as <- <-. split; [done|].
    intros out rem' [= <- <-]. exists []. rewrite app_nil_r. split_and!; [done..|lia].
  - cbn [hour_batch] in Hrun.
    destruct (generate_event t g) as [[ev|e] g1] eqn:E.
    2:{ rewrite (gbind_raise _ _ _ _ _ E) in Hrun. injection Hrun as <- <-.
        split; [by eapply generate_event_bounded|]. by intros. }
    pose proof (generate_event_bounded _ _ _ _ E) as B1.
    rewrite (gbind_ok _ _ _ _ _ E) in Hrun.
    destruct (Z.leb_spec (remaining - 1) 0) as [Hlast|Hmore].
    + injection Hrun as <- <-. split; [done|].
      intros out rem' [= <- <-]. exists [ev]. split_and!; [done| |lia].
      cbn. lia.
    + destruct (IH _ _ _ Hrun) as (B2 & Hout); [lia|].
      split; [by eapply bounded_trans|].
      intros out rem' Hr. destruct (Hout _ _ Hr) as (added & -> & Hlen & ->).
      exists (ev :: added). rewrite <- app_assoc. split_and!; [done|cbn; lia|lia].
Qed.

(** One round of the loop makes at least one event, at most those that
    remain, and moves to the next hour. *)
Lemma one_hour_spec events_per_hour t events remaining g r g' :
  one_hour events_per_hour t events remaining g = (r, g') →
  (0 < remaining)%Z →
  bounded g g' ∧
  ∀ out rem' t', r = Ok (out, rem', t') →
    ∃ added, out = events ++ added ∧ (1 ≤ length added)%nat ∧
             rem' = (remaining - Z.of_nat (length added))%Z ∧ (0 ≤ rem')%Z ∧
             t' = (t + hour)%Z.
Proof.
  unfold one_hour. intros Hrun Hpos.
  destruct (draw_result (random_randint (-5) 10) g) as [[v|e] g1] eqn:E1.
  2:{ rewrite (gbind_raise _ _ _ _ _ E1) in Hrun. injection Hrun as <- <-.
      split; [|by intros].
      by apply (frames_draw_result bounded bounded_entropy _ _ _ _ E1). }
  pose proof (frames_draw_result bounded bounded_entropy _ _ _ _ E1) as B1.
  rewrite (gbind_ok _ _ _ _ _ E1) in Hrun.
  set (hour_events := Z.min remaining (Z.max 1 (events_per_hour + v))) in *.
  assert (1 ≤ hour_events ≤ remaining)%Z as Hhe by (unfold hour_events; lia).
  destruct (hour_batch (Z.to_nat hour_events) t events remaining g1)
    as [[[out1 rem1]|e] g2] eqn:E2.
  2:{ rewrite (gbind_raise _ _ _ _ _ E2) in Hrun. injection Hrun as <- <-.
      destruct (hour_batch_spec _ _ _ _ _ _ _ E2) as (B2 & _); [lia|].
      split; [by eapply bounded_trans|]. by intros. }
  destruct (hour_batch_spec _ _ _ _ _ _ _ E2) as (B2 & Hout); [lia|].
  destruct (Hout _ _ eq_refl) as (added & -> & Hlen & ->).
  rewrite (gbind_ok _ _ _ _ _ E2) in Hrun. cbn [fst snd] in Hrun.
  unfold gbind, glift, datetime_add in Hrun.
  split.
  { destruct (_ && _)%bool; injection Hrun as <- <-; by eapply bounded_trans. }
  intros out rem' t' ->.
  destruct (_ && _)%bool; [|done]. injection Hrun as <- <- <- <-.
  exists added. split_and!; [done|lia|lia|lia|done].
Qed.

(** The loop with enough rounds: it ends, with at most the events that
    remained, and with fewer only when the hours are over. *)
Lemma hours_loop_spec fuel events_per_hour end_date t events remaining g :
  (remaining ≤ Z.of_nat fuel)%Z →
  ∃ r g',
    hours_loop fuel events_per_hour end_date t events remaining g = Some (r, g') ∧
    bounded g g' ∧
    ∀ out, r = Ok out →
      ∃ added, out = events ++ added ∧
               (Z.of_nat (length added) ≤ Z.max 0 remaining)%Z ∧
               ((remaining ≤ Z.of_nat (length added))%Z ∨
                (end_date - t ≤ Z.of_nat (length added) * hour)%Z).
Proof.
  revert t events remaining g.
  induction fuel as [|fuel IH]; intros t events remaining g Hfuel.
  - exists (Ok events), g. cbn [hours_loop].
    assert ((0 <? remaining)%Z = false) as -> by lia. cbn.
    split; [done|]. split; [done|]. intros out [= <-]. exists [].
    rewrite app_nil_r. split_and!; [done|cbn; lia|left; cbn; lia].
  - cbn [hours_loop].
    destruct (Z.ltb_spec 0 remaining) as [Hpos|Hdone]; cbn [andb].
    2:{ exists (Ok events), g. split; [done|]. split; [done|]. intros out [= <-].
        exists []. rewrite app_nil_r. split_and!; [done|cbn; lia|left; cbn; lia]. }
    destruct (Z.ltb_spec t end_date) as [Htime|Hover].
    2:{ exists (Ok events), g. split; [done|]. split; [done|]. intros out [= <-].
        exists []. rewrite app_nil_r. split_and!; [done|cbn; lia|right; cbn; lia]. }
    destruct (one_hour events_per_hour t events remaining g)
      as [[[[out1 rem1] t1]|e] g1] eqn:E1.
    2:{ exists (Raise e), g1. split; [done|].
        destruct (one_hour_spec _ _ _ _ _ _ _ E1 Hpos) as (B1 & _).
        split; [done|]. by intros. }
    destruct (one_hour_spec _ _ _ _ _ _ _ E1 Hpos) as (B1 & Hout).
    destruct (Hout _ _ _ eq_refl) as (added1 & -> & Hlen1 & -> & Hrem & ->).
    destruct (IH (t + hour)%Z (events ++ added1)
                (remaining - Z.of_nat (length added1))%Z g1)
      as (r & g' & Hrun & B2 & Hres); [lia|].
    exists r, g'. split; [done|]. split; [by eapply bounded_trans|].
    intros out Hr. destruct (Hres out Hr) as (added2 & -> & Hlen2 & Hend).
    exists (added1 ++ added2). rewrite <- app_assoc, length_app.
    assert (0 < hour)%Z by done.
    split_and!; [done|lia|]. destruct Hend as [?|?]; [left; lia|right; nia].
Qed.

(** X24. [generate_events] always ends.  Over a range of less than an hour
    (or of no whole hour) it raises [ZeroDivisionError] before it makes any
    event; otherwise, when it returns, it returns at most [num_events]
    events, and fewer only when the range is over: every hour started has
    given at least one event.  The organisation and the user pool are as
    before and the session pool stays within fifty. *)
Theorem generate_events_count num_events start_date end_date g :
  (timedelta_hours (end_date - start_date) = 0%Z →
   generate_events num_events start_date end_date g =
     Some (Raise (Exn ZeroDivisionError "integer division or modulo by zero"), g)) ∧
  (timedelta_hours (end_date - start_date) ≠ 0%Z →
   ∃ r g',
     generate_events num_events start_date end_date g = Some (r, g') ∧
     bounded g g' ∧
     ∀ events, r = Ok events →
       (Z.of_nat (length events) ≤ Z.max 0 num_events)%Z ∧
       ((num_events ≤ Z.of_nat (length events))%Z ∨
        (end_date - start_date ≤ Z.of_nat (length events) * hour)%Z)).
Proof.
  unfold generate_events. split.
  - by intros ->.
  - intros Hne. destruct (Z.eqb_spec (timedelta_hours (end_date - start_date)) 0);
      [done|].
    destruct (hours_loop_spec (Z.to_nat num_events)
                (Z.max 1 (num_events / timedelta_hours (end_date - start_date)))
                end_date start_date [] num_events g) as (r & g' & Hrun & B & Hres);
      [lia|].
    exists r, g'. split; [done|]. split; [done|].
    intros events Hr. destruct (Hres events Hr) as (added & -> & Hlen & Hend).
    done.
Qed.

(** *** Journeys *)

Lemma journey_step_spec user_id session_id t step g ev t' g' :
  journey_step user_id session_id t step g = (Ok (ev, t'), g') →
  ev !! "event_type" = Some (VStr step.1.1) ∧
  ev !! "user_id" = Some (VStr user_id) ∧
  ev !! "session_id" = Some (VStr session_id) ∧
  ev !! "organization_id" = Some (VStr (organization_id g)) ∧
  ev !! "event_value" = Some (positive_or_zero step.2) ∧
  organization_id g' = organization_id g.
Proof.
  unfold journey_step. intros Hrun.
  apply gbind_inv in Hrun as (seconds & g1 & Hsec & Hrun).
  apply gbind_inv in Hrun as (delta & g2 & Hdelta & Hrun).
  apply gbind_inv in Hrun as (t1 & g3 & Ht1 & Hrun).
  apply gbind_inv in Hrun as (id_hex & g4 & Hidh & Hrun).
  apply gbind_inv in Hrun as (org & g5 & Horg & Hrun).
  apply gbind_inv in Hrun as (event_hex & g6 & Hevh & Hrun).
  injection Hrun as <- <- <-. injection Horg as <- <-.
  injection Hsec as Hsec <-. injection Hdelta as Hdelta <-.
  injection Ht1 as Ht1 <-. injection Hidh as <- <-. injection Hevh as <- <-.
  split_and!.
  - do 10 (rewrite lookup_insert_ne by done). by rewrite lookup_insert_eq.
  - do 7 (rewrite lookup_insert_ne by done). by rewrite lookup_insert_eq.
  - do 6 (rewrite lookup_insert_ne by done). by rewrite lookup_insert_eq.
  - do 13 (rewrite lookup_insert_ne by done). by rewrite lookup_insert_eq.
  - do 9 (rewrite lookup_insert_ne by done). by rewrite lookup_insert_eq.
  - done.
Qed.

Lemma journey_loop_spec steps user_id session_id t acc g out g' :
  journey_loop steps user_id session_id t acc g = (Ok out, g') →
  ∃ added,
    out = acc ++ added ∧
    Forall2 (fun step ev =>
               ev !! "event_type" = Some (VStr step.1.1) ∧
               ev !! "user_id" = Some (VStr user_id) ∧
               ev !! "session_id" = Some (VStr session_id) ∧
               ev !! "organization_id" = Some (VStr (organization_id g)) ∧
               ev !! "event_value" = Some (positive_or_zero step.2))
      steps added.
Proof.
  revert t acc g. induction steps as [|step rest IH]; intros t acc g Hrun.
  - injection Hrun as <- <-. exists []. by rewrite app_nil_r.
  - cbn [journey_loop] in Hrun.
    apply gbind_inv in Hrun as ([ev t1] & g1 & Hstep & Hrun).
    destruct (journey_step_spec _ _ _ _ _ _ _ _ Hstep)
      as (Hty & Hu & Hs & Ho & Hv & Horg).
    apply IH in Hrun as (added & -> & Hall). cbn [fst snd].
    exists (ev :: added). rewrite <- app_assoc. split; [done|].
    apply Forall2_cons; split; [done|].
    eapply Forall2_impl; [exact Hall|]. intros step' ev' Hp. by rewrite Horg in Hp.
Qed.

(** X25. A journey is a prefix of the typical one: [generate_user_journey]
    returns, for the user and the session given and the generator's
    organisation, the events page_view, click, page_view, add_to_cart,
    checkout, purchase in this order or, [random.randint] staying in its
    range, the first two, three or four of them; the value of an event is
    the integer 0 or a positive double. *)
Theorem generate_user_journey_shape user_id session_id start_time g events g' :
  randint_in_range →
  generate_user_journey user_id session_id start_time g = (Ok events, g') →
  length events ∈ [2; 3; 4; 6] ∧
  map (fun ev => ev !! "event_type") events =
    map (fun ty => Some (VStr ty)) (take (length events) journey_types) ∧
  Forall (fun ev =>
            ev !! "user_id" = Some (VStr user_id) ∧
            ev !! "session_id" = Some (VStr session_id) ∧
            ev !! "organization_id" = Some (VStr (organization_id g)) ∧
            (ev !! "event_value" = Some (VInt 0) ∨
             ∃ x, ev !! "event_value" = Some (VFloat x) ∧ SFltb float_zero x = true))
    events.
Proof.
  intros Hrange. unfold generate_user_journey. intros Hrun.
  apply gbind_inv in Hrun as (cart & g1 & Hcart & Hrun).
  apply gbind_inv in Hrun as (purchase & g2 & Hpurchase & Hrun).
  apply gbind_inv in Hrun as (r & g3 & Hr & Hrun).
  apply gbind_inv in Hrun as (steps & g4 & Hsteps & Hrun).
  injection Hcart as _ <-. injection Hpurchase as _ <-. injection Hr as _ <-.
  assert (organization_id g4 = organization_id g ∧
          ∃ k, k ∈ [2; 3; 4; 6] ∧ steps = take k (journey_sequence cart purchase))
    as (Horg & k & Hk & ->).
  { destruct (SFltb r _).
    - apply gbind_inv in Hsteps as (n & g5 & Hn & Hsteps).
      injection Hsteps as <- <-. injection Hn as Hn <-. split; [done|].
      apply Hrange in Hn. unfold slice_to.
      assert ((0 <=? n)%Z = true) as -> by lia.
      exists (Z.to_nat n). split; [|done].
      assert (n = 2 ∨ n = 3 ∨ n = 4)%Z as [->|[->| ->]] by lia;
        rewrite !elem_of_cons; auto.
    - injection Hsteps as <- <-. split; [done|]. exists 6. split; [|done].
      rewrite !elem_of_cons; auto 10. }
  clear Hsteps.
  apply journey_loop_spec in Hrun as (added & -> & Hall). cbn [app].
  rewrite Horg in Hall.
  assert (length added = k) as Hlen.
  { apply Forall2_length in Hall. rewrite <- Hall, length_take. cbn.
    repeat (apply elem_of_cons in Hk as [->|Hk]); [done..|].
    by apply elem_of_nil in Hk. }
  rewrite Hlen. split; [done|]. split.
  - assert (take k journey_types =
            map (fun step : string * Z * pyval => step.1.1)
              (take k (journey_sequence cart purchase))) as ->.
    { by rewrite <- firstn_map. }
    rewrite map_map. clear Hlen Hk.
    induction Hall as [|step ev steps evs (Hty & _) _ IH]; [done|].
    cbn. by rewrite Hty, IH.
  - clear Hlen.
    assert (Forall (fun step : string * Z * pyval =>
                      positive_or_zero step.2 = VInt 0 ∨
                      ∃ x, positive_or_zero step.2 = VFloat x ∧
                           SFltb float_zero x = true)
              (take k (journey_sequence cart purchase))) as Hvalues.
    { apply Forall_take. unfold journey_sequence.
      repeat (apply Forall_cons; split;
              [cbn; try (by left);
               match goal with |- context [SFltb float_zero ?x] =>
                 destruct (SFltb float_zero x) eqn:E; [right; by eexists|by left]
               end|]).
      apply Forall_nil_2. }
    clear Hk. induction Hall as [|step ev steps evs (_ & Hu & Hs & Ho & Hv) _ IH];
      [done|].
    apply Forall_cons in Hvalues as [Hval Hvalues].
    apply Forall_cons; split; [|by apply IH].
    split_and!; try done. rewrite Hv.
    destruct Hval as [->|(x & -> & Hx)]; [by left|right; by exists x].
Qed.

End GeneratedEvents.

(** ** The generator and the loader *)

Section GeneratorAndLoader.
Context `{PyLib} `{GenLib}.

(** X26. What the generator makes, the loader validates without filling
    anything in: an event of [generate_event] whose timestamp text
    [pd.to_datetime] accepts passes [validate_events], which changes its
    organisation to the caller's and its timestamp to the parsed one and
    leaves every other field as generated. *)
Theorem generated_event_validates base_time g ev g' l org w ts tv :
  generate_event base_time g = (Ok ev, g') →
  w_heap w l = ev →
  ev !! "timestamp" = Some (VStr ts) → to_datetime (VStr ts) = Ok tv →
  ∃ w',
    validate_events [l] org w = (Ok [l], w') ∧
    w_heap w' l = <["timestamp" := tv]> (<["organization_id" := VStr org]> ev).
Proof.
  intros Hrun Hheap Hts Hparse.
  destruct (generate_event_fields _ _ _ _ Hrun)
    as (g3 & g4 & id & evid & ts' & ty & x & cur & uid & sid & _ & _ & Hne & Hid & Horg
        & Hevid & _ & Hty & Hx & Hcur & Huid & Hsid & _).
  assert (timestamp_value ev (w_ticks w) = Ok tv) as Htv.
  { unfold timestamp_value. by rewrite Hts. }
  assert (py_float (event_value_in ev) = Ok x) as Hfloat.
  { unfold event_value_in. by rewrite Hx. }
  destruct (validate_event_spec l org w) as (w' & E & Hp).
  rewrite Hheap in E, Hp.
  assert (validated_outcome ev (w_ticks w) = Ok tt) as Hok.
  { unfold validated_outcome. by rewrite Htv, Hfloat. }
  rewrite Hok in E.
  exists w'. split.
  { unfold validate_events. cbn [validate_loop]. by rewrite (bind_ok _ _ _ _ _ E). }
  destruct Hp as (-> & _).
  rewrite (validated_dict_ok _ _ _ _ _ _ Htv Hfloat).
  assert (with_id ev (w_draws w) = ev) as ->.
  { unfold with_id, dict_get. rewrite Hid. cbn.
    by destruct (String.eqb_spec id ""). }
  set (d := <["timestamp" := tv]> (<["organization_id" := VStr org]> ev)).
  assert (∀ k, k ≠ "timestamp" → k ≠ "organization_id" → d !! k = ev !! k) as Hd.
  { intros k ? ?. unfold d. by do 2 (rewrite lookup_insert_ne by done). }
  assert (∀ m, with_defaults d m = d) as ->.
  { intros m. unfold with_defaults.
    rewrite (setdefault_present "event_id" _ d) by (rewrite Hd by done; by eexists).
    rewrite (setdefault_present "event_type" _ d) by (rewrite Hd by done; by eexists).
    rewrite (setdefault_present "event_value" _ d) by (rewrite Hd by done; by eexists).
    rewrite (setdefault_present "currency" _ d) by (rewrite Hd by done; by eexists).
    rewrite (setdefault_present "user_id" _ d) by (rewrite Hd by done; by eexists).
    by rewrite (setdefault_present "session_id" _ d)
      by (rewrite Hd by done; by eexists). }
  apply insert_id. by rewrite Hd.
Qed.

End GeneratorAndLoader.

(** ** A new generator *)

Section NewGenerator.
Context `{GenLib}.

(** The first eight characters of a text of thirty-two hexadecimal
    digits are eight hexadecimal digits. *)
Lemma hex_digits_prefix hex :
  hex_digits 32 hex = true → hex_digits 8 (String.substring 0 8 hex) = true.
Proof.
  unfold hex_digits. intros Hhex. apply andb_prop in Hhex as [Hlen Hhex].
  apply Nat.eqb_eq in Hlen.
  do 8 (destruct hex as [|? hex]; [discriminate|]).
  cbn [String.substring String.length String.list_ascii_of_string forallb] in *.
  do 8 (apply andb_prop in Hhex as [-> Hhex]). by destruct hex.
Qed.

Lemma make_user_pool_spec n r :
  uuid_hex_ok →
  length (make_user_pool n r).1 = n ∧
  Forall (fun user => ∃ digits, user = "user_" +:+ digits ∧ hex_digits 8 digits = true)
    (make_user_pool n r).1.
Proof.
  intros Huuid. revert r. induction n as [|n IH]; intros r; [by split|].
  cbn [make_user_pool fst]. destruct (IH (uuid4_hex r).2) as [Hlen Hall].
  split; [cbn; by rewrite Hlen|].
  apply Forall_cons; split; [|done].
  eexists. split; [done|]. apply hex_digits_prefix, Huuid.
Qed.

(** X27. A new generator has the organisation given, no session and a
    hundred users; a uuid being thirty-two hexadecimal digits, each user is
    named "user_" followed by eight hexadecimal digits, the first eight of
    a uuid; and a seed of 0 seeds nothing: the generator is the one made
    without a seed. *)
Theorem EventGenerator_init org seed r :
  uuid_hex_ok →
  organization_id (EventGenerator org seed r) = org ∧
  length (user_pool (EventGenerator org seed r)) = 100 ∧
  Forall (fun user => ∃ digits, user = "user_" +:+ digits ∧ hex_digits 8 digits = true)
    (user_pool (EventGenerator org seed r)) ∧
  session_pool (EventGenerator org seed r) = [] ∧
  EventGenerator org (Some 0%Z) r = EventGenerator org None r.
Proof.
  intros Huuid. unfold EventGenerator. cbn [organization_id user_pool session_pool].
  split; [done|].
  set (r' := match seed with
             | Some n => if (n =? 0)%Z then r else random_seed n r
             | None => r
             end).
  destruct (make_user_pool_spec 100 r' Huuid) as [Hlen Hall]. by split_and!.
Qed.

End NewGenerator.

(** ** The generator on the small library *)

Lemma gen_outcome `{GenLib} {A} (m : G A) (g : generator) (r : result A) :
  (m g).1 = r → m g = (r, (m g).2).
Proof. intros <-. by destruct (m g). Qed.

Lemma sample_choice_ok : choice_ok (H:=Sample.gen).
Proof.
  intros l r Hne. cbn.
  destruct (lookup_lt_is_Some_2 l (r `mod` length l)%nat) as [x Hx].
  { apply Nat.mod_upper_bound. by destruct l. }
  exists x. split; [by eapply list_elem_of_lookup_2|]. by rewrite Hx.
Qed.

Lemma sample_uuid_hex_ok : uuid_hex_ok (H:=Sample.gen).
Proof.
  intros r. cbn [uuid4_hex Sample.gen fst].
  pose proof (Nat.mod_upper_bound r 16) as Hlt.
  generalize dependent (r `mod` 16)%nat. intros n Hlt.
  do 16 (destruct n as [|n]; [reflexivity|]). lia.
Qed.

Lemma sample_randint_in_range : randint_in_range (H:=Sample.gen).
Proof.
  intros a b r v. cbn. destruct (Z.leb_spec a b); [|done]. intros [= <-].
  pose proof (Z.mod_pos_bound (Z.of_nat r) (b - a + 1)). lia.
Qed.


(** X22, an instance: the first event of the small generator. *)
Lemma generate_event_shape_witness :
  (∀ k, is_Some (Sample.event_0 !! k) → k ∈ column_order) ∧
  Sample.event_0 !! "organization_id" = Some (VStr "acme").
Proof.
  edestruct (generate_event_shape (H:=Sample.gen) Sample.noon Sample.generator_0
               Sample.event_0
               (generate_event (H:=Sample.gen) Sample.noon Sample.generator_0).2)
    as (_ & Hcolumns & Horg & _).
  - apply gen_outcome. reflexivity.
  - split; [exact Hcolumns|exact Horg].
Defined.

(** X23, an instance: the session of the first event is in the pool. *)
Lemma generate_event_session_pool_witness :
  (length (session_pool
             (generate_event (H:=Sample.gen) Sample.noon Sample.generator_0).2) ≤ 50)%nat ∧
  ∃ sid, Sample.event_0 !! "session_id" = Some (VStr sid) ∧
         sid ∈ session_pool
                 (generate_event (H:=Sample.gen) Sample.noon Sample.generator_0).2.
Proof.
  edestruct (generate_event_session_pool (H:=Sample.gen) Sample.noon Sample.generator_0
               (Ok Sample.event_0)
               (generate_event (H:=Sample.gen) Sample.noon Sample.generator_0).2)
    as (_ & _ & Hlen & Hsid).
  - apply gen_outcome. reflexivity.
  - split.
    + apply Hlen. cbn. lia.
    + apply (Hsid sample_choice_ok). reflexivity.
Defined.

(** X24, instances: a range of one microsecond, and three events asked over
    a day. *)
Lemma generate_events_count_witness :
  generate_events (H:=Sample.gen) 3 Sample.noon (Sample.noon + 1) Sample.generator_0 =
    Some (Raise (Exn ZeroDivisionError "integer division or modulo by zero"),
          Sample.generator_0) ∧
  ∃ r g',
    generate_events (H:=Sample.gen) 3 Sample.noon Sample.next_noon Sample.generator_0 =
      Some (r, g') ∧
    ∀ events, r = Ok events → (Z.of_nat (length events) ≤ 3)%Z.
Proof.
  split.
  - apply (proj1 (generate_events_count (H:=Sample.gen) 3 Sample.noon (Sample.noon + 1)
                    Sample.generator_0)).
    reflexivity.
  - destruct (proj2 (generate_events_count (H:=Sample.gen) 3 Sample.noon Sample.next_noon
                       Sample.generator_0)) as (r & g' & Hrun & _ & Hcount).
    + discriminate.
    + exists r, g'. split; [exact Hrun|].
      intros events Hr. exact (proj1 (Hcount events Hr)).
Defined.

(** X25, an instance: a journey of the small generator. *)
Lemma generate_user_journey_shape_witness :
  ∃ events,
    (generate_user_journey (H:=Sample.gen) "user_1" "session_1" Sample.noon
       Sample.generator_0).1 = Ok events ∧
    length events ∈ [2; 3; 4; 6] ∧
    map (fun ev : dict => ev !! "event_type") events =
      map (fun ty => Some (VStr ty)) (take (length events) journey_types).
Proof.
  edestruct (generate_user_journey_shape (H:=Sample.gen) "user_1" "session_1" Sample.noon
               Sample.generator_0
               (match (generate_user_journey (H:=Sample.gen) "user_1" "session_1"
                         Sample.noon Sample.generator_0).1 with
                | Ok events => events
                | Raise _ => []
                end)
               (generate_user_journey (H:=Sample.gen) "user_1" "session_1" Sample.noon
                  Sample.generator_0).2)
    as (Hlen & Htypes & _).
  - exact sample_randint_in_range.
  - apply gen_outcome. reflexivity.
  - eexists. split; [reflexivity|]. split; [exact Hlen|exact Htypes].
Defined.

(** X26, an instance: the first event of the small generator, validated for
    another organisation. *)
Lemma generated_event_validates_witness :
  ∃ w',
    validate_events (H:=Sample.lib_iso) [0] "other" (Sample.world_of [Sample.event_0])
      = (Ok [0], w') ∧
    w_heap w' 0 =
      <["timestamp" := VTimestamp 1705320184000000000]>
        (<["organization_id" := VStr "other"]> Sample.event_0).
Proof.
  apply (generated_event_validates (H:=Sample.lib_iso) (H0:=Sample.gen) Sample.noon
           Sample.generator_0 Sample.event_0
           (generate_event (H:=Sample.gen) Sample.noon Sample.generator_0).2 0 "other"
           (Sample.world_of [Sample.event_0]) "1705320184000000").
  - apply gen_outcome. reflexivity.
  - reflexivity.
  - reflexivity.
  - reflexivity.
Defined.

(** X27, an instance: the small generator, seeded with 7 and with 0. *)
Lemma EventGenerator_init_witness :
  length (user_pool (EventGenerator (H:=Sample.gen) "acme" (Some 7%Z) 0)) = 100 ∧
  Forall (fun user => ∃ digits, user = "user_" +:+ digits ∧ hex_digits 8 digits = true)
    (user_pool (EventGenerator (H:=Sample.gen) "acme" (Some 7%Z) 0)) ∧
  EventGenerator (H:=Sample.gen) "acme" (Some 0%Z) 0 =
    EventGenerator (H:=Sample.gen) "acme" None 0.
Proof.
  destruct (EventGenerator_init (H:=Sample.gen) "acme" (Some 7%Z) 0 sample_uuid_hex_ok)
    as (_ & Hlen & Hall & _ & Hseed).
  split; [exact Hlen|]. split; [exact Hall|exact Hseed].
Defined.
